(** * Stock analysis backend: the read-through / refresh-through pipeline

    A shallow embedding of the query engine ([StockService]), the sync
    engine ([DataFetcher], [FundamentalFetcher]) and the cache policy
    ([CacheService]) of the backend, followed by the properties the
    specification states about them.

    Conventions of the embedding.
    - A JavaScript [number] is an IEEE-754 binary64 value: [spec_float]
      with precision 53 and maximal exponent 1024, with the operations of
      [SpecFloat].
    - A valid JavaScript [Date] is its time value, a [Z] of milliseconds
      since the epoch; an Invalid Date is [None] where one can occur.
    - A [bigint] is a [Z]; a string is a [string] of bytes, and the case
      and whitespace functions act on its ASCII characters.
    - Asynchronous methods are computations in a state and exception monad
      over a [World]: the table of stored prices, the cache, and the
      behaviour of the collaborators (market data source, database faults,
      cache faults, clock), each read in the order the code consults it. *)

From Stdlib Require Import ZArith List Bool String Ascii Lia.
From Stdlib Require Import Permutation Sorted.
From Stdlib Require Import Floats.SpecFloat.
Import ListNotations.

Open Scope string_scope.
Open Scope Z_scope.

(* ====================================================================== *)
(** * JavaScript values                                                    *)
(* ====================================================================== *)

(** ** Numbers *)

Definition number : Type := spec_float.

Definition num_of_Z (z : Z) : number := binary_normalize 53 1024 z 0 false.
Definition num_mul : number -> number -> number := SFmul 53 1024.
Definition num_div : number -> number -> number := SFdiv 53 1024.
Definition num_sub : number -> number -> number := SFsub 53 1024.
Definition num_abs : number -> number := SFabs.
Definition num_eqb : number -> number -> bool := SFeqb.
Definition num_ltb : number -> number -> bool := SFltb.

Definition num_zero : number := S754_zero false.
Definition num_one : number := Eval cbv in num_of_Z 1.
Definition num_100 : number := Eval cbv in num_of_Z 100.

(** The literals [0.7] and [0.8]: the binary64 values nearest to 7/10 and
    8/10. *)
Definition num_0_7 : number := S754_finite false 6305039478318694 (-53).
Definition num_0_8 : number := S754_finite false 7205759403792794 (-53).

Definition isNaN (x : number) : bool :=
  match x with S754_nan => true | _ => false end.

Definition isFinite (x : number) : bool :=
  match x with S754_zero _ | S754_finite _ _ _ => true | _ => false end.

(** [x === 0] on numbers: true of both zeros, false of NaN. *)
Definition is_zero (x : number) : bool := num_eqb x num_zero.

(** The integer part of a finite number towards minus infinity. *)
Definition floorZ (x : number) : Z :=
  match x with
  | S754_finite s m e =>
      let v := cond_Zopp s (Zpos m) in
      if 0 <=? e then Z.shiftl v e else Z.shiftr v (- e)
  | _ => 0
  end.

(** [Math.floor]. *)
Definition Math_floor (x : number) : number :=
  match x with
  | S754_finite _ _ e => if 0 <=? e then x else num_of_Z (floorZ x)
  | _ => x
  end.

(** [Math.round]: the nearest integer, halves towards plus infinity. *)
Definition roundZ (x : number) : Z :=
  match x with
  | S754_finite s m e =>
      let v := cond_Zopp s (Zpos m) in
      if 0 <=? e then Z.shiftl v e
      else Z.shiftr (v + Z.shiftl 1 (- e - 1)) (- e)
  | _ => 0
  end.

(** [Math.max(a, b)] for the two-argument calls of the code. *)
Definition Math_max (a b : number) : number :=
  if isNaN a || isNaN b then S754_nan
  else if num_ltb a b then b else a.

(** [BigInt(Math.floor(x))] and [BigInt(Math.round(x))]: the integer for
    a finite [x]; [BigInt] raises a RangeError on NaN and the infinities
    ([None]). *)
Definition BigInt_floor (x : number) : option Z :=
  if isFinite x then Some (floorZ x) else None.

Definition BigInt_round (x : number) : option Z :=
  if isFinite x then Some (roundZ x) else None.

(** [Number(b)] of a bigint. *)
Definition Number_of_bigint (b : Z) : number := num_of_Z b.

(** [n < x] for an array length [n] and a number [x].  A length is an
    integer below 2^32, exactly representable, and [<] compares the exact
    values of its operands; NaN compares false. *)
Definition int_ltb_num (n : Z) (x : number) : bool :=
  match x with
  | S754_zero _ => n <? 0
  | S754_infinity s => negb s
  | S754_nan => false
  | S754_finite s m e =>
      let v := cond_Zopp s (Zpos m) in
      if 0 <=? e then n <? Z.shiftl v e
      else Z.shiftl n (- e) <? v
  end.

(** ** Strings *)

Definition upper_ascii (c : ascii) : ascii :=
  let n := nat_of_ascii c in
  if (97 <=? n)%nat && (n <=? 122)%nat then ascii_of_nat (n - 32) else c.

Fixpoint toUpperCase (s : string) : string :=
  match s with
  | EmptyString => EmptyString
  | String c r => String (upper_ascii c) (toUpperCase r)
  end.

Definition is_space (c : ascii) : bool :=
  let n := nat_of_ascii c in
  ((9 <=? n)%nat && (n <=? 13)%nat) || (n =? 32)%nat.

Fixpoint trimStart (s : string) : string :=
  match s with
  | EmptyString => EmptyString
  | String c r => if is_space c then trimStart r else s
  end.

Fixpoint trimEnd (s : string) : string :=
  match s with
  | EmptyString => EmptyString
  | String c r =>
      match trimEnd r with
      | EmptyString => if is_space c then EmptyString else String c EmptyString
      | r' => String c r'
      end
  end.

Definition trim (s : string) : string := trimEnd (trimStart s).

(** [xs.join(sep)]. *)
Fixpoint join (sep : string) (xs : list string) : string :=
  match xs with
  | [] => ""
  | [x] => x
  | x :: r => (x ++ sep ++ join sep r)%string
  end.

(** ** Values of unknown shape

    What a field of a parsed JSON payload can hold at run time.  An object
    or array carries the one thing the code asks of it, the result of
    [Number(...)] applied to it. *)
Inductive JSValue : Type :=
  | JUndefined
  | JNull
  | JBool (b : bool)
  | JNumber (n : number)
  | JString (s : string)
  | JObject (asNumber : number).

(** Truthiness, for [!value]. *)
Definition truthy (v : JSValue) : bool :=
  match v with
  | JUndefined | JNull => false
  | JBool b => b
  | JNumber n => negb (isNaN n || is_zero n)
  | JString s => negb (s =? "")%string
  | JObject _ => true
  end.

(** ** Exceptions and results *)

Inductive Exn : Type :=
  | StockServiceError (message code : string) (symbol : option string)
  | DataFetcherError (message code : string) (statusCode : option Z)
  | FundamentalFetcherError (message code : string) (statusCode : option Z)
  | OtherError (message : string).

(** [error instanceof Error ? error.message : String(error)]; every value
    thrown in the modelled code is an [Error]. *)
Definition getErrorMessage (e : Exn) : string :=
  match e with
  | StockServiceError m _ _ => m
  | DataFetcherError m _ _ => m
  | FundamentalFetcherError m _ _ => m
  | OtherError m => m
  end.

Inductive Outcome (A : Type) : Type :=
  | Return (a : A)
  | Throw (e : Exn).
Arguments Return {A} a.
Arguments Throw {A} e.

(** ** Dates *)

Definition MS_PER_DAY : Z := 1000 * 60 * 60 * 24.

(** A [Date] that may be invalid. *)
Definition JSDate : Type := option Z.

(** The functions of the run-time environment the code calls and this
    repository does not define: [date-fns], the string case of [Number],
    and the local-time getters of [Date]. *)
Record Runtime : Type := {
  (** [parseISO(v)]: an Invalid Date for text that is not a date; for a
      value that is not a string, an Invalid Date or a TypeError,
      depending on the library version. *)
  parseISO : JSValue -> Outcome JSDate;
  (** [Number(s)] of a string. *)
  stringToNumber : string -> number;
  startOfYear : Z -> Z;
  subDays : Z -> Z -> Z;
  subYears : Z -> Z -> Z;
  (** [Date.UTC(d.getFullYear(), d.getMonth(), d.getDate())]. *)
  localDateAsUTC : Z -> Z;
  (** [format(d, 'yyyy-MM-dd')]. *)
  formatDate : Z -> string;
  (** [process.env.FMP_API_KEY || '']. *)
  FMP_API_KEY : string
}.

(** [Number(v)]. *)
Definition Number_of (rt : Runtime) (v : JSValue) : number :=
  match v with
  | JUndefined => S754_nan
  | JNull => num_zero
  | JBool b => if b then num_one else num_zero
  | JNumber n => n
  | JString s => stringToNumber rt s
  | JObject n => n
  end.

(* ====================================================================== *)
(** * Data model                                                           *)
(* ====================================================================== *)

(** A Prisma [Decimal] read from a [DECIMAL(p, s)] column: [dec_units]
    counts units of [10^-dec_scale]. *)
Record Decimal : Type := {
  dec_units : Z;
  dec_scale : Z
}.

(** [decimal.toNumber()]: the nearest number. *)
Definition decimalToNumber (d : Decimal) : number :=
  num_div (num_of_Z (dec_units d)) (num_of_Z (10 ^ dec_scale d)).

(** A row of [stock_prices] as Prisma returns it.  The [date] column has
    type [DATE]: [p_day] is its day number, and the [Date] object Prisma
    hands out is midnight UTC of that day. *)
Record PrismaStockPrice : Type := {
  p_symbol : string;
  p_day : Z;
  p_open : Decimal;
  p_high : Decimal;
  p_low : Decimal;
  p_close : Decimal;
  p_volume : Z;
  p_change : Decimal;
  p_changePercent : Decimal;
  p_vwap : Decimal
}.

Definition p_date (r : PrismaStockPrice) : Z := p_day r * MS_PER_DAY.

Record StockPriceData : Type := {
  sp_date : Z;
  sp_open : number;
  sp_high : number;
  sp_low : number;
  sp_close : number;
  sp_volume : Z;
  sp_change : number;
  sp_changePercent : number;
  sp_vwap : number
}.

Record RatioData : Type := {
  rd_date : Z;
  rd_ratio : number;
  rd_symbol1Price : number;
  rd_symbol2Price : number
}.

(** Raw historical price of the market data API, as parsed from JSON. *)
Record FMPHistoricalPrice : Type := {
  fmp_date : JSValue;
  fmp_open : JSValue;
  fmp_high : JSValue;
  fmp_low : JSValue;
  fmp_close : JSValue;
  fmp_volume : JSValue;
  fmp_change : JSValue;
  fmp_changePercent : JSValue;
  fmp_vwap : JSValue
}.

Record NormalizedPriceData : Type := {
  np_symbol : string;
  np_date : Z;
  np_open : number;
  np_high : number;
  np_low : number;
  np_close : number;
  np_volume : Z;
  np_change : number;
  np_changePercent : number;
  np_vwap : number
}.

Record SyncResult : Type := {
  sr_symbol : string;
  sr_recordsFetched : Z;
  sr_recordsSaved : Z;
  sr_dateRange : option JSDate * option JSDate;
  sr_errors : list string
}.

(** ** Timeframes *)

Definition VALID_TIMEFRAMES : list string := ["5Y"; "1Y"; "YTD"; "1M"; "1W"].

Definition MIN_TRADING_DAYS (tf : string) : option number :=
  if (tf =? "5Y")%string then Some (num_of_Z 1000)
  else if (tf =? "1Y")%string then Some (num_of_Z 200)
  else if (tf =? "YTD")%string then Some (num_of_Z 1)
  else if (tf =? "1M")%string then Some (num_of_Z 15)
  else if (tf =? "1W")%string then Some (num_of_Z 3)
  else None.

(** [VALID_TIMEFRAMES.includes(timeframe.toUpperCase())]. *)
Definition isValidTimeframe (timeframe : string) : bool :=
  existsb (String.eqb (toUpperCase timeframe)) VALID_TIMEFRAMES.

(** The closed enum of the specification. *)
Inductive Timeframe : Type := TF_5Y | TF_1Y | TF_YTD | TF_1M | TF_1W.

Definition timeframe_string (tf : Timeframe) : string :=
  match tf with
  | TF_5Y => "5Y" | TF_1Y => "1Y" | TF_YTD => "YTD"
  | TF_1M => "1M" | TF_1W => "1W"
  end.

(* ====================================================================== *)
(** * CacheService                                                         *)
(* ====================================================================== *)

(** TTL values in seconds for each timeframe. *)
Definition TIMEFRAME_TTL (tf : string) : option Z :=
  if (tf =? "5Y")%string then Some (24 * 60 * 60)
  else if (tf =? "1Y")%string then Some (12 * 60 * 60)
  else if (tf =? "YTD")%string then Some (6 * 60 * 60)
  else if (tf =? "1M")%string then Some (3 * 60 * 60)
  else if (tf =? "1W")%string then Some (1 * 60 * 60)
  else None.

(** The configuration fields of a [CacheService] instance. *)
Record CacheService : Type := {
  cs_enabled : bool;
  cs_defaultTTL : Z
}.

(** [TIMEFRAME_TTL[tf] ?? this.defaultTTL]. *)
Definition getTTLForTimeframe (cs : CacheService) (timeframe : string) : Z :=
  let tf := toUpperCase timeframe in
  match TIMEFRAME_TTL tf with
  | Some ttl => ttl
  | None => cs_defaultTTL cs
  end.

Definition buildStockHistoryKey (symbol timeframe : string) : string :=
  ("stock:history:" ++ toUpperCase symbol ++ ":" ++ timeframe)%string.

Definition buildPriceRatioKey (symbol1 symbol2 timeframe : string) : string :=
  ("stock:ratio:" ++ toUpperCase symbol1 ++ ":" ++ toUpperCase symbol2
     ++ ":" ++ timeframe)%string.

(* ====================================================================== *)
(** * The world the services run in                                        *)
(* ====================================================================== *)

(** What [axios.get] does with a request. *)
Inductive ResponseData : Type :=
  | RespFalsy                                   (* null, empty body *)
  | RespArray (items : list FMPHistoricalPrice)  (* stable API: flat array *)
  | RespHistorical (items : list FMPHistoricalPrice) (* v3: { historical } *)
  | RespErrorMessage                             (* { 'Error Message': .. } *)
  | RespOtherObject
  | RespPrimitive (typeError : string).          (* [in] raises on it *)

Inductive AxiosOutcome : Type :=
  | AxiosResponse (data : ResponseData)
  | AxiosError (status : option Z) (code : option string) (message : string)
  | NonAxiosError (message : string).

(** A value under a Redis key, with the expiry it was set with. *)
Record CacheEntry (A : Type) : Type := {
  ce_value : A;
  ce_ttl : option Z
}.
Arguments ce_value {A} _.
Arguments ce_ttl {A} _.

(** The collaborators, as the sequence of their reactions: the [n]-th
    request to the market data API, the [n]-th database operation (a
    message when it fails), the [n]-th cache operation (whether Redis is
    connected and answers), the [n]-th reading of the clock. *)
Record Collaborators : Type := {
  api : nat -> string -> AxiosOutcome;
  dbFault : nat -> option string;
  cacheUp : nat -> bool;
  clock : nat -> Z;
  (** How the database stores a number in a [DECIMAL] column of the given
      scale. *)
  storeDecimal : Z -> number -> Decimal
}.

(** Keys of the two families, [stock:history:...] and [stock:ratio:...],
    never coincide, so each family is a map of its own.  A cached value is
    JSON text; it is represented by the records it parses and rehydrates
    to. *)
Record World : Type := {
  stock_prices : list PrismaStockPrice;
  historyCache : string -> option (CacheEntry (list StockPriceData));
  ratioCache : string -> option (CacheEntry (list RatioData));
  cache : CacheService;
  env : Collaborators;
  apiCalls : nat;
  dbOps : nat;
  cacheOps : nat;
  clockReads : nat
}.

Definition set_stock_prices (t : list PrismaStockPrice) (w : World) : World :=
  {| stock_prices := t; historyCache := historyCache w;
     ratioCache := ratioCache w; cache := cache w; env := env w;
     apiCalls := apiCalls w; dbOps := dbOps w; cacheOps := cacheOps w;
     clockReads := clockReads w |}.

Definition set_historyCache
    (h : string -> option (CacheEntry (list StockPriceData))) (w : World) : World :=
  {| stock_prices := stock_prices w; historyCache := h;
     ratioCache := ratioCache w; cache := cache w; env := env w;
     apiCalls := apiCalls w; dbOps := dbOps w; cacheOps := cacheOps w;
     clockReads := clockReads w |}.

Definition set_ratioCache
    (r : string -> option (CacheEntry (list RatioData))) (w : World) : World :=
  {| stock_prices := stock_prices w; historyCache := historyCache w;
     ratioCache := r; cache := cache w; env := env w;
     apiCalls := apiCalls w; dbOps := dbOps w; cacheOps := cacheOps w;
     clockReads := clockReads w |}.

Definition tick_api (w : World) : World :=
  {| stock_prices := stock_prices w; historyCache := historyCache w;
     ratioCache := ratioCache w; cache := cache w; env := env w;
     apiCalls := S (apiCalls w); dbOps := dbOps w; cacheOps := cacheOps w;
     clockReads := clockReads w |}.

Definition tick_db (w : World) : World :=
  {| stock_prices := stock_prices w; historyCache := historyCache w;
     ratioCache := ratioCache w; cache := cache w; env := env w;
     apiCalls := apiCalls w; dbOps := S (dbOps w); cacheOps := cacheOps w;
     clockReads := clockReads w |}.

Definition tick_cache (w : World) : World :=
  {| stock_prices := stock_prices w; historyCache := historyCache w;
     ratioCache := ratioCache w; cache := cache w; env := env w;
     apiCalls := apiCalls w; dbOps := dbOps w; cacheOps := S (cacheOps w);
     clockReads := clockReads w |}.

Definition tick_clock (w : World) : World :=
  {| stock_prices := stock_prices w; historyCache := historyCache w;
     ratioCache := ratioCache w; cache := cache w; env := env w;
     apiCalls := apiCalls w; dbOps := dbOps w; cacheOps := cacheOps w;
     clockReads := S (clockReads w) |}.

(** ** The monad of asynchronous methods *)

Definition M (A : Type) : Type := World -> Outcome A * World.

Definition ret {A} (a : A) : M A := fun w => (Return a, w).

Definition throw {A} (e : Exn) : M A := fun w => (Throw e, w).

Definition bind {A B} (m : M A) (k : A -> M B) : M B :=
  fun w =>
    match m w with
    | (Return a, w') => k a w'
    | (Throw e, w') => (Throw e, w')
    end.

(** [try { m } catch (error) { h error }]. *)
Definition tryCatch {A} (m : M A) (h : Exn -> M A) : M A :=
  fun w =>
    match m w with
    | (Return a, w') => (Return a, w')
    | (Throw e, w') => h e w'
    end.

Declare Scope monad_scope.
Delimit Scope monad_scope with monad.
Notation "x <- m ;; k" := (bind m (fun x => k))
  (at level 61, m at next level, right associativity) : monad_scope.
Notation "m ;;; k" := (bind m (fun _ => k))
  (at level 61, right associativity) : monad_scope.
Open Scope monad_scope.

(** [new Date()]. *)
Definition newDate : M Z :=
  fun w => (Return (clock (env w) (clockReads w)), tick_clock w).

(** Function update, for the key-value store. *)
Definition update {A} (m : string -> option A) (k : string) (v : A)
  : string -> option A :=
  fun k' => if (k =? k')%string then Some v else m k'.

(* ====================================================================== *)
(** * CacheService: operations                                             *)
(* ====================================================================== *)

(** [isAvailable()], and whether Redis then answers the command; a command
    that fails is caught inside [get] and [set]. *)
Definition isAvailable (w : World) : bool :=
  cs_enabled (cache w) && cacheUp (env w) (cacheOps w).

(** The entry stored by [set(key, value, ttlSeconds)]: [setEx] when the
    TTL is positive, a plain [set] otherwise. *)
Definition entry_for {A} (value : A) (ttl : Z) : CacheEntry A :=
  {| ce_value := value; ce_ttl := if 0 <? ttl then Some ttl else None |}.

Definition getStockHistory (symbol timeframe : string)
  : M (option (list StockPriceData)) :=
  fun w =>
    let key := buildStockHistoryKey symbol timeframe in
    if isAvailable w
    then (Return (option_map ce_value (historyCache w key)), tick_cache w)
    else (Return None, tick_cache w).

Definition setStockHistory (symbol timeframe : string)
    (data : list StockPriceData) : M unit :=
  fun w =>
    let key := buildStockHistoryKey symbol timeframe in
    let ttl := getTTLForTimeframe (cache w) timeframe in
    if isAvailable w
    then (Return tt,
          tick_cache (set_historyCache
                        (update (historyCache w) key (entry_for data ttl)) w))
    else (Return tt, tick_cache w).

Definition cache_getPriceRatio (symbol1 symbol2 timeframe : string)
  : M (option (list RatioData)) :=
  fun w =>
    let key := buildPriceRatioKey symbol1 symbol2 timeframe in
    if isAvailable w
    then (Return (option_map ce_value (ratioCache w key)), tick_cache w)
    else (Return None, tick_cache w).

Definition setPriceRatio (symbol1 symbol2 timeframe : string)
    (data : list RatioData) : M unit :=
  fun w =>
    let key := buildPriceRatioKey symbol1 symbol2 timeframe in
    let ttl := getTTLForTimeframe (cache w) timeframe in
    if isAvailable w
    then (Return tt,
          tick_cache (set_ratioCache
                        (update (ratioCache w) key (entry_for data ttl)) w))
    else (Return tt, tick_cache w).

(* ====================================================================== *)
(** * DataFetcher                                                          *)
(* ====================================================================== *)

Section DataFetcher.

Context (rt : Runtime).

Definition batchSize : nat := 100.

(** [validateNumber(value, defaultValue)]. *)
Definition validateNumber (value : JSValue) (defaultValue : number) : number :=
  match value with
  | JNull | JUndefined => defaultValue
  | _ => let num := Number_of rt value in
         if isNaN num then defaultValue else num
  end.

(** One turn of the loop of [validateAndNormalize]: the normalized record,
    or [None] when the record is skipped, by a [continue] or by the
    [catch] around the body. *)
Definition normalizeRecord (symbol : string) (record : FMPHistoricalPrice)
  : option NormalizedPriceData :=
  if negb (truthy (fmp_date record)) then None
  else
    match parseISO rt (fmp_date record) with
    | Throw _ => None
    | Return None => None
    | Return (Some date) =>
        let open := validateNumber (fmp_open record) num_zero in
        let high := validateNumber (fmp_high record) num_zero in
        let low := validateNumber (fmp_low record) num_zero in
        let close := validateNumber (fmp_close record) num_zero in
        match BigInt_floor (validateNumber (fmp_volume record) num_zero) with
        | None => None
        | Some volume =>
            let change := validateNumber (fmp_change record) num_zero in
            let changePercent :=
              validateNumber (fmp_changePercent record) num_zero in
            let vwap := validateNumber (fmp_vwap record) num_zero in
            if is_zero open && is_zero high && is_zero low && is_zero close
            then None
            else Some {| np_symbol := symbol; np_date := date;
                         np_open := open; np_high := high; np_low := low;
                         np_close := close; np_volume := volume;
                         np_change := change;
                         np_changePercent := changePercent;
                         np_vwap := vwap |}
        end
    end.

Fixpoint validateAndNormalize (symbol : string)
    (data : list FMPHistoricalPrice) : list NormalizedPriceData :=
  match data with
  | [] => []
  | record :: rest =>
      match normalizeRecord symbol record with
      | Some normalizedRecord =>
          normalizedRecord :: validateAndNormalize symbol rest
      | None => validateAndNormalize symbol rest
      end
  end.

(** [fetchHistoricalData]: the [catch] clause, which turns what the
    request raised into a [DataFetcherError]. *)
Definition classifyFetchError (status : option Z) (code : option string)
    (message : string) : Exn :=
  if match status with Some s => s =? 429 | None => false end
  then DataFetcherError
         "API rate limit exceeded. FMP free tier allows 250 calls/day."
         "RATE_LIMIT" (Some 429)
  else if match status with
          | Some s => (s =? 401) || (s =? 403) | None => false end
  then DataFetcherError "Invalid API key or unauthorized access"
         "AUTH_ERROR" status
  else if match code with
          | Some c => (c =? "ECONNREFUSED")%string || (c =? "ENOTFOUND")%string
          | None => false end
  then DataFetcherError
         "Unable to connect to FMP API. Check your network connection."
         "NETWORK_ERROR" None
  else if match code with
          | Some c => (c =? "ECONNABORTED")%string | None => false end
  then DataFetcherError
         "Request timed out while fetching data from FMP API"
         "TIMEOUT" None
  else DataFetcherError ("API request failed: " ++ message)%string
         "API_ERROR" status.

(** The URL of the request for the history of a symbol. *)
Definition historicalUrl (normalizedSymbol : string) (from to : option Z)
  : string :=
  ("https://financialmodelingprep.com/stable"
     ++ "/historical-price-eod/full?symbol=" ++ normalizedSymbol
     ++ "&apikey=" ++ FMP_API_KEY rt
     ++ match from with
        | Some d => "&from=" ++ formatDate rt d | None => "" end
     ++ match to with
        | Some d => "&to=" ++ formatDate rt d | None => "" end)%string.

Definition fetchHistoricalData (symbol : string) (from to : option Z)
  : M (list FMPHistoricalPrice) :=
  let normalizedSymbol := trim (toUpperCase symbol) in
  if (normalizedSymbol =? "")%string
  then throw (DataFetcherError "Symbol is required" "INVALID_SYMBOL" None)
  else if (FMP_API_KEY rt =? "")%string
  then throw (DataFetcherError "FMP API key not configured" "NO_API_KEY" None)
  else
    let url := historicalUrl normalizedSymbol from to in
    fun w =>
      let w' := tick_api w in
      match api (env w) (apiCalls w) url with
      | AxiosResponse RespFalsy =>
          (Throw (DataFetcherError
                    ("No data returned for symbol: " ++ normalizedSymbol)
                    "EMPTY_RESPONSE" None), w')
      | AxiosResponse (RespArray historicalData) =>
          (Return historicalData, w')
      | AxiosResponse (RespHistorical historicalData) =>
          (Return historicalData, w')
      | AxiosResponse RespErrorMessage =>
          (Throw (DataFetcherError
                    ("Invalid symbol or no historical data: "
                       ++ normalizedSymbol)
                    "INVALID_SYMBOL" None), w')
      | AxiosResponse RespOtherObject =>
          (Throw (DataFetcherError
                    ("Unexpected API response format for: "
                       ++ normalizedSymbol)
                    "INVALID_RESPONSE" None), w')
      | AxiosResponse (RespPrimitive message) =>
          (Throw (DataFetcherError ("Unexpected error: " ++ message)
                    "UNKNOWN_ERROR" None), w')
      | AxiosError status code message =>
          (Throw (classifyFetchError status code message), w')
      | NonAxiosError message =>
          (Throw (DataFetcherError ("Unexpected error: " ++ message)
                    "UNKNOWN_ERROR" None), w')
      end.

(** ** Writing to the table *)

(** The row an upsert writes for a record: the [DATE] column keeps the UTC
    day of the timestamp, the [DECIMAL(12,4)] and [DECIMAL(12,6)] columns
    what the database makes of the numbers. *)
Definition toRow (c : Collaborators) (record : NormalizedPriceData)
  : PrismaStockPrice :=
  {| p_symbol := np_symbol record;
     p_day := np_date record / MS_PER_DAY;
     p_open := storeDecimal c 4 (np_open record);
     p_high := storeDecimal c 4 (np_high record);
     p_low := storeDecimal c 4 (np_low record);
     p_close := storeDecimal c 4 (np_close record);
     p_volume := np_volume record;
     p_change := storeDecimal c 4 (np_change record);
     p_changePercent := storeDecimal c 6 (np_changePercent record);
     p_vwap := storeDecimal c 4 (np_vwap record) |}.

Definition sameKey (a b : PrismaStockPrice) : bool :=
  (p_symbol a =? p_symbol b)%string && (p_day a =? p_day b).

(** [stockPrice.upsert] on the unique key [(symbol, date)]: the row with
    the key is overwritten where it stands, a new key is added. *)
Fixpoint upsert (row : PrismaStockPrice) (table : list PrismaStockPrice)
  : list PrismaStockPrice :=
  match table with
  | [] => [row]
  | r :: rest => if sameKey row r then row :: rest else r :: upsert row rest
  end.

Definition upsertAll (c : Collaborators) (batch : list NormalizedPriceData)
    (table : list PrismaStockPrice) : list PrismaStockPrice :=
  fold_left (fun t record => upsert (toRow c record) t) batch table.

(** [prisma.$transaction(batch.map(upsert))]: all the upserts of the batch
    or, when the database fails, none. *)
Definition transaction (batch : list NormalizedPriceData) : M unit :=
  fun w =>
    match dbFault (env w) (dbOps w) with
    | Some message => (Throw (OtherError message), tick_db w)
    | None =>
        (Return tt,
         tick_db (set_stock_prices
                    (upsertAll (env w) batch (stock_prices w)) w))
    end.

(** [array.slice(i, j)]. *)
Definition slice {A} (l : list A) (i j : nat) : list A :=
  firstn (j - i) (skipn i l).

(** The batch loop of [saveToDatabase], [for (i = 0; i < length; i +=
    batchSize)], from index [i] with [savedCount] records saved so far.
    [fuel] bounds the number of turns. *)
Fixpoint saveBatches (fuel : nat) (validatedData : list NormalizedPriceData)
    (i : nat) (savedCount : Z) : M Z :=
  match fuel with
  | O => ret savedCount
  | S fuel' =>
      if (i <? List.length validatedData)%nat then
        let batch := slice validatedData i (i + batchSize) in
        tryCatch (transaction batch)
          (fun error =>
             throw (DataFetcherError
                      ("Database error while saving data: "
                         ++ getErrorMessage error)
                      "DATABASE_ERROR" None)) ;;;
        saveBatches fuel' validatedData (i + batchSize)
          (savedCount + Z.of_nat (List.length batch))
      else ret savedCount
  end.

Definition saveToDatabase (symbol : string) (data : list FMPHistoricalPrice)
  : M Z :=
  let normalizedSymbol := trim (toUpperCase symbol) in
  match data with
  | [] => ret 0
  | _ =>
      let validatedData := validateAndNormalize normalizedSymbol data in
      match validatedData with
      | [] => ret 0
      | _ => saveBatches (List.length validatedData) validatedData 0 0
      end
  end.

(** [dates.map(d => parseISO(d.date))], which stops at the first call that
    raises. *)
Fixpoint parseDates (data : list FMPHistoricalPrice) : Outcome (list JSDate) :=
  match data with
  | [] => Return []
  | d :: rest =>
      match parseISO rt (fmp_date d) with
      | Throw e => Throw e
      | Return date =>
          match parseDates rest with
          | Throw e => Throw e
          | Return dates => Return (date :: dates)
          end
      end
  end.

(** [new Date(Math.min(...times))] and [new Date(Math.max(...times))] of a
    non-empty list: invalid as soon as one date is. *)
Fixpoint extremeDate (pick : Z -> Z -> Z) (dates : list JSDate) : JSDate :=
  match dates with
  | [] => None
  | [d] => d
  | d :: rest =>
      match d, extremeDate pick rest with
      | Some a, Some b => Some (pick a b)
      | _, _ => None
      end
  end.

(** Run a computation and hand back how it ended. *)
Definition attempt {A} (m : M A) : M (Outcome A) :=
  fun w => let (o, w') := m w in (Return o, w').

(** [syncStock]: the [result] object is filled in as the [try] block
    advances, and keeps what it had when the block is left by an
    exception. *)
Definition syncStock (symbol : string) (from to : option Z) : M SyncResult :=
  let normalizedSymbol := trim (toUpperCase symbol) in
  let result fetched saved range errors :=
    {| sr_symbol := normalizedSymbol; sr_recordsFetched := fetched;
       sr_recordsSaved := saved; sr_dateRange := range;
       sr_errors := errors |} in
  fetched <- attempt (fetchHistoricalData normalizedSymbol from to) ;;
  match fetched with
  | Throw error => ret (result 0 0 (None, None) [getErrorMessage error])
  | Return historicalData =>
      let n := Z.of_nat (List.length historicalData) in
      match historicalData with
      | [] => ret (result n 0 (None, None) [])
      | _ =>
          match parseDates historicalData with
          | Throw error =>
              ret (result n 0 (None, None) [getErrorMessage error])
          | Return dates =>
              let range := (Some (extremeDate Z.min dates),
                            Some (extremeDate Z.max dates)) in
              saved <- attempt (saveToDatabase normalizedSymbol historicalData) ;;
              match saved with
              | Throw error => ret (result n 0 range [getErrorMessage error])
              | Return recordsSaved => ret (result n recordsSaved range [])
              end
          end
      end
  end.

End DataFetcher.

(* ====================================================================== *)
(** * StockService                                                         *)
(* ====================================================================== *)

(** ** Sorting and keyed maps *)

(** [array.sort((a, b) => key(a) - key(b))]: the stable ascending sort. *)
Fixpoint insert_sorted {A} (key : A -> Z) (x : A) (l : list A) : list A :=
  match l with
  | [] => [x]
  | y :: rest =>
      if key x <=? key y then x :: y :: rest
      else y :: insert_sorted key x rest
  end.

Fixpoint sort_by {A} (key : A -> Z) (l : list A) : list A :=
  match l with
  | [] => []
  | x :: rest => insert_sorted key x (sort_by key rest)
  end.

(** A [Map], in insertion order: [set] on a key already present replaces
    the value where the key stands, a new key goes to the end. *)
Fixpoint map_set {V} (k : Z) (v : V) (m : list (Z * V)) : list (Z * V) :=
  match m with
  | [] => [(k, v)]
  | (k', v') :: rest =>
      if k' =? k then (k, v) :: rest else (k', v') :: map_set k v rest
  end.

Fixpoint map_get {V} (k : Z) (m : list (Z * V)) : option V :=
  match m with
  | [] => None
  | (k', v') :: rest => if k' =? k then Some v' else map_get k rest
  end.

Definition map_values {V} (m : list (Z * V)) : list V := map snd m.

(** [date.toISOString().split('T')[0]]: the text [YYYY-MM-DD] of the UTC
    day of the date.  The text names the day, and two dates have the same
    text exactly when they fall on the same UTC day, so the key is kept as
    the day number. *)
Definition getDateKey (date : Z) : Z := date / MS_PER_DAY.

Section StockService.

Context (rt : Runtime).

Definition calculateDateRange (timeframe : string) : M (Z * Z) :=
  now <- newDate ;;
  let today := localDateAsUTC rt now in
  let tf := toUpperCase timeframe in
  let from :=
    if (tf =? "5Y")%string then subYears rt today 5
    else if (tf =? "1Y")%string then subDays rt today 365
    else if (tf =? "YTD")%string then startOfYear rt today
    else if (tf =? "1M")%string then subDays rt today 30
    else if (tf =? "1W")%string then subDays rt today 7
    else subDays rt today 365 in
  ret (from, today).

(** The latest date of a non-empty array, by [reduce]. *)
Definition latestDate (existingData : list PrismaStockPrice) : Z :=
  fold_left (fun max item => if max <? p_date item then p_date item else max)
    existingData
    (match existingData with item :: _ => p_date item | [] => 0 end).

(** [needsDataRefresh].  The quotients of millisecond differences by the
    length of a day are exact in the range of [Date], and are taken in
    [Z]. *)
Definition needsDataRefresh (symbol timeframe : string)
    (existingData : list PrismaStockPrice) : M bool :=
  let tf := toUpperCase timeframe in
  let count := Z.of_nat (List.length existingData) in
  match existingData with
  | [] => ret true
  | _ =>
      let minDays :=
        match MIN_TRADING_DAYS tf with Some n => n | None => num_one end in
      tooFew <-
        (if (tf =? "YTD")%string then
           now <- newDate ;;
           let startOfYr := startOfYear rt now in
           let daysSinceYearStart := (now - startOfYr) / MS_PER_DAY in
           let expectedTradingDays :=
             Math_floor (num_mul (num_of_Z daysSinceYearStart) num_0_7) in
           ret (int_ltb_num count
                  (Math_max num_one (num_mul expectedTradingDays num_0_8)))
         else ret (int_ltb_num count (num_mul minDays num_0_8))) ;;
      if (tooFew : bool) then ret true
      else
        now <- newDate ;;
        let daysSinceLatest := (now - latestDate existingData) / MS_PER_DAY in
        ret (3 <? daysSinceLatest)
  end.

Definition convertPrismaToStockPriceData (prismaData : list PrismaStockPrice)
  : list StockPriceData :=
  map (fun item =>
         {| sp_date := p_date item;
            sp_open := decimalToNumber (p_open item);
            sp_high := decimalToNumber (p_high item);
            sp_low := decimalToNumber (p_low item);
            sp_close := decimalToNumber (p_close item);
            sp_volume := p_volume item;
            sp_change := decimalToNumber (p_change item);
            sp_changePercent := decimalToNumber (p_changePercent item);
            sp_vwap := decimalToNumber (p_vwap item) |})
      prismaData.

(** [mergeAndDeduplicate]. *)
Definition mergeAndDeduplicate (oldData newData : list StockPriceData)
  : list StockPriceData :=
  let dateMap := [] in
  let dateMap :=
    fold_left (fun m item => map_set (getDateKey (sp_date item)) item m)
      oldData dateMap in
  let dateMap :=
    fold_left (fun m item => map_set (getDateKey (sp_date item)) item m)
      newData dateMap in
  let merged := map_values dateMap in
  sort_by sp_date merged.

(** [findMany] on [symbol] and the window, ordered by date ascending. *)
Definition queryDatabase (symbol : string) (from to : Z)
  : M (list PrismaStockPrice) :=
  fun w =>
    match dbFault (env w) (dbOps w) with
    | Some message =>
        (Throw (StockServiceError ("Database query failed: " ++ message)
                  "DATABASE_ERROR" (Some symbol)), tick_db w)
    | None =>
        (Return
           (sort_by p_day
              (filter (fun r => (p_symbol r =? symbol)%string
                                && (from <=? p_date r) && (p_date r <=? to))
                 (stock_prices w))),
         tick_db w)
    end.

(** The cache holds JSON text; on the records that stand for it the
    conversions of dates and volumes to text and back are the identity. *)
Definition rehydrateDates {T} (data : list T) : list T :=
  map (fun item => item) data.

Definition prepareForCache (data : list StockPriceData) : list StockPriceData :=
  map (fun item => item) data.

(** Layers 2 and 3 of [getHistoricalData], after a cache miss: the table,
    a sync when the stored data needs a refresh, and the cache write. *)
Definition historyFromStore (normalizedSymbol normalizedTimeframe : string)
  : M (list StockPriceData) :=
  range <- calculateDateRange normalizedTimeframe ;;
  let (from, to) := (range : Z * Z) in
  dbData <- queryDatabase normalizedSymbol from to ;;
  refresh <- needsDataRefresh normalizedSymbol normalizedTimeframe dbData ;;
  dbData <-
    (if (refresh : bool) then
       tryCatch
         (syncResult <- syncStock rt normalizedSymbol (Some from) (Some to) ;;
          match sr_errors syncResult with
          | [] =>
              if 0 <? sr_recordsSaved syncResult
              then queryDatabase normalizedSymbol from to
              else ret dbData
          | _ => ret dbData
          end)
         (fun _ => ret dbData)
     else ret dbData) ;;
  let result := convertPrismaToStockPriceData dbData in
  match result with
  | [] => ret tt
  | _ => setStockHistory normalizedSymbol normalizedTimeframe
           (prepareForCache result)
  end ;;;
  ret result.

Definition getHistoricalData (symbol timeframe : string)
  : M (list StockPriceData) :=
  let normalizedSymbol := trim (toUpperCase symbol) in
  let normalizedTimeframe := toUpperCase timeframe in
  if negb (isValidTimeframe normalizedTimeframe) then
    throw (StockServiceError
             ("Invalid timeframe: " ++ timeframe ++ ". Valid values: "
                ++ join ", " VALID_TIMEFRAMES)
             "INVALID_TIMEFRAME" (Some normalizedSymbol))
  else
    cached <- getStockHistory normalizedSymbol normalizedTimeframe ;;
    match cached with
    | Some ((_ :: _) as hit) => ret (rehydrateDates hit)
    | _ => historyFromStore normalizedSymbol normalizedTimeframe
    end.

(** The matching loop of [getPriceRatio]: the map of the second series by
    date key, then one point for each record of the first series whose
    key is in the map with a close that is not zero. *)
Definition calculateRatios (data1 data2 : list StockPriceData)
  : list RatioData :=
  let data2Map :=
    fold_left (fun m item => map_set (getDateKey (sp_date item)) item m)
      data2 [] in
  flat_map
    (fun item1 =>
       match map_get (getDateKey (sp_date item1)) data2Map with
       | Some item2 =>
           if negb (is_zero (sp_close item2))
           then [{| rd_date := sp_date item1;
                    rd_ratio := num_div (sp_close item1) (sp_close item2);
                    rd_symbol1Price := sp_close item1;
                    rd_symbol2Price := sp_close item2 |}]
           else []
       | None => []
       end)
    data1.

(** [getPriceRatio] after a cache miss.  The two reads of [Promise.all]
    are run one after the other; when both fail the error of the first is
    the one raised. *)
Definition ratioFromHistory (sym1 sym2 normalizedTimeframe : string)
  : M (list RatioData) :=
  r1 <- attempt (getHistoricalData sym1 normalizedTimeframe) ;;
  r2 <- attempt (getHistoricalData sym2 normalizedTimeframe) ;;
  match r1, r2 with
  | Throw error, _ => throw error
  | _, Throw error => throw error
  | Return data1, Return data2 =>
      match data1, data2 with
      | [], _ =>
          throw (StockServiceError
                   ("No data available for symbol: " ++ sym1)
                   "NO_DATA" (Some sym1))
      | _, [] =>
          throw (StockServiceError
                   ("No data available for symbol: " ++ sym2)
                   "NO_DATA" (Some sym2))
      | _, _ =>
          let ratios := sort_by rd_date (calculateRatios data1 data2) in
          match ratios with
          | [] => ret tt
          | _ => setPriceRatio sym1 sym2 normalizedTimeframe ratios
          end ;;;
          ret ratios
      end
  end.

Definition getPriceRatio (symbol1 symbol2 timeframe : string)
  : M (list RatioData) :=
  let sym1 := trim (toUpperCase symbol1) in
  let sym2 := trim (toUpperCase symbol2) in
  let normalizedTimeframe := toUpperCase timeframe in
  cached <- cache_getPriceRatio sym1 sym2 normalizedTimeframe ;;
  match cached with
  | Some ((_ :: _) as hit) => ret (rehydrateDates hit)
  | _ => ratioFromHistory sym1 sym2 normalizedTimeframe
  end.

End StockService.

(* ====================================================================== *)
(** * FundamentalFetcher                                                   *)
(* ====================================================================== *)

Record FMPKeyMetric : Type := {
  km_date : option string;
  km_peRatio : option number;
  km_priceToFreeCashFlowRatio : option number;
  km_freeCashFlow : option number;
  km_returnOnEquity : option number;
  km_debtToEquity : option number
}.

Record FMPIncomeStatement : Type := {
  inc_date : option string;
  inc_revenue : option number;
  inc_eps : option number;
  inc_epsDiluted : option number;
  inc_period : option string
}.

Record FundamentalRecord : Type := {
  fr_symbol : string;
  fr_date : Z;
  fr_peRatio : option number;
  fr_priceToFcf : option number;
  fr_fcf : option Z;
  fr_eps : option number;
  fr_revenue : option Z;
  fr_revenueGrowthYoy : option number;
  fr_roe : option number;
  fr_debtToEquity : option number;
  fr_period : option string
}.

(** A [Map] keyed by the date text. *)
Fixpoint smap_set {V} (k : string) (v : V) (m : list (string * V))
  : list (string * V) :=
  match m with
  | [] => [(k, v)]
  | (k', v') :: rest =>
      if (k' =? k)%string then (k, v) :: rest
      else (k', v') :: smap_set k v rest
  end.

Fixpoint smap_get {V} (k : string) (m : list (string * V)) : option V :=
  match m with
  | [] => None
  | (k', v') :: rest => if (k' =? k)%string then Some v' else smap_get k rest
  end.

(** [array.map((x, index) => f(x, index))]. *)
Fixpoint mapi_from {A B} (f : A -> nat -> B) (index : nat) (l : list A)
  : list B :=
  match l with
  | [] => []
  | x :: rest => f x index :: mapi_from f (S index) rest
  end.

Definition mapi {A B} (f : A -> nat -> B) (l : list A) : list B :=
  mapi_from f 0 l.

Section FundamentalFetcher.

Context (rt : Runtime).

(** The date of a raw record: [None] when the loop skips it, for a
    missing date, an invalid one, or a parser that raises. *)
Definition parsedDateOf (date : option string) : option Z :=
  match date with
  | None => None
  | Some text =>
      if (text =? "")%string then None
      else match parseISO rt (JString text) with
           | Return (Some parsedDate) => Some parsedDate
           | _ => None
           end
  end.

(** [x != null ? BigInt(Math.round(x)) : null], which raises on a number
    that is not finite. *)
Definition bigintOrNull (x : option number) : option (option Z) :=
  match x with
  | None => Some None
  | Some n => match BigInt_round n with
              | Some b => Some (Some b)
              | None => None
              end
  end.

Definition rangeError : Exn :=
  OtherError "The number cannot be converted to a BigInt because it is not an integer".

Definition orElse {A} (a b : option A) : option A :=
  match a with Some _ => a | None => b end.

(** The first loop of [mergeFundamentals]: key metrics joined with the
    income statement of the same date text. *)
Fixpoint fromKeyMetrics (symbol : string)
    (incomeMap : list (string * FMPIncomeStatement))
    (keyMetrics : list FMPKeyMetric) : Outcome (list FundamentalRecord) :=
  match keyMetrics with
  | [] => Return []
  | km :: rest =>
      match parsedDateOf (km_date km) with
      | None => fromKeyMetrics symbol incomeMap rest
      | Some parsedDate =>
          let income :=
            match km_date km with
            | Some text => smap_get text incomeMap
            | None => None
            end in
          match bigintOrNull
                  (match income with
                   | Some i => inc_revenue i | None => None end),
                bigintOrNull (km_freeCashFlow km) with
          | Some revenue, Some fcf =>
              let record :=
                {| fr_symbol := symbol; fr_date := parsedDate;
                   fr_peRatio := km_peRatio km;
                   fr_priceToFcf := km_priceToFreeCashFlowRatio km;
                   fr_fcf := fcf;
                   fr_eps :=
                     match income with
                     | Some i => orElse (inc_epsDiluted i) (inc_eps i)
                     | None => None
                     end;
                   fr_revenue := revenue;
                   fr_revenueGrowthYoy := None;
                   fr_roe := km_returnOnEquity km;
                   fr_debtToEquity := km_debtToEquity km;
                   fr_period :=
                     match income with
                     | Some i => inc_period i | None => None
                     end |} in
              match fromKeyMetrics symbol incomeMap rest with
              | Return records => Return (record :: records)
              | Throw e => Throw e
              end
          | _, _ => Throw rangeError
          end
      end
  end.

(** The second loop: records from income data alone. *)
Fixpoint fromIncome (symbol : string) (incomeData : list FMPIncomeStatement)
  : Outcome (list FundamentalRecord) :=
  match incomeData with
  | [] => Return []
  | inc :: rest =>
      match parsedDateOf (inc_date inc) with
      | None => fromIncome symbol rest
      | Some parsedDate =>
          match bigintOrNull (inc_revenue inc) with
          | Some revenue =>
              let record :=
                {| fr_symbol := symbol; fr_date := parsedDate;
                   fr_peRatio := None; fr_priceToFcf := None; fr_fcf := None;
                   fr_eps := orElse (inc_epsDiluted inc) (inc_eps inc);
                   fr_revenue := revenue;
                   fr_revenueGrowthYoy := None;
                   fr_roe := None; fr_debtToEquity := None;
                   fr_period := inc_period inc |} in
              match fromIncome symbol rest with
              | Return records => Return (record :: records)
              | Throw e => Throw e
              end
          | None => Throw rangeError
          end
      end
  end.

Definition mergeFundamentals (symbol : string)
    (keyMetrics : list FMPKeyMetric) (incomeData : list FMPIncomeStatement)
  : Outcome (list FundamentalRecord) :=
  let incomeMap :=
    fold_left
      (fun m item =>
         match inc_date item with
         | Some text => if (text =? "")%string then m else smap_set text item m
         | None => m
         end)
      incomeData [] in
  match fromKeyMetrics symbol incomeMap keyMetrics with
  | Throw e => Throw e
  | Return records =>
      match
        (match keyMetrics, incomeData with
         | [], _ :: _ => fromIncome symbol incomeData
         | _, _ => Return []
         end)
      with
      | Throw e => Throw e
      | Return more => Return (sort_by fr_date (records ++ more))
      end
  end.

End FundamentalFetcher.

(** [calculateRevenueGrowthYoy]. *)
Definition calculateRevenueGrowthYoy (records : list FundamentalRecord)
  : list FundamentalRecord :=
  mapi
    (fun record index =>
       if (index <? 4)%nat then record
       else
         match nth_error records (index - 4) with
         | None => record
         | Some prior =>
             match fr_revenue prior, fr_revenue record with
             | Some priorRevenue, Some revenue =>
                 if priorRevenue =? 0 then record
                 else
                   let current := Number_of_bigint revenue in
                   let previous := Number_of_bigint priorRevenue in
                   let growth :=
                     num_mul
                       (num_div (num_sub current previous) (num_abs previous))
                       num_100 in
                   {| fr_symbol := fr_symbol record;
                      fr_date := fr_date record;
                      fr_peRatio := fr_peRatio record;
                      fr_priceToFcf := fr_priceToFcf record;
                      fr_fcf := fr_fcf record;
                      fr_eps := fr_eps record;
                      fr_revenue := fr_revenue record;
                      fr_revenueGrowthYoy := Some growth;
                      fr_roe := fr_roe record;
                      fr_debtToEquity := fr_debtToEquity record;
                      fr_period := fr_period record |}
             | _, _ => record
             end
         end)
    records.

(* ====================================================================== *)
(** * The staleness heuristic in integers                                  *)
(* ====================================================================== *)

(** The expected number of trading days since the start of the year, as
    [needsDataRefresh] computes it: the integer part of the binary64
    product of the day count and [0.7]. *)
Definition ytdExpected (d : Z) : Z := floorZ (num_mul (num_of_Z d) num_0_7).







(** Order on records by a key, for sortedness. *)
Definition key_le {A} (key : A -> Z) (a b : A) : Prop := key a <= key b.
Definition key_lt {A} (key : A -> Z) (a b : A) : Prop := key a < key b.

(** The last element of a list with a given key, if there is one. *)
Fixpoint lastWithKey {A} (key : A -> Z) (k : Z) (l : list A) : option A :=
  match l with
  | [] => None
  | x :: rest =>
      match lastWithKey key k rest with
      | Some y => Some y
      | None => if key x =? k then Some x else None
      end
  end.

(** The map a loop of [set] builds from a list, over a map [m]. *)
Definition buildMap {A} (key : A -> Z) (l : list A) (m : list (Z * A))
  : list (Z * A) :=
  fold_left (fun m item => map_set (key item) item m) l m.


(** The calendar-day key of a price record. *)
Definition dayKey (item : StockPriceData) : Z := getDateKey (sp_date item).

(** ** Validation, record by record *)

(** The date of a raw record is present and parses to a valid date. *)
Definition parseableDate (rt : Runtime) (record : FMPHistoricalPrice) : bool :=
  truthy (fmp_date record)
  && match parseISO rt (fmp_date record) with
     | Return (Some _) => true
     | _ => false
     end.

(** Open, high, low and close are all zero once coerced. *)
Definition allZeroOHLC (rt : Runtime) (record : FMPHistoricalPrice) : bool :=
  is_zero (validateNumber rt (fmp_open record) num_zero)
  && is_zero (validateNumber rt (fmp_high record) num_zero)
  && is_zero (validateNumber rt (fmp_low record) num_zero)
  && is_zero (validateNumber rt (fmp_close record) num_zero).

(** The coerced volume is a finite number. *)
Definition finiteVolume (rt : Runtime) (record : FMPHistoricalPrice) : bool :=
  isFinite (validateNumber rt (fmp_volume record) num_zero).

(** The records validation keeps, in the words of the specification: a
    parseable date, and open, high, low, close not all zero. *)
Definition spec_keeps (rt : Runtime) (record : FMPHistoricalPrice) : bool :=
  parseableDate rt record && negb (allZeroOHLC rt record).

(** The records validation keeps. *)
Definition keeps (rt : Runtime) (record : FMPHistoricalPrice) : bool :=
  parseableDate rt record && finiteVolume rt record
  && negb (allZeroOHLC rt record).

(** A normalized record carries the fields of a raw record, coerced. *)
Definition normalizes (rt : Runtime) (symbol : string)
    (record : FMPHistoricalPrice) (n : NormalizedPriceData) : Prop :=
  np_symbol n = symbol
  /\ parseISO rt (fmp_date record) = Return (Some (np_date n))
  /\ np_open n = validateNumber rt (fmp_open record) num_zero
  /\ np_high n = validateNumber rt (fmp_high record) num_zero
  /\ np_low n = validateNumber rt (fmp_low record) num_zero
  /\ np_close n = validateNumber rt (fmp_close record) num_zero
  /\ np_volume n = floorZ (validateNumber rt (fmp_volume record) num_zero)
  /\ np_change n = validateNumber rt (fmp_change record) num_zero
  /\ np_changePercent n
      = validateNumber rt (fmp_changePercent record) num_zero
  /\ np_vwap n = validateNumber rt (fmp_vwap record) num_zero.

(** ** Revenue growth *)

(** The growth of a revenue over the revenue four periods before, as a
    percentage, in the arithmetic of numbers. *)
Definition growthFormula (revenue priorRevenue : Z) : number :=
  num_mul
    (num_div (num_sub (Number_of_bigint revenue) (Number_of_bigint priorRevenue))
       (num_abs (Number_of_bigint priorRevenue)))
    num_100.

(** A record with its growth field replaced. *)
Definition withGrowth (record : FundamentalRecord) (g : option number)
  : FundamentalRecord :=
  {| fr_symbol := fr_symbol record; fr_date := fr_date record;
     fr_peRatio := fr_peRatio record; fr_priceToFcf := fr_priceToFcf record;
     fr_fcf := fr_fcf record; fr_eps := fr_eps record;
     fr_revenue := fr_revenue record; fr_revenueGrowthYoy := g;
     fr_roe := fr_roe record; fr_debtToEquity := fr_debtToEquity record;
     fr_period := fr_period record |}.

(** The growth value [calculateRevenueGrowthYoy] gives the record at an
    index, for records that come without one. *)
Definition growthAt (records : list FundamentalRecord) (i : nat)
    (record : FundamentalRecord) : option number :=
  if (i <? 4)%nat then None
  else
    match nth_error records (i - 4) with
    | Some prior =>
        match fr_revenue prior, fr_revenue record with
        | Some priorRevenue, Some revenue =>
            if priorRevenue =? 0 then None
            else Some (growthFormula revenue priorRevenue)
        | _, _ => None
        end
    | None => None
    end.

(** ** Failure classes of a request *)

Inductive FailureClass : Type := RateLimit | AuthError | NetworkError | Timeout.

(** The failures of a request by class: HTTP 429; HTTP 401 or 403; a
    connection that is refused or a host that is not found; a request
    that is aborted on its timeout.  A connection failure and a timeout
    come without a response, hence without a status. *)
Inductive HasClass : FailureClass -> AxiosOutcome -> Prop :=
  | class_429 code message :
      HasClass RateLimit (AxiosError (Some 429) code message)
  | class_401 code message :
      HasClass AuthError (AxiosError (Some 401) code message)
  | class_403 code message :
      HasClass AuthError (AxiosError (Some 403) code message)
  | class_refused message :
      HasClass NetworkError (AxiosError None (Some "ECONNREFUSED") message)
  | class_notfound message :
      HasClass NetworkError (AxiosError None (Some "ENOTFOUND") message)
  | class_aborted message :
      HasClass Timeout (AxiosError None (Some "ECONNABORTED") message).

Definition classMessage (c : FailureClass) : string :=
  match c with
  | RateLimit => "API rate limit exceeded. FMP free tier allows 250 calls/day."
  | AuthError => "Invalid API key or unauthorized access"
  | NetworkError =>
      "Unable to connect to FMP API. Check your network connection."
  | Timeout => "Request timed out while fetching data from FMP API"
  end.

(** ** Invariants of the world *)

(** The unique index [stock_prices_symbol_date_key]. *)
Definition rowKey (r : PrismaStockPrice) : string * Z := (p_symbol r, p_day r).

Definition uniqueKeys (table : list PrismaStockPrice) : Prop :=
  NoDup (map rowKey table).

(** Strictly ascending by calendar day. *)
Definition ascendingDays (data : list StockPriceData) : Prop :=
  StronglySorted (key_lt dayKey) data.

(** A sequence of ratio points computed from two series that are strictly
    ascending by calendar day. *)
Definition computedRatios (ratios : list RatioData) : Prop :=
  exists data1 data2,
    ascendingDays data1 /\ ascendingDays data2
    /\ ratios = sort_by rd_date (calculateRatios data1 data2).

(** The table respects its unique index, every cached history is strictly
    ascending by calendar day, and every cached ratio sequence was
    computed from two such histories. *)
Definition consistent (w : World) : Prop :=
  uniqueKeys (stock_prices w)
  /\ (forall key entry,
        historyCache w key = Some entry -> ascendingDays (ce_value entry))
  /\ (forall key entry,
        ratioCache w key = Some entry -> computedRatios (ce_value entry)).

(** A world with an empty table and an empty cache. *)
Definition emptyWorld (c : Collaborators) (cs : CacheService) : World :=
  {| stock_prices := []; historyCache := fun _ => None;
     ratioCache := fun _ => None; cache := cs; env := c;
     apiCalls := 0; dbOps := 0; cacheOps := 0; clockReads := 0 |}.

(** A computation keeps [P] of the world and, when it returns, returns a
    value with [Q]. *)
Definition preserves {A} (P : World -> Prop) (m : M A) (Q : A -> Prop) : Prop :=
  forall w o w',
    P w -> m w = (o, w') ->
    P w' /\ forall a, o = Return a -> Q a.

(** The ratio point of two records of the same day. *)
Definition ratioPoint (item1 item2 : StockPriceData) : RatioData :=
  {| rd_date := sp_date item1;
     rd_ratio := num_div (sp_close item1) (sp_close item2);
     rd_symbol1Price := sp_close item1;
     rd_symbol2Price := sp_close item2 |}.

(** What changes in the world outside the table and the count of database
    operations: nothing, for the steps that only write to the table. *)
Definition sameOutsideTable (w w' : World) : Prop :=
  historyCache w' = historyCache w /\ ratioCache w' = ratioCache w
  /\ cache w' = cache w /\ env w' = env w /\ apiCalls w' = apiCalls w
  /\ cacheOps w' = cacheOps w /\ clockReads w' = clockReads w.

(** The worlds the services can be in: an empty table and cache; then
    any history read, ratio read or sync; and, at any time, the expiry or
    deletion of cache entries. *)
Inductive reachable (rt : Runtime) : World -> Prop :=
  | reach_empty c cs : reachable rt (emptyWorld c cs)
  | reach_history w symbol timeframe :
      reachable rt w ->
      reachable rt (snd (getHistoricalData rt symbol timeframe w))
  | reach_ratio w symbol1 symbol2 timeframe :
      reachable rt w ->
      reachable rt (snd (getPriceRatio rt symbol1 symbol2 timeframe w))
  | reach_sync w symbol from to :
      reachable rt w ->
      reachable rt (snd (syncStock rt symbol from to w))
  | reach_expiry w (gone : string -> bool) :
      reachable rt w ->
      reachable rt
        (set_ratioCache
           (fun key => if gone key then None else ratioCache w key)
           (set_historyCache
              (fun key => if gone key then None else historyCache w key) w)).

(** What the cache answers to the lookup of a ratio: nothing when the
    cache is disabled, disconnected or failing. *)
Definition ratioCacheLookup (w : World) (sym1 sym2 timeframe : string)
  : option (list RatioData) :=
  if isAvailable w
  then option_map ce_value (ratioCache w (buildPriceRatioKey sym1 sym2 timeframe))
  else None.

(* ====================================================================== *)
(** * Characters of a string                                               *)
(* ====================================================================== *)

(** Every character of a string passes a test. *)
Fixpoint everyChar (test : ascii -> bool) (s : string) : bool :=
  match s with
  | EmptyString => true
  | String c r => test c && everyChar test r
  end.

(** A string without the separator of the cache keys. *)
Definition colonFree (s : string) : bool :=
  everyChar (fun c => negb (c =? ":")%char) s.

(** The first character of a text, if it has one, is not a space. *)
Definition startsClear (s : string) : Prop :=
  match s with
  | EmptyString => True
  | String c _ => is_space c = false
  end.

(** A string without the wildcard of key patterns. *)
Definition starFree (s : string) : bool :=
  everyChar (fun c => negb (c =? "*")%char) s.

(* ====================================================================== *)
(** * CacheService: invalidation and reconnection                          *)
(* ====================================================================== *)

(** The [KEYS] command of Redis on a pattern in which [*] is the only
    special character: [*] stands for any run of characters, every other
    character for itself.  The patterns of [invalidateStock] are of this
    kind when the symbol is made of letters and digits, which is what the
    controller lets through. *)
Fixpoint globMatch (pattern key : string) : bool :=
  match pattern with
  | EmptyString =>
      match key with EmptyString => true | String _ _ => false end
  | String c rest =>
      if (c =? "*")%char then
        (fix fromSomeSuffix (k : string) : bool :=
           globMatch rest k
           || match k with
              | EmptyString => false
              | String _ k' => fromSomeSuffix k'
              end) key
      else
        match key with
        | EmptyString => false
        | String c' k' => (c =? c')%char && globMatch rest k'
        end
  end.

(** The pattern of [invalidateStock]. *)
Definition stockPattern (symbol : string) : string :=
  ("stock:*:" ++ toUpperCase symbol ++ ":*")%string.

(** [invalidateStock]: the keys that match the pattern are deleted, from
    both families.  The two commands, [keys] and [del], count as one cache
    operation: when either fails nothing is deleted, and the failure is
    caught. *)
Definition invalidateStock (symbol : string) : M unit :=
  fun w =>
    if isAvailable w then
      let pattern := stockPattern symbol in
      (Return tt,
       tick_cache
         (set_ratioCache
            (fun key => if globMatch pattern key then None
                        else ratioCache w key)
            (set_historyCache
               (fun key => if globMatch pattern key then None
                           else historyCache w key) w)))
    else (Return tt, tick_cache w).

(** What [reconnectStrategy] tells the client after a lost connection. *)
Inductive Reconnect : Type :=
  | GiveUp (message : string)
  | RetryAfter (delay : Z).

(** [reconnectStrategy(retries)], on the attempt counts the client
    passes. *)
Definition reconnectStrategy (retries : Z) : Reconnect :=
  if 10 <? retries then GiveUp "Max reconnection attempts reached"
  else RetryAfter (Z.min (retries * 100) 3000).

(* ====================================================================== *)
(** * Queries on the table                                                 *)
(* ====================================================================== *)

(** [stockPrice.findFirst({ where: { symbol }, orderBy: { date },
    select: { date: true } })]: the date of the first row of the symbol in
    the order asked for, if the symbol has a row.  A failure of the
    database is raised as it comes. *)
Definition findFirstDate (symbol : string) (descending : bool)
  : M (option Z) :=
  fun w =>
    match dbFault (env w) (dbOps w) with
    | Some message => (Throw (OtherError message), tick_db w)
    | None =>
        let rows :=
          filter (fun r => (p_symbol r =? symbol)%string) (stock_prices w) in
        let ordered :=
          sort_by (fun r => if descending then - p_day r else p_day r) rows in
        (Return (option_map p_date (hd_error ordered)), tick_db w)
    end.

(** [stockPrice.count({ where: { symbol } })]. *)
Definition countRows (symbol : string) : M Z :=
  fun w =>
    match dbFault (env w) (dbOps w) with
    | Some message => (Throw (OtherError message), tick_db w)
    | None =>
        (Return
           (Z.of_nat
              (List.length
                 (filter (fun r => (p_symbol r =? symbol)%string)
                    (stock_prices w)))),
         tick_db w)
    end.

(** What the cache answers to the lookup of a history: nothing when the
    cache is disabled, disconnected or failing. *)
Definition historyCacheLookup (w : World) (symbol timeframe : string)
  : option (list StockPriceData) :=
  if isAvailable w
  then option_map ce_value
         (historyCache w (buildStockHistoryKey symbol timeframe))
  else None.

(** The row of a table under a key of the unique index. *)
Definition keyIs (k : string * Z) (r : PrismaStockPrice) : bool :=
  (p_symbol r =? fst k)%string && (p_day r =? snd k).

Definition lookupRow (k : string * Z) (table : list PrismaStockPrice)
  : option PrismaStockPrice :=
  find (keyIs k) table.

(** The row that the last record of a batch with a given key is written
    as. *)
Definition lastWritten (c : Collaborators) (k : string * Z)
    (batch : list NormalizedPriceData) : option PrismaStockPrice :=
  find (keyIs k) (rev (map (toRow c) batch)).

(** The rows of a table that belong to other symbols. *)
Definition rowsOfOthers (symbol : string) (table : list PrismaStockPrice)
  : list PrismaStockPrice :=
  filter (fun r => negb (p_symbol r =? symbol)%string) table.

Definition rowsOf (symbol : string) (table : list PrismaStockPrice)
  : list PrismaStockPrice :=
  filter (fun r => (p_symbol r =? symbol)%string) table.

(* ====================================================================== *)
(** * DataFetcher: incremental and batch syncs                             *)
(* ====================================================================== *)

Section DataFetcherSyncs.

Context (rt : Runtime).

Definition getLastStoredDate (symbol : string) : M (option Z) :=
  let normalizedSymbol := trim (toUpperCase symbol) in
  tryCatch (findFirstDate normalizedSymbol true)
    (fun error =>
       throw (DataFetcherError
                ("Database error: " ++ getErrorMessage error)
                "DATABASE_ERROR" None)).

(** [syncLatest]: a sync from the day after the last stored date, or of
    everything when nothing is stored. *)
Definition syncLatest (symbol : string) : M SyncResult :=
  let normalizedSymbol := trim (toUpperCase symbol) in
  lastDate <- getLastStoredDate normalizedSymbol ;;
  let fromDate :=
    option_map (fun last => last + 24 * 60 * 60 * 1000) lastDate in
  syncStock rt normalizedSymbol fromDate None.

(** [delay(ms)]: a timer; nothing of the world changes. *)
Definition delay (ms : Z) : M unit := ret tt.

(** The loop of [syncMultiple], with the [results] pushed so far. *)
Fixpoint syncEach (symbols : list string) (from to : option Z)
    (results : list SyncResult) : M (list SyncResult) :=
  match symbols with
  | [] => ret results
  | symbol :: rest =>
      results <-
        tryCatch
          (result <- syncStock rt symbol from to ;;
           let results := (results ++ [result])%list in
           delay 200 ;;;
           ret results)
          (fun error =>
             ret (results
                    ++ [{| sr_symbol := trim (toUpperCase symbol);
                           sr_recordsFetched := 0; sr_recordsSaved := 0;
                           sr_dateRange := (None, None);
                           sr_errors := [getErrorMessage error] |}])%list) ;;
      syncEach rest from to results
  end.

Definition syncMultiple (symbols : list string) (from to : option Z)
  : M (list SyncResult) :=
  syncEach symbols from to [].

Definition getStoredCount (symbol : string) : M Z :=
  countRows (trim (toUpperCase symbol)).

End DataFetcherSyncs.

(* ====================================================================== *)
(** * StockService: the other public methods                               *)
(* ====================================================================== *)

Record DateRange : Type := {
  dr_earliest : Z;
  dr_latest : Z
}.

Section StockServiceMethods.

Context (rt : Runtime).

(** Layer 3 of [getHistoricalData] by itself: the rows to serve, which
    are the rows read from the table, or the rows read again after a
    sync that saved records without an error. *)
Definition refreshedRows (normalizedSymbol normalizedTimeframe : string)
    (from to : Z) (dbData : list PrismaStockPrice)
  : M (list PrismaStockPrice) :=
  refresh <- needsDataRefresh rt normalizedSymbol normalizedTimeframe dbData ;;
  if (refresh : bool) then
    tryCatch
      (syncResult <- syncStock rt normalizedSymbol (Some from) (Some to) ;;
       match sr_errors syncResult with
       | [] =>
           if 0 <? sr_recordsSaved syncResult
           then queryDatabase normalizedSymbol from to
           else ret dbData
       | _ => ret dbData
       end)
      (fun _ => ret dbData)
  else ret dbData.

(** [refreshData]: the cache entries of the symbol are invalidated, then
    everything the source has is synced. *)
Definition refreshData (symbol : string) : M SyncResult :=
  let normalizedSymbol := trim (toUpperCase symbol) in
  tryCatch (invalidateStock normalizedSymbol) (fun _ => ret tt) ;;;
  result <- syncStock rt normalizedSymbol None None ;;
  ret result.

(** [getAvailableDateRange].  The two queries of [Promise.all] are run
    one after the other; when both fail the error of the first is the one
    reported. *)
Definition getAvailableDateRange (symbol : string) : M (option DateRange) :=
  let normalizedSymbol := trim (toUpperCase symbol) in
  tryCatch
    (first <- attempt (findFirstDate normalizedSymbol false) ;;
     second <- attempt (findFirstDate normalizedSymbol true) ;;
     match first, second with
     | Throw error, _ => throw error
     | _, Throw error => throw error
     | Return earliest, Return latest =>
         match earliest, latest with
         | Some e, Some l =>
             ret (Some {| dr_earliest := e; dr_latest := l |})
         | _, _ => ret None
         end
     end)
    (fun error =>
       throw (StockServiceError
                ("Failed to get date range: " ++ getErrorMessage error)
                "DATABASE_ERROR" (Some normalizedSymbol))).

(** The reads of [getMultipleHistoricalData], one per symbol, each with
    its own [catch]; they are run one after the other. *)
Fixpoint readEach (symbols : list string) (timeframe : string)
  : M (list (string * list StockPriceData)) :=
  match symbols with
  | [] => ret []
  | symbol :: rest =>
      entry <-
        tryCatch
          (data <- getHistoricalData rt symbol timeframe ;;
           ret (toUpperCase symbol, data))
          (fun _ => ret (toUpperCase symbol, [])) ;;
      entries <- readEach rest timeframe ;;
      ret (entry :: entries)
  end.

Definition getMultipleHistoricalData (symbols : list string)
    (timeframe : string) : M (list (string * list StockPriceData)) :=
  resolved <- readEach symbols timeframe ;;
  ret (fold_left
         (fun results entry => smap_set (fst entry) (snd entry) results)
         resolved []).

(** The inner loop of [warmupCache]. *)
Fixpoint warmupTimeframes (symbol : string) (timeframes : list string)
  : M unit :=
  match timeframes with
  | [] => ret tt
  | timeframe :: rest =>
      tryCatch (getHistoricalData rt symbol timeframe ;;; ret tt)
        (fun _ => ret tt) ;;;
      warmupTimeframes symbol rest
  end.

Fixpoint warmupSymbols (symbols : list string) (timeframes : list string)
  : M unit :=
  match symbols with
  | [] => ret tt
  | symbol :: rest =>
      warmupTimeframes symbol timeframes ;;;
      warmupSymbols rest timeframes
  end.

(** [warmupCache(symbols, timeframes = ['1Y', '1M', '1W'])]. *)
Definition warmupCache (symbols : list string)
    (timeframes : option (list string)) : M unit :=
  warmupSymbols symbols
    (match timeframes with
     | Some given => given
     | None => ["1Y"; "1M"; "1W"]
     end).

Definition getRecordCount (symbol : string) : M Z :=
  countRows (trim (toUpperCase symbol)).

End StockServiceMethods.

(* ====================================================================== *)
(** * The stock controller                                                 *)
(* ====================================================================== *)

Module StockController.

(** A route parameter or query value of a request. *)
Inductive ReqValue : Type :=
  | RString (s : string)
  | RArray (first : option string)  (* its first element, when a string *)
  | ROther.                         (* undefined, or a parsed object *)

(** The JSON body of an answer, [{ success, data }] or
    [{ success, error }].  The data stands for its JSON text. *)
Inductive ApiResponse (A : Type) : Type :=
  | ApiSuccess (data : A)
  | ApiFailure (error : string).
Arguments ApiSuccess {A} data.
Arguments ApiFailure {A} error.

Record Response (A : Type) : Type := {
  res_status : Z;
  res_body : ApiResponse A
}.
Arguments res_status {A} _.
Arguments res_body {A} _.

(** [res.json(body)], with the default status. *)
Definition json {A} (body : ApiResponse A) : Response A :=
  {| res_status := 200; res_body := body |}.

(** [res.status(code).json(body)]. *)
Definition statusJson {A} (code : Z) (body : ApiResponse A) : Response A :=
  {| res_status := code; res_body := body |}.

Definition VALID_TIMEFRAMES : list string := ["5Y"; "1Y"; "YTD"; "1M"; "1W"].

Definition isAlphanumeric (c : ascii) : bool :=
  let n := nat_of_ascii c in
  ((48 <=? n)%nat && (n <=? 57)%nat)
  || ((65 <=? n)%nat && (n <=? 90)%nat)
  || ((97 <=? n)%nat && (n <=? 122)%nat).

(** [/^[a-zA-Z0-9]{1,10}$/.test(s)]. *)
Definition isValidSymbol (s : string) : bool :=
  (1 <=? String.length s)%nat && (String.length s <=? 10)%nat
  && everyChar isAlphanumeric s.

(** [VALID_TIMEFRAMES.includes(t)]: the exact text, with its case. *)
Definition isValidTimeframe (t : string) : bool :=
  existsb (String.eqb t) VALID_TIMEFRAMES.

(** [str(val, fallback)]. *)
Definition str (val : ReqValue) (fallback : string) : string :=
  match val with
  | RString s => s
  | RArray (Some s) => s
  | _ => fallback
  end.

(** The replacer of [toJSON] turns a bigint into its decimal text; on
    the records that stand for the JSON text it is the identity. *)
Definition toJSON {A} (data : A) : A := data.

Definition getStatusCode (code : string) : Z :=
  if (code =? "INVALID_TIMEFRAME")%string then 400
  else if (code =? "NO_DATA")%string then 404
  else if (code =? "DATABASE_ERROR")%string then 500
  else 500.

(** The [catch] clause the handlers share. *)
Definition failed {A} (err : Exn) : M (Response A) :=
  match err with
  | StockServiceError message code _ =>
      ret (statusJson (getStatusCode code) (ApiFailure message))
  | _ => ret (statusJson 500 (ApiFailure "Internal server error"))
  end.

Definition invalidTimeframe : string :=
  "Invalid timeframe. Must be one of: 5Y, 1Y, YTD, 1M, 1W".

Section Handlers.

Context (rt : Runtime).

Definition getHistory (params_symbol query_timeframe : ReqValue)
  : M (Response (list StockPriceData)) :=
  let symbol := str params_symbol "" in
  let timeframe := str query_timeframe "1M" in
  if negb (isValidSymbol symbol)
  then ret (statusJson 400 (ApiFailure "Invalid symbol"))
  else if negb (isValidTimeframe timeframe)
  then ret (statusJson 400 (ApiFailure invalidTimeframe))
  else
    tryCatch
      (data <- getHistoricalData rt (toUpperCase symbol) timeframe ;;
       ret (json (ApiSuccess (toJSON data))))
      failed.

Definition getLatest (params_symbol : ReqValue)
  : M (Response StockPriceData) :=
  let symbol := str params_symbol "" in
  if negb (isValidSymbol symbol)
  then ret (statusJson 400 (ApiFailure "Invalid symbol"))
  else
    tryCatch
      (data <- getHistoricalData rt (toUpperCase symbol) "1W" ;;
       match nth_error data (List.length data - 1) with
       | None => ret (statusJson 404 (ApiFailure "No data found"))
       | Some latest => ret (json (ApiSuccess (toJSON latest)))
       end)
      failed.

Definition getRatio (query_base query_compare query_timeframe : ReqValue)
  : M (Response (list RatioData)) :=
  let base := str query_base "" in
  let compare := str query_compare "" in
  let timeframe := str query_timeframe "1M" in
  if negb (isValidSymbol base)
  then ret (statusJson 400 (ApiFailure "Invalid or missing base symbol"))
  else if negb (isValidSymbol compare)
  then ret (statusJson 400 (ApiFailure "Invalid or missing compare symbol"))
  else if negb (isValidTimeframe timeframe)
  then ret (statusJson 400 (ApiFailure invalidTimeframe))
  else
    tryCatch
      (data <- getPriceRatio rt (toUpperCase base) (toUpperCase compare)
                 timeframe ;;
       ret (json (ApiSuccess (toJSON data))))
      failed.

Definition syncStock (params_symbol : ReqValue) : M (Response SyncResult) :=
  let symbol := str params_symbol "" in
  if negb (isValidSymbol symbol)
  then ret (statusJson 400 (ApiFailure "Invalid symbol"))
  else
    tryCatch
      (result <- refreshData rt (toUpperCase symbol) ;;
       ret (json (ApiSuccess (toJSON result))))
      failed.

Definition getDateRange (params_symbol : ReqValue)
  : M (Response (option DateRange)) :=
  let symbol := str params_symbol "" in
  if negb (isValidSymbol symbol)
  then ret (statusJson 400 (ApiFailure "Invalid symbol"))
  else
    tryCatch
      (range <- getAvailableDateRange (toUpperCase symbol) ;;
       ret (json (ApiSuccess range)))
      failed.

End Handlers.

End StockController.

(* ====================================================================== *)
(** * Scenarios                                                            *)
(* ====================================================================== *)

(** A concrete run-time environment, a server whose local time is UTC, and
    the worlds on which the properties below are exercised. *)
Module Scenario.

Definition digit (c : ascii) : option Z :=
  let n := nat_of_ascii c in
  if (48 <=? n)%nat && (n <=? 57)%nat then Some (Z.of_nat (n - 48)) else None.

Fixpoint digits (s : string) (acc : Z) : option Z :=
  match s with
  | EmptyString => Some acc
  | String c r =>
      match digit c with
      | Some d => digits r (10 * acc + d)
      | None => None
      end
  end.

Definition natural (s : string) : option Z :=
  match s with
  | EmptyString => None
  | _ => digits s 0
  end.

(** Days since the epoch of a civil date, and back (proleptic Gregorian
    calendar). *)
Definition daysFromCivil (y m d : Z) : Z :=
  let y' := if m <=? 2 then y - 1 else y in
  let era := y' / 400 in
  let yoe := y' - era * 400 in
  let doy := (153 * (if 2 <? m then m - 3 else m + 9) + 2) / 5 + d - 1 in
  let doe := yoe * 365 + yoe / 4 - yoe / 100 + doy in
  era * 146097 + doe - 719468.

Definition civilFromDays (days : Z) : Z * Z * Z :=
  let z := days + 719468 in
  let era := z / 146097 in
  let doe := z - era * 146097 in
  let yoe := (doe - doe / 1460 + doe / 36524 - doe / 146096) / 365 in
  let doy := doe - (365 * yoe + yoe / 4 - yoe / 100) in
  let mp := (5 * doy + 2) / 153 in
  let d := doy - (153 * mp + 2) / 5 + 1 in
  let m := if mp <? 10 then mp + 3 else mp - 9 in
  let y := yoe + era * 400 + (if m <=? 2 then 1 else 0) in
  (y, m, d).

(** The day of a text [YYYY-MM-DD]. *)
Definition parseDay (text : string) : option Z :=
  if negb (String.length text =? 10)%nat then None
  else if negb ((substring 4 1 text =? "-")%string
                && (substring 7 1 text =? "-")%string) then None
  else
    match natural (substring 0 4 text), natural (substring 5 2 text),
          natural (substring 8 2 text) with
    | Some y, Some m, Some d =>
        if (1 <=? m) && (m <=? 12) && (1 <=? d) && (d <=? 31)
        then Some (daysFromCivil y m d) else None
    | _, _, _ => None
    end.

Definition digitChar (d : Z) : string :=
  String (ascii_of_nat (48 + Z.to_nat d)) EmptyString.

Definition pad2 (n : Z) : string :=
  (digitChar (n / 10 mod 10) ++ digitChar (n mod 10))%string.

Definition pad4 (n : Z) : string := (pad2 (n / 100) ++ pad2 n)%string.

(** The text [YYYY-MM-DD] of the UTC day of a time value. *)
Definition dayText (t : Z) : string :=
  let '(y, m, d) := civilFromDays (t / MS_PER_DAY) in
  (pad4 y ++ "-" ++ pad2 m ++ "-" ++ pad2 d)%string.

Definition rt : Runtime :=
  {| parseISO := fun v =>
       match v with
       | JString text =>
           Return (option_map (fun day => day * MS_PER_DAY) (parseDay text))
       | _ => Return None
       end;
     stringToNumber := fun text =>
       match natural text with
       | Some z => num_of_Z z
       | None => S754_nan
       end;
     startOfYear := fun t =>
       let '(y, _, _) := civilFromDays (t / MS_PER_DAY) in
       daysFromCivil y 1 1 * MS_PER_DAY;
     subDays := fun t n => t - n * MS_PER_DAY;
     subYears := fun t n =>
       let '(y, m, d) := civilFromDays (t / MS_PER_DAY) in
       let d' := if (m =? 2) && (d =? 29) then 28 else d in
       daysFromCivil (y - n) m d' * MS_PER_DAY + t mod MS_PER_DAY;
     localDateAsUTC := fun t => t / MS_PER_DAY * MS_PER_DAY;
     formatDate := dayText;
     FMP_API_KEY := "demo" |}.

(** A database that keeps [scale] decimals of a finite number, halves
    rounded up. *)
Definition keepDecimals (scale : Z) (x : number) : Decimal :=
  {| dec_units :=
       match x with
       | S754_finite s m e =>
           let v := cond_Zopp s (Zpos m) in
           if 0 <=? e then v * 2 ^ e * 10 ^ scale
           else (2 * v * 10 ^ scale + 2 ^ (- e)) / 2 ^ (1 - e)
       | _ => 0
       end;
     dec_scale := scale |}.

(** Collaborators that answer every request with [response], with a
    database that fails where [faults] says, a cache that is up, and a
    clock that stands at [now]. *)
Definition collaborators (response : AxiosOutcome)
    (faults : nat -> option string) (now : Z) : Collaborators :=
  {| api := fun _ _ => response; dbFault := faults;
     cacheUp := fun _ => true; clock := fun _ => now;
     storeDecimal := keepDecimals |}.

Definition cacheService : CacheService :=
  {| cs_enabled := true; cs_defaultTTL := 3600 |}.

Definition noFault : nat -> option string := fun _ => None.

(** A world with the given table and empty caches. *)
Definition world (table : list PrismaStockPrice) (c : Collaborators) : World :=
  set_stock_prices table (emptyWorld c cacheService).

Definition decimal4 (units : Z) : Decimal :=
  {| dec_units := units; dec_scale := 4 |}.

(** A stored row: a symbol, a day of January 2024, and a close in
    hundredths. *)
Definition row (symbol : string) (january : Z) (cents : Z) : PrismaStockPrice :=
  {| p_symbol := symbol; p_day := daysFromCivil 2024 1 january;
     p_open := decimal4 (cents * 100); p_high := decimal4 (cents * 100);
     p_low := decimal4 (cents * 100); p_close := decimal4 (cents * 100);
     p_volume := 1000; p_change := decimal4 0;
     p_changePercent := {| dec_units := 0; dec_scale := 6 |};
     p_vwap := decimal4 (cents * 100) |}.

(** Noon of a day of January 2024. *)
Definition noon (january : Z) : Z :=
  daysFromCivil 2024 1 january * MS_PER_DAY + 12 * 60 * 60 * 1000.

(** A raw record of the API. *)
Definition raw (date : JSValue) (price volume : JSValue) : FMPHistoricalPrice :=
  {| fmp_date := date; fmp_open := price; fmp_high := price;
     fmp_low := price; fmp_close := price; fmp_volume := volume;
     fmp_change := JNumber num_zero; fmp_changePercent := JNumber num_zero;
     fmp_vwap := price |}.

(** Five trading days of AAPL, stored out of order, read on January 10. *)
Definition aaplRows : list PrismaStockPrice :=
  [row "AAPL" 9 18515; row "AAPL" 4 18191; row "AAPL" 10 18619;
   row "AAPL" 5 18118; row "AAPL" 8 18556].

(** MSFT on the same days but January 5, with a zero close on January 9. *)
Definition msftRows : list PrismaStockPrice :=
  [row "MSFT" 4 36794; row "MSFT" 8 37469; row "MSFT" 9 0;
   row "MSFT" 10 38277].

Definition january10 : Collaborators :=
  collaborators (AxiosError None (Some "ECONNREFUSED") "connect ECONNREFUSED")
    noFault (noon 10).

Definition storedWorld : World := world (aaplRows ++ msftRows) january10.

(** A payload of 150 daily records from January 1, 2024. *)
Definition payload : list FMPHistoricalPrice :=
  map (fun i =>
         raw (JString (dayText ((daysFromCivil 2024 1 1 + Z.of_nat i)
                                * MS_PER_DAY)))
             (JNumber (num_of_Z (100 + Z.of_nat i)))
             (JNumber (num_of_Z 5000)))
      (seq 0 150).

(** The database commits one transaction and fails on the second. *)
Definition secondFails : nat -> option string :=
  fun n => if (n =? 1)%nat then Some "connection lost" else None.

Definition failingWorld : World :=
  world [] (collaborators (AxiosResponse (RespArray payload)) secondFails
              (noon 10)).

(** An empty table and a market data source that answers with the
    payload. *)
Definition freshWorld : World :=
  world [] (collaborators (AxiosResponse (RespArray payload)) noFault
              (noon 10)).

(** A record whose volume overflowed to infinity in the payload, beside a
    sound record. *)
Definition overflowed : list FMPHistoricalPrice :=
  [raw (JString "2024-01-04") (JNumber (num_of_Z 181)) (JNumber (num_of_Z 5000));
   raw (JString "2024-01-05") (JNumber (num_of_Z 182))
     (JNumber (S754_infinity false))].

(** Five quarters of key metrics and income statements, newest first. *)
Definition keyMetric (date : string) : FMPKeyMetric :=
  {| km_date := Some date; km_peRatio := None;
     km_priceToFreeCashFlowRatio := None; km_freeCashFlow := None;
     km_returnOnEquity := None; km_debtToEquity := None |}.

Definition income (date : string) (revenue : option Z) : FMPIncomeStatement :=
  {| inc_date := Some date; inc_revenue := option_map num_of_Z revenue;
     inc_eps := None; inc_epsDiluted := None; inc_period := Some "Q" |}.

Definition quarters : list string :=
  ["2024-03-31"; "2023-12-31"; "2023-09-30"; "2023-06-30"; "2023-03-31"].

Definition keyMetrics : list FMPKeyMetric := map keyMetric quarters.

Definition incomes : list FMPIncomeStatement :=
  [income "2024-03-31" (Some 1200); income "2023-12-31" (Some 1100);
   income "2023-09-30" None; income "2023-06-30" (Some 900);
   income "2023-03-31" (Some 1000)].

(** A ratio cached under a timeframe that is not in the enum. *)
Definition strayRatio : list RatioData :=
  [{| rd_date := noon 4; rd_ratio := num_one;
      rd_symbol1Price := num_one; rd_symbol2Price := num_one |}].

Definition strayWorld : World :=
  set_ratioCache
    (update (fun _ => None) (buildPriceRatioKey "AAPL" "MSFT" "2Y")
       (entry_for strayRatio 3600))
    storedWorld.

(** The data of the merge test of the repository. *)
Definition priced (date : string) (close : Z) : StockPriceData :=
  {| sp_date := match parseDay date with
                | Some day => day * MS_PER_DAY | None => 0 end;
     sp_open := num_of_Z 100; sp_high := num_of_Z 110; sp_low := num_of_Z 99;
     sp_close := num_of_Z close; sp_volume := 1000;
     sp_change := num_of_Z 3; sp_changePercent := num_of_Z 3;
     sp_vwap := num_of_Z 102 |}.

Definition oldData : list StockPriceData :=
  [priced "2024-01-01" 103; priced "2024-01-02" 106].

Definition newData : list StockPriceData :=
  [priced "2024-01-02" 107; priced "2024-01-03" 110].

End Scenario.

(* ====================================================================== *)
(** * Further scenarios                                                    *)
(* ====================================================================== *)

Module Fixtures.

(** Records that validation drops: prices that are all zero, a date that
    is missing, a date that is not one. *)
Definition unusable : list FMPHistoricalPrice :=
  [Scenario.raw (JString "2024-01-04") (JNumber num_zero)
     (JNumber (num_of_Z 5000));
   Scenario.raw JNull (JNumber (num_of_Z 181)) (JNumber (num_of_Z 5000));
   Scenario.raw (JString "soon") (JNumber (num_of_Z 181))
     (JNumber (num_of_Z 5000))].

(** A payload that revises January 10 twice and adds January 11. *)
Definition revised : list FMPHistoricalPrice :=
  [Scenario.raw (JString "2024-01-10") (JNumber (num_of_Z 186))
     (JNumber (num_of_Z 5000));
   Scenario.raw (JString "2024-01-11") (JNumber (num_of_Z 187))
     (JNumber (num_of_Z 5000));
   Scenario.raw (JString "2024-01-10") (JNumber (num_of_Z 188))
     (JNumber (num_of_Z 6000))].

(** The stored world after a read of the last week of AAPL, which leaves
    the history in the cache. *)
Definition cachedWorld : World :=
  snd (getHistoricalData Scenario.rt "aapl" "1w" Scenario.storedWorld).

(** A [parseISO] that reads a property of its argument before it looks at
    its type, and so raises a [TypeError] for a value that is not a
    string; on a string it is the [parseISO] of the scenarios. *)
Definition splitting : Runtime :=
  {| parseISO := fun v =>
       match v with
       | JString _ => parseISO Scenario.rt v
       | _ =>
           Throw (OtherError
                    "Cannot read properties of undefined (reading 'split')")
       end;
     stringToNumber := stringToNumber Scenario.rt;
     startOfYear := startOfYear Scenario.rt;
     subDays := subDays Scenario.rt;
     subYears := subYears Scenario.rt;
     localDateAsUTC := localDateAsUTC Scenario.rt;
     formatDate := formatDate Scenario.rt;
     FMP_API_KEY := FMP_API_KEY Scenario.rt |}.

(** A payload with a record that has no date between two sound records. *)
Definition dateless : list FMPHistoricalPrice :=
  [Scenario.raw (JString "2024-01-04") (JNumber (num_of_Z 181))
     (JNumber (num_of_Z 5000));
   Scenario.raw JUndefined (JNumber (num_of_Z 182))
     (JNumber (num_of_Z 5000));
   Scenario.raw (JString "2024-01-05") (JNumber (num_of_Z 183))
     (JNumber (num_of_Z 5000))].

(** An empty table and a market data source that answers with that
    payload. *)
Definition datelessWorld : World :=
  Scenario.world []
    (Scenario.collaborators (AxiosResponse (RespArray dateless))
       Scenario.noFault (Scenario.noon 10)).

End Fixtures.

(* ====================================================================== *)
(** * Properties                                                           *)
(* ====================================================================== *)

(** ** Numbers *)







(** ** Cache TTL *)

(** C9.  The cache TTL of each timeframe of the enum is exactly 86400
    seconds for 5Y, 43200 for 1Y, 21600 for YTD, 10800 for 1M and 3600 for
    1W, whatever the default TTL of the cache service. *)
Theorem getTTLForTimeframe_exact (cs : CacheService) (tf : Timeframe) :
  getTTLForTimeframe cs (timeframe_string tf)
  = match tf with
    | TF_5Y => 86400
    | TF_1Y => 43200
    | TF_YTD => 21600
    | TF_1M => 10800
    | TF_1W => 3600
    end.
Proof. destruct tf; reflexivity. Qed.

(** ** Staleness *)

Lemma latestDate_cons (r : PrismaStockPrice) (l : list PrismaStockPrice) :
  latestDate (r :: l)
  = fold_left (fun max item => if max <? p_date item then p_date item else max)
      l (p_date r).
Proof. unfold latestDate. simpl. now rewrite Z.ltb_irrefl. Qed.


(** ** Sorting *)

Section Sorting.

Context {A : Type} (key : A -> Z).

Lemma insert_sorted_perm (x : A) (l : list A) :
  Permutation (insert_sorted key x l) (x :: l).
Proof.
  induction l as [| y l IH]; simpl; [reflexivity |].
  destruct (key x <=? key y); [reflexivity |].
  rewrite IH. apply perm_swap.
Qed.

Lemma sort_by_perm (l : list A) : Permutation (sort_by key l) l.
Proof.
  induction l as [| x l IH]; simpl; [reflexivity |].
  rewrite insert_sorted_perm. now apply perm_skip.
Qed.

Lemma sort_by_In (l : list A) (x : A) : In x (sort_by key l) <-> In x l.
Proof.
  split; apply Permutation_in;
    [apply sort_by_perm | symmetry; apply sort_by_perm].
Qed.

Lemma sort_by_length (l : list A) : List.length (sort_by key l) = List.length l.
Proof. apply Permutation_length, sort_by_perm. Qed.

Lemma insert_sorted_sorted (x : A) (l : list A) :
  StronglySorted (key_le key) l -> StronglySorted (key_le key) (insert_sorted key x l).
Proof.
  induction 1 as [| y l Hs IH Hall]; simpl.
  - repeat constructor.
  - destruct (Z.leb_spec (key x) (key y)) as [Hle | Hgt].
    + constructor; [now constructor |].
      constructor; [exact Hle |].
      eapply Forall_impl; [| exact Hall].
      unfold key_le. intros; lia.
    + constructor; [exact IH |].
      rewrite Forall_forall. intros z Hz.
      apply (Permutation_in _ (insert_sorted_perm x l)) in Hz.
      destruct Hz as [<- | Hz]; [unfold key_le; lia |].
      rewrite Forall_forall in Hall. now apply Hall.
Qed.

Lemma sort_by_sorted (l : list A) : StronglySorted (key_le key) (sort_by key l).
Proof.
  induction l as [| x l IH]; simpl; [constructor |].
  now apply insert_sorted_sorted.
Qed.

(** A list sorted on keys that are pairwise distinct is strictly sorted. *)
Lemma sorted_NoDup_strict (l : list A) :
  StronglySorted (key_le key) l -> NoDup (map key l) -> StronglySorted (key_lt key) l.
Proof.
  induction 1 as [| x l Hs IH Hall]; intros Hnd; [constructor |].
  simpl in Hnd. inversion Hnd as [| ? ? Hnotin Hnd']; subst.
  constructor; [now apply IH |].
  rewrite Forall_forall in *. intros y Hy.
  specialize (Hall y Hy). unfold key_le, key_lt in *.
  assert (key x <> key y); [| lia].
  intros Heq. apply Hnotin. rewrite Heq. now apply in_map.
Qed.

Lemma sort_by_strict (l : list A) :
  NoDup (map key l) -> StronglySorted (key_lt key) (sort_by key l).
Proof.
  intros Hnd. apply sorted_NoDup_strict; [apply sort_by_sorted |].
  eapply Permutation_NoDup; [| exact Hnd].
  apply Permutation_map. symmetry. apply sort_by_perm.
Qed.

Lemma strict_sorted_NoDup_keys (l : list A) :
  StronglySorted (key_lt key) l -> NoDup (map key l).
Proof.
  induction 1 as [| x l Hs IH Hall]; simpl; constructor; [| exact IH].
  rewrite in_map_iff. intros (y & Heq & Hy).
  rewrite Forall_forall in Hall. specialize (Hall y Hy).
  unfold key_lt in Hall. lia.
Qed.

Lemma strict_sorted_le (l : list A) :
  StronglySorted (key_lt key) l -> StronglySorted (key_le key) l.
Proof.
  induction 1 as [| x l Hs IH Hall]; constructor; [exact IH |].
  eapply Forall_impl; [| exact Hall]. unfold key_lt, key_le. intros; lia.
Qed.

(** Sorting a sorted list changes nothing. *)
Lemma sort_by_sorted_id (l : list A) :
  StronglySorted (key_le key) l -> sort_by key l = l.
Proof.
  induction 1 as [| x l Hs IH Hall]; simpl; [reflexivity |].
  rewrite IH. destruct l as [| y l']; [reflexivity |].
  simpl. inversion Hall as [| ? ? Hxy _]; subst. unfold key_le in Hxy.
  destruct (Z.leb_spec (key x) (key y)); [reflexivity | lia].
Qed.


End Sorting.

(** ** Keyed maps *)

Section KeyedMap.

Context {A : Type} (key : A -> Z).


Lemma lastWithKey_Some (k : Z) (l : list A) (x : A) :
  lastWithKey key k l = Some x -> In x l /\ key x = k.
Proof.
  induction l as [| y l IH]; simpl; [discriminate |].
  destruct (lastWithKey key k l) as [z |].
  - intros [= ->]. destruct IH as [Hin Hk]; auto.
  - destruct (Z.eqb_spec (key y) k); [| discriminate].
    intros [= ->]. auto.
Qed.

Lemma lastWithKey_None (k : Z) (l : list A) :
  lastWithKey key k l = None <-> (forall x, In x l -> key x <> k).
Proof.
  induction l as [| y l IH]; simpl.
  - split; [intros _ x [] | reflexivity].
  - destruct (lastWithKey key k l) as [z |].
    + split; [discriminate |]. intros H.
      assert (Hz : Some z = None); [| discriminate].
      apply IH. intros x Hx. apply H. now right.
    + destruct (Z.eqb_spec (key y) k) as [Heq | Hne].
      * split; [discriminate |]. intros H. exfalso.
        now apply (H y (or_introl eq_refl)).
      * split; [| reflexivity]. intros _ x [<- | Hx]; [exact Hne |].
        now apply (proj1 IH).
Qed.


Lemma lastWithKey_NoDup (l : list A) (x : A) :
  NoDup (map key l) -> In x l -> lastWithKey key (key x) l = Some x.
Proof.
  induction l as [| y l IH]; simpl; [intros _ [] |].
  intros Hnd Hin. inversion Hnd as [| ? ? Hnotin Hnd']; subst.
  destruct Hin as [-> | Hin].
  - assert (H : lastWithKey key (key x) l = None).
    { apply lastWithKey_None. intros z Hz Heq. apply Hnotin.
      rewrite <- Heq. now apply in_map. }
    now rewrite H, Z.eqb_refl.
  - now rewrite (IH Hnd' Hin).
Qed.

Lemma map_get_set (k k' : Z) (v : A) (m : list (Z * A)) :
  map_get k' (map_set k v m) = if k =? k' then Some v else map_get k' m.
Proof.
  induction m as [| [k0 v0] m IH]; simpl.
  - reflexivity.
  - destruct (Z.eqb_spec k0 k) as [-> | Hne]; simpl.
    + now destruct (k =? k').
    + rewrite IH. destruct (Z.eqb_spec k0 k') as [-> | Hne'].
      * destruct (Z.eqb_spec k k'); [congruence | reflexivity].
      * reflexivity.
Qed.

Lemma map_get_buildMap (k : Z) (l : list A) (m : list (Z * A)) :
  map_get k (buildMap key l m)
  = match lastWithKey key k l with
    | Some y => Some y
    | None => map_get k m
    end.
Proof.
  unfold buildMap. revert m.
  induction l as [| x l IH]; intros m; simpl; [reflexivity |].
  rewrite IH. destruct (lastWithKey key k l); [reflexivity |].
  rewrite map_get_set. now destruct (key x =? k).
Qed.









End KeyedMap.

(** ** Merge and deduplicate *)





(** ** Validation *)

Lemma normalizeRecord_keeps (rt : Runtime) (symbol : string)
    (record : FMPHistoricalPrice) :
  match normalizeRecord rt symbol record with
  | Some n => keeps rt record = true /\ normalizes rt symbol record n
  | None => keeps rt record = false
  end.
Proof.
  unfold normalizeRecord, keeps, parseableDate, finiteVolume, allZeroOHLC,
    normalizes, BigInt_floor.
  destruct (truthy (fmp_date record)); simpl; [| reflexivity].
  destruct (parseISO rt (fmp_date record)) as [[date |] | e]; simpl;
    try reflexivity.
  destruct (isFinite (validateNumber rt (fmp_volume record) num_zero));
    simpl; [| reflexivity].
  destruct (is_zero (validateNumber rt (fmp_open record) num_zero)
            && is_zero (validateNumber rt (fmp_high record) num_zero)
            && is_zero (validateNumber rt (fmp_low record) num_zero)
            && is_zero (validateNumber rt (fmp_close record) num_zero));
    simpl; [reflexivity |].
  repeat split.
Qed.


(** ** Revenue growth *)

Lemma mapi_from_nth_error {A B} (f : A -> nat -> B) (l : list A) (k i : nat) :
  nth_error (mapi_from f k l) i
  = option_map (fun x => f x (k + i)%nat) (nth_error l i).
Proof.
  revert k i. induction l as [| x l IH]; intros k i.
  - now destruct i.
  - destruct i as [| i]; simpl.
    + now rewrite Nat.add_0_r.
    + rewrite IH. now rewrite Nat.add_succ_r.
Qed.

Lemma mapi_from_length {A B} (f : A -> nat -> B) (l : list A) (k : nat) :
  List.length (mapi_from f k l) = List.length l.
Proof. revert k. induction l; intros k; simpl; [reflexivity | now rewrite IHl]. Qed.

Lemma fromKeyMetrics_growth (rt : Runtime) (symbol : string)
    (incomeMap : list (string * FMPIncomeStatement))
    (keyMetrics : list FMPKeyMetric) (records : list FundamentalRecord) :
  fromKeyMetrics rt symbol incomeMap keyMetrics = Return records ->
  Forall (fun r => fr_revenueGrowthYoy r = None) records.
Proof.
  revert records. induction keyMetrics as [| km rest IH]; simpl; intros records.
  - intros [= <-]. constructor.
  - destruct (parsedDateOf rt (km_date km)); [| apply IH].
    destruct (bigintOrNull _); [| discriminate].
    destruct (bigintOrNull _); [| discriminate].
    destruct (fromKeyMetrics rt symbol incomeMap rest); [| discriminate].
    intros [= <-]. constructor; [reflexivity | now apply IH].
Qed.

Lemma fromIncome_growth (rt : Runtime) (symbol : string)
    (incomeData : list FMPIncomeStatement) (records : list FundamentalRecord) :
  fromIncome rt symbol incomeData = Return records ->
  Forall (fun r => fr_revenueGrowthYoy r = None) records.
Proof.
  revert records. induction incomeData as [| inc rest IH]; simpl; intros records.
  - intros [= <-]. constructor.
  - destruct (parsedDateOf rt (inc_date inc)); [| apply IH].
    destruct (bigintOrNull _); [| discriminate].
    destruct (fromIncome rt symbol rest); [| discriminate].
    intros [= <-]. constructor; [reflexivity | now apply IH].
Qed.

(** What [mergeFundamentals] returns is ascending by date and has no
    growth value yet. *)
Lemma mergeFundamentals_result (rt : Runtime) (symbol : string)
    (keyMetrics : list FMPKeyMetric) (incomeData : list FMPIncomeStatement)
    (records : list FundamentalRecord) :
  mergeFundamentals rt symbol keyMetrics incomeData = Return records ->
  StronglySorted (key_le fr_date) records
  /\ Forall (fun r => fr_revenueGrowthYoy r = None) records.
Proof.
  unfold mergeFundamentals.
  destruct (fromKeyMetrics rt symbol _ keyMetrics) as [recs |] eqn:E1;
    [| discriminate].
  set (second := match keyMetrics with [] => _ | _ => _ end).
  destruct second as [more |] eqn:E2; [| discriminate].
  intros [= <-]. split; [apply sort_by_sorted |].
  assert (Hmore : Forall (fun r => fr_revenueGrowthYoy r = None) more).
  { subst second. destruct keyMetrics; [destruct incomeData |].
    - injection E2 as <-. constructor.
    - now apply fromIncome_growth in E2.
    - injection E2 as <-. constructor. }
  apply fromKeyMetrics_growth in E1.
  rewrite Forall_forall in *. intros r Hr.
  apply sort_by_In in Hr. apply in_app_or in Hr.
  destruct Hr; auto.
Qed.

Lemma withGrowth_same (record : FundamentalRecord) :
  withGrowth record (fr_revenueGrowthYoy record) = record.
Proof. now destruct record. Qed.

Lemma calculateRevenueGrowthYoy_nth (records : list FundamentalRecord)
    (i : nat) (record : FundamentalRecord) :
  nth_error records i = Some record ->
  fr_revenueGrowthYoy record = None ->
  nth_error (calculateRevenueGrowthYoy records) i
  = Some (withGrowth record (growthAt records i record)).
Proof.
  intros Hi Hnone. unfold calculateRevenueGrowthYoy, mapi.
  rewrite mapi_from_nth_error, Hi. simpl. f_equal.
  unfold growthAt.
  destruct (i <? 4)%nat; [now rewrite <- Hnone, withGrowth_same |].
  destruct (nth_error records (i - 4)) as [prior |];
    [| now rewrite <- Hnone, withGrowth_same].
  destruct (fr_revenue prior) as [p |];
    [| now rewrite <- Hnone, withGrowth_same].
  destruct (fr_revenue record) as [c |] eqn:Ec;
    [| now rewrite <- Hnone, withGrowth_same].
  destruct (p =? 0); [now rewrite <- Hnone, withGrowth_same |].
  unfold withGrowth, growthFormula. now rewrite Ec.
Qed.

(** C7.  For the date-ascending records [mergeFundamentals] returns,
    [calculateRevenueGrowthYoy] keeps every record in its place and
    changes its growth field only: the growth of the record at index [i]
    is (revenue[i] - revenue[i-4]) / |revenue[i-4]| * 100, in the
    arithmetic of numbers, when [i >= 4], both revenues are known and
    revenue[i-4] is not zero; it is null for the first 4 records, and for
    a record whose own revenue, or whose revenue 4 records before, is
    unknown or, for the latter, zero. *)
Theorem calculateRevenueGrowthYoy_values (rt : Runtime) (symbol : string)
    (keyMetrics : list FMPKeyMetric) (incomeData : list FMPIncomeStatement)
    (records : list FundamentalRecord) :
  mergeFundamentals rt symbol keyMetrics incomeData = Return records ->
  let out := calculateRevenueGrowthYoy records in
  StronglySorted (key_le fr_date) records
  /\ List.length out = List.length records
  /\ forall i record,
       nth_error records i = Some record ->
       exists g,
         nth_error out i = Some (withGrowth record g)
         /\ ((i < 4)%nat -> g = None)
         /\ (forall prior,
               (4 <= i)%nat -> nth_error records (i - 4) = Some prior ->
               (forall priorRevenue revenue,
                   fr_revenue prior = Some priorRevenue ->
                   fr_revenue record = Some revenue ->
                   priorRevenue <> 0 ->
                   g = Some (growthFormula revenue priorRevenue))
               /\ (fr_revenue prior = None \/ fr_revenue prior = Some 0
                   \/ fr_revenue record = None -> g = None)).
Proof.
  intros Hmerge out.
  destruct (mergeFundamentals_result _ _ _ _ _ Hmerge) as [Hsorted Hnone].
  split; [exact Hsorted |]. split.
  { subst out. unfold calculateRevenueGrowthYoy, mapi.
    apply mapi_from_length. }
  intros i record Hi.
  assert (Hrec : fr_revenueGrowthYoy record = None).
  { rewrite Forall_forall in Hnone. apply Hnone.
    eapply nth_error_In; exact Hi. }
  exists (growthAt records i record). split.
  { subst out. now apply calculateRevenueGrowthYoy_nth. }
  unfold growthAt. split.
  - intros Hlt. apply Nat.ltb_lt in Hlt. now rewrite Hlt.
  - intros prior Hge Hprior.
    assert (Hnlt : (i <? 4)%nat = false) by (apply Nat.ltb_ge; lia).
    rewrite Hnlt, Hprior. split.
    + intros p c -> -> Hp.
      destruct (Z.eqb_spec p 0); [contradiction | reflexivity].
    + intros [H | [H | H]]; rewrite H;
        [reflexivity | now destruct (fr_revenue record)
        | now destruct (fr_revenue prior)].
Qed.

(** ** The sync engine *)

Section SyncEngine.

Context (rt : Runtime).

Lemma sameOutsideTable_refl (w : World) : sameOutsideTable w w.
Proof. repeat split. Qed.

Lemma sameOutsideTable_trans (a b c : World) :
  sameOutsideTable a b -> sameOutsideTable b c -> sameOutsideTable a c.
Proof.
  unfold sameOutsideTable. intros (? & ? & ? & ? & ? & ? & ?)
    (? & ? & ? & ? & ? & ? & ?).
  repeat split; congruence.
Qed.

(** One turn of the batch loop. *)
Lemma saveBatches_step (fuel : nat) (l : list NormalizedPriceData)
    (i : nat) (saved : Z) (w : World) :
  saveBatches (S fuel) l i saved w
  = if (i <? List.length l)%nat then
      match dbFault (env w) (dbOps w) with
      | Some message =>
          (Throw (DataFetcherError
                    ("Database error while saving data: " ++ message)
                    "DATABASE_ERROR" None), tick_db w)
      | None =>
          saveBatches fuel l (i + batchSize)
            (saved + Z.of_nat (List.length (slice l i (i + batchSize))))
            (tick_db (set_stock_prices
                        (upsertAll (env w) (slice l i (i + batchSize))
                           (stock_prices w)) w))
      end
    else (Return saved, w).
Proof.
  simpl. destruct (i <? List.length l)%nat; [| reflexivity].
  unfold bind, tryCatch, transaction, throw.
  destruct (dbFault (env w) (dbOps w)); reflexivity.
Qed.

Lemma saveBatches_frame (fuel : nat) (l : list NormalizedPriceData) :
  forall i saved w o w',
    saveBatches fuel l i saved w = (o, w') -> sameOutsideTable w w'.
Proof.
  induction fuel as [| fuel IH]; intros i saved w o w'.
  - simpl. unfold ret. intros [= _ <-]. apply sameOutsideTable_refl.
  - rewrite saveBatches_step.
    destruct (i <? List.length l)%nat.
    + destruct (dbFault (env w) (dbOps w)).
      * intros [= _ <-]. repeat split.
      * intros H. apply IH in H.
        eapply sameOutsideTable_trans; [| exact H]. repeat split.
    + intros [= _ <-]. apply sameOutsideTable_refl.
Qed.

Lemma saveToDatabase_frame (symbol : string) (data : list FMPHistoricalPrice)
    (w : World) o w' :
  saveToDatabase rt symbol data w = (o, w') -> sameOutsideTable w w'.
Proof.
  unfold saveToDatabase. destruct data as [| r data].
  - intros [= _ <-]. apply sameOutsideTable_refl.
  - destruct (validateAndNormalize rt _ (r :: data)) as [| n l] eqn:E.
    + intros [= _ <-]. apply sameOutsideTable_refl.
    + apply saveBatches_frame.
Qed.

(** A request is made at most once, and only the request counter moves. *)
Lemma fetchHistoricalData_world (symbol : string) (from to : option Z)
    (w : World) o w' :
  fetchHistoricalData rt symbol from to w = (o, w') ->
  w' = w \/ w' = tick_api w.
Proof.
  unfold fetchHistoricalData, throw.
  destruct (trim (toUpperCase symbol) =? "")%string; [intros [= _ <-]; auto |].
  destruct (FMP_API_KEY rt =? "")%string; [intros [= _ <-]; auto |].
  destruct (api (env w) (apiCalls w) _) as [[] | |];
    intros [= _ <-]; auto.
Qed.

(** A request that fails in one of the four classes raises the error of
    its class. *)
Lemma fetchHistoricalData_class (symbol : string) (from to : option Z)
    (w : World) (c : FailureClass) :
  trim (toUpperCase symbol) <> "" -> FMP_API_KEY rt <> "" ->
  HasClass c (api (env w) (apiCalls w)
                (historicalUrl rt (trim (toUpperCase symbol)) from to)) ->
  exists e,
    fetchHistoricalData rt symbol from to w = (Throw e, tick_api w)
    /\ getErrorMessage e = classMessage c.
Proof.
  intros Hsym Hkey Hclass. unfold fetchHistoricalData.
  apply String.eqb_neq in Hsym. apply String.eqb_neq in Hkey.
  rewrite Hsym, Hkey. cbv zeta.
  inversion Hclass; subst;
    eexists; (split; [reflexivity |]); reflexivity.
Qed.

Lemma classMessage_injective (c1 c2 : FailureClass) :
  classMessage c1 = classMessage c2 -> c1 = c2.
Proof. destruct c1, c2; simpl; intros H; try reflexivity; discriminate. Qed.

End SyncEngine.

Section SyncStock.

Context (rt : Runtime).

(** [syncStock], by the way its [try] block ends. *)
Lemma syncStock_run (symbol : string) (from to : option Z) (w : World) :
  let sym := trim (toUpperCase symbol) in
  let result fetched saved range errors :=
    {| sr_symbol := sym; sr_recordsFetched := fetched;
       sr_recordsSaved := saved; sr_dateRange := range;
       sr_errors := errors |} in
  syncStock rt symbol from to w
  = match fetchHistoricalData rt sym from to w with
    | (Throw e, w1) => (Return (result 0 0 (None, None) [getErrorMessage e]), w1)
    | (Return data, w1) =>
        let n := Z.of_nat (List.length data) in
        match data with
        | [] => (Return (result n 0 (None, None) []), w1)
        | _ =>
            match parseDates rt data with
            | Throw e =>
                (Return (result n 0 (None, None) [getErrorMessage e]), w1)
            | Return dates =>
                let range := (Some (extremeDate Z.min dates),
                              Some (extremeDate Z.max dates)) in
                match saveToDatabase rt sym data w1 with
                | (Throw e, w2) =>
                    (Return (result n 0 range [getErrorMessage e]), w2)
                | (Return k, w2) => (Return (result n k range []), w2)
                end
            end
        end
    end.
Proof.
  intros sym result. unfold syncStock, bind, attempt, ret. fold sym.
  destruct (fetchHistoricalData rt sym from to w) as [[data | e] w1];
    [| reflexivity].
  destruct data as [| r data]; [reflexivity |].
  destruct (parseDates rt (r :: data)) as [dates | e]; [| reflexivity].
  destruct (saveToDatabase rt sym (r :: data) w1) as [[k | e] w2];
    reflexivity.
Qed.

(** C5.  For every input and every behaviour of the collaborators,
    [syncStock] returns a [SyncResult] and makes at most one request.
    When the fetch raises, when a date of the payload makes the parser
    raise, or when the store step raises, the message of the error is the
    one entry of [errors] and no record is counted as saved; otherwise
    [errors] is empty.  A request that fails with HTTP 429, with 401 or
    403, with a refused connection or an unknown host, or with a timeout,
    puts the message of its class in [errors] after that single request,
    and the four messages are pairwise distinct. *)
Theorem syncStock_never_raises (symbol : string) (from to : option Z)
    (w : World) :
  let sym := trim (toUpperCase symbol) in
  (exists result w',
     syncStock rt symbol from to w = (Return result, w')
     /\ (apiCalls w' <= S (apiCalls w))%nat
     /\ (forall e w1,
           fetchHistoricalData rt sym from to w = (Throw e, w1) ->
           sr_errors result = [getErrorMessage e]
           /\ sr_recordsSaved result = 0 /\ w' = w1)
     /\ (forall data w1,
           fetchHistoricalData rt sym from to w = (Return data, w1) ->
           data <> [] ->
           (forall e, parseDates rt data = Throw e ->
                      sr_errors result = [getErrorMessage e]
                      /\ sr_recordsSaved result = 0 /\ w' = w1)
           /\ (forall dates, parseDates rt data = Return dates ->
                 (forall e w2,
                     saveToDatabase rt sym data w1 = (Throw e, w2) ->
                     sr_errors result = [getErrorMessage e]
                     /\ sr_recordsSaved result = 0 /\ w' = w2)
                 /\ (forall k w2,
                       saveToDatabase rt sym data w1 = (Return k, w2) ->
                       sr_errors result = []
                       /\ sr_recordsSaved result = k /\ w' = w2)))
     /\ (forall c,
           trim (toUpperCase sym) <> "" -> FMP_API_KEY rt <> "" ->
           HasClass c (api (env w) (apiCalls w)
                         (historicalUrl rt (trim (toUpperCase sym)) from to)) ->
           sr_errors result = [classMessage c]
           /\ apiCalls w' = S (apiCalls w)))
  /\ (forall c1 c2, classMessage c1 = classMessage c2 -> c1 = c2).
Proof.
  intros sym. split; [| apply classMessage_injective].
  pose proof (syncStock_run symbol from to w) as Hrun. cbv zeta in Hrun.
  fold sym in Hrun.
  assert (Hclass : forall c,
             trim (toUpperCase sym) <> "" -> FMP_API_KEY rt <> "" ->
             HasClass c (api (env w) (apiCalls w)
                           (historicalUrl rt (trim (toUpperCase sym)) from to)) ->
             exists e, fetchHistoricalData rt sym from to w
                       = (Throw e, tick_api w)
                       /\ getErrorMessage e = classMessage c).
  { intros c. apply fetchHistoricalData_class. }
  destruct (fetchHistoricalData rt sym from to w) as [[data | e] w1] eqn:Efetch.
  - pose proof (fetchHistoricalData_world rt _ _ _ _ _ _ Efetch) as Hw1.
    assert (Hcalls1 : (apiCalls w1 <= S (apiCalls w))%nat)
      by (destruct Hw1 as [-> | ->]; simpl; lia).
    assert (Hnoclass : forall c,
               trim (toUpperCase sym) <> "" -> FMP_API_KEY rt <> "" ->
               HasClass c (api (env w) (apiCalls w)
                             (historicalUrl rt (trim (toUpperCase sym)) from to)) ->
               False).
    { intros c H1 H2 H3. destruct (Hclass c H1 H2 H3) as (e & He & _).
      discriminate. }
    destruct data as [| r data].
    + eexists _, _. split; [exact Hrun |]. split; [exact Hcalls1 |].
      split; [intros e w2 [=] |]. split.
      * intros data w2 [= <- <-] Hne. now contradiction Hne.
      * intros c H1 H2 H3. destruct (Hnoclass c H1 H2 H3).
    + destruct (parseDates rt (r :: data)) as [dates | e] eqn:Eparse.
      * destruct (saveToDatabase rt sym (r :: data) w1) as [[k | e] w2] eqn:Esave;
          pose proof (saveToDatabase_frame rt _ _ _ _ _ Esave)
            as (_ & _ & _ & _ & Hcalls2 & _);
          (eexists _, _; split; [exact Hrun |]);
          (split; [rewrite Hcalls2; exact Hcalls1 |]);
          (split; [intros e' w3 [=] |]);
          (split; [| intros c H1 H2 H3; destruct (Hnoclass c H1 H2 H3)]);
          intros data' w3 [= <- <-] _; rewrite Eparse, Esave;
          (split; [intros e' [=] |]);
          intros dates' _; split; intros x w3 [= <- <-]; repeat split.
      * eexists _, _. split; [exact Hrun |]. split; [exact Hcalls1 |].
        split; [intros e' w2 [=] |].
        split; [| intros c H1 H2 H3; destruct (Hnoclass c H1 H2 H3)].
        intros data' w2 [= <- <-] _. rewrite Eparse. split.
        -- intros e' [= <-]. repeat split.
        -- intros dates [=].
  - pose proof (fetchHistoricalData_world rt _ _ _ _ _ _ Efetch) as Hw1.
    eexists _, _. split; [exact Hrun |].
    split; [destruct Hw1 as [-> | ->]; simpl; lia |].
    split; [intros e' w2 [= <- <-]; repeat split |].
    split; [intros data w2 [=] |].
    intros c H1 H2 H3. destruct (Hclass c H1 H2 H3) as (e' & [= He Hw] & Hmsg).
    simpl. rewrite He, Hmsg, Hw. now split.
Qed.

End SyncStock.

(** ** Batches *)

Lemma firstn_plus {A} (a b : nat) (l : list A) :
  firstn (a + b) l = (firstn a l ++ firstn b (skipn a l))%list.
Proof.
  revert l. induction a as [| a IH]; intros l; simpl; [reflexivity |].
  destruct l as [| x l]; simpl.
  - now rewrite firstn_nil.
  - now rewrite IH.
Qed.

Lemma upsertAll_app (c : Collaborators) (a b : list NormalizedPriceData)
    (t : list PrismaStockPrice) :
  upsertAll c (a ++ b) t = upsertAll c b (upsertAll c a t).
Proof. unfold upsertAll. apply fold_left_app. Qed.

(** When [k] batches commit and the next one fails, the loop raises the
    database error with the first [k] batches written and nothing else. *)
Lemma saveBatches_abort (l : list NormalizedPriceData) (message : string) :
  forall (k fuel i : nat) (saved : Z) (w : World),
    (k < fuel)%nat ->
    (i + k * batchSize < List.length l)%nat ->
    (forall j, (j < k)%nat -> dbFault (env w) (dbOps w + j) = None) ->
    dbFault (env w) (dbOps w + k) = Some message ->
    exists w',
      saveBatches fuel l i saved w
      = (Throw (DataFetcherError
                  ("Database error while saving data: " ++ message)
                  "DATABASE_ERROR" None), w')
      /\ stock_prices w'
         = upsertAll (env w) (firstn (k * batchSize) (skipn i l))
             (stock_prices w)
      /\ dbOps w' = (dbOps w + S k)%nat
      /\ sameOutsideTable w w'.
Proof.
  induction k as [| k IH]; intros fuel i saved w Hfuel Hlen Hok Hfail.
  - destruct fuel as [| fuel]; [lia |].
    rewrite saveBatches_step.
    assert (Hi : (i <? List.length l)%nat = true) by (apply Nat.ltb_lt; lia).
    rewrite Hi. rewrite Nat.add_0_r in Hfail. rewrite Hfail.
    eexists. split; [reflexivity |]. simpl.
    repeat split. lia.
  - destruct fuel as [| fuel]; [lia |].
    rewrite saveBatches_step.
    rewrite Nat.mul_succ_l in Hlen.
    assert (Hi : (i <? List.length l)%nat = true)
      by (apply Nat.ltb_lt; lia).
    rewrite Hi.
    pose proof (Hok 0%nat ltac:(lia)) as H0. rewrite Nat.add_0_r in H0.
    rewrite H0.
    set (w1 := tick_db (set_stock_prices _ w)).
    destruct (IH fuel (i + batchSize)%nat
                (saved + Z.of_nat (List.length (slice l i (i + batchSize))))
                w1) as (w' & Hrun & Htable & Hops & Hsame).
    + lia.
    + lia.
    + intros j Hj. subst w1. simpl. rewrite <- Nat.add_succ_r.
      apply Hok. lia.
    + subst w1. simpl. rewrite <- Nat.add_succ_r.
      exact Hfail.
    + exists w'. split; [exact Hrun |]. split; [| split].
      * rewrite Htable. subst w1. simpl stock_prices. simpl env.
        rewrite <- upsertAll_app. f_equal.
        replace (S k * batchSize)%nat with (batchSize + k * batchSize)%nat
          by lia.
        rewrite firstn_plus. f_equal.
        -- unfold slice. f_equal. lia.
        -- rewrite skipn_skipn. f_equal. f_equal. lia.
      * rewrite Hops. subst w1. simpl. lia.
      * eapply sameOutsideTable_trans; [| exact Hsame].
        subst w1. repeat split.
Qed.

(** With a database that does not fail, the loop saves every record from
    index [i] on and counts them. *)
Lemma saveBatches_success (l : list NormalizedPriceData) :
  forall (fuel i : nat) (saved : Z) (w : World),
    (List.length l - i <= fuel)%nat ->
    (forall n, dbFault (env w) n = None) ->
    exists w',
      saveBatches fuel l i saved w
      = (Return (saved + Z.of_nat (List.length (skipn i l))), w')
      /\ stock_prices w' = upsertAll (env w) (skipn i l) (stock_prices w)
      /\ sameOutsideTable w w'.
Proof.
  induction fuel as [| fuel IH]; intros i saved w Hfuel Hok.
  - simpl. rewrite skipn_all2 by lia. simpl. rewrite Z.add_0_r.
    exists w. repeat split.
  - rewrite saveBatches_step.
    destruct (Nat.ltb_spec i (List.length l)) as [Hi | Hi].
    + rewrite Hok.
      set (w1 := tick_db (set_stock_prices _ w)).
      destruct (IH (i + batchSize)%nat
                  (saved + Z.of_nat (List.length (slice l i (i + batchSize))))
                  w1) as (w' & Hrun & Htable & Hsame).
      * unfold batchSize. lia.
      * intros n. subst w1. apply Hok.
      * assert (Hsplit : skipn i l
                         = (slice l i (i + batchSize)
                              ++ skipn (i + batchSize) l)%list).
        { unfold slice.
          replace (i + batchSize - i)%nat with batchSize by lia.
          rewrite <- (firstn_skipn batchSize (skipn i l)) at 1.
          rewrite skipn_skipn. do 2 f_equal. lia. }
        exists w'. split; [| split].
        -- rewrite Hrun, Hsplit, length_app. do 2 f_equal. lia.
        -- rewrite Htable, Hsplit, upsertAll_app. reflexivity.
        -- eapply sameOutsideTable_trans; [| exact Hsame].
           subst w1. repeat split.
    + rewrite skipn_all2 by lia. simpl. rewrite Z.add_0_r.
      exists w. repeat split.
Qed.

(** ** Rules for computations *)

Lemma preserves_ret {A} (P : World -> Prop) (Q : A -> Prop) (a : A) :
  Q a -> preserves P (ret a) Q.
Proof. intros Ha w o w' Hw [= <- <-]. split; [exact Hw |]. now intros ? [= <-]. Qed.

Lemma preserves_throw {A} (P : World -> Prop) (Q : A -> Prop) (e : Exn) :
  preserves P (throw e) Q.
Proof. intros w o w' Hw [= <- <-]. split; [exact Hw | discriminate]. Qed.

Lemma preserves_bind {A B} (P : World -> Prop) (m : M A) (k : A -> M B)
    (Q : A -> Prop) (R : B -> Prop) :
  preserves P m Q -> (forall a, Q a -> preserves P (k a) R) ->
  preserves P (bind m k) R.
Proof.
  intros Hm Hk w o w' Hw. unfold bind.
  destruct (m w) as [[a | e] w1] eqn:E.
  - destruct (Hm _ _ _ Hw E) as [Hw1 Ha]. apply (Hk a); auto.
  - intros [= <- <-]. destruct (Hm _ _ _ Hw E) as [Hw1 _].
    split; [exact Hw1 | discriminate].
Qed.

Lemma preserves_tryCatch {A} (P : World -> Prop) (m : M A) (h : Exn -> M A)
    (Q : A -> Prop) :
  preserves P m Q -> (forall e, preserves P (h e) Q) ->
  preserves P (tryCatch m h) Q.
Proof.
  intros Hm Hh w o w' Hw. unfold tryCatch.
  destruct (m w) as [[a | e] w1] eqn:E.
  - intros [= <- <-]. apply (Hm _ _ _ Hw E).
  - destruct (Hm _ _ _ Hw E) as [Hw1 _]. now apply Hh.
Qed.

Lemma preserves_attempt {A} (P : World -> Prop) (m : M A) (Q : A -> Prop) :
  preserves P m Q ->
  preserves P (attempt m)
    (fun o => match o with Return a => Q a | Throw _ => True end).
Proof.
  intros Hm w o w' Hw. unfold attempt.
  destruct (m w) as [o1 w1] eqn:E. intros [= <- <-].
  destruct (Hm _ _ _ Hw E) as [Hw1 Ha]. split; [exact Hw1 |].
  intros o [= <-]. destruct o1; auto.
Qed.

Lemma preserves_weaken {A} (P : World -> Prop) (m : M A) (Q Q' : A -> Prop) :
  (forall a, Q a -> Q' a) -> preserves P m Q -> preserves P m Q'.
Proof.
  intros HQ Hm w o w' Hw E. destruct (Hm _ _ _ Hw E) as [Hw' Ha].
  split; [exact Hw' |]. intros a Ho. apply HQ. now apply Ha.
Qed.

(** ** The table and its unique index *)

Lemma sameKey_rowKey (a b : PrismaStockPrice) :
  sameKey a b = true <-> rowKey a = rowKey b.
Proof.
  unfold sameKey, rowKey. rewrite andb_true_iff, String.eqb_eq, Z.eqb_eq.
  split; [intros [-> ->]; reflexivity | intros [= -> ->]; auto].
Qed.

Lemma upsert_keys (row : PrismaStockPrice) (t : list PrismaStockPrice)
    (k : string * Z) :
  In k (map rowKey (upsert row t)) <-> k = rowKey row \/ In k (map rowKey t).
Proof.
  induction t as [| r t IH]; simpl.
  - intuition.
  - destruct (sameKey row r) eqn:E; simpl.
    + apply sameKey_rowKey in E. rewrite E. intuition.
    + rewrite IH. intuition.
Qed.

Lemma upsert_unique (row : PrismaStockPrice) (t : list PrismaStockPrice) :
  uniqueKeys t -> uniqueKeys (upsert row t).
Proof.
  unfold uniqueKeys. induction t as [| r t IH]; simpl; intros Hnd.
  - repeat constructor. intros [].
  - inversion Hnd as [| ? ? Hnotin Hnd']; subst.
    destruct (sameKey row r) eqn:E; simpl.
    + apply sameKey_rowKey in E. rewrite E. now constructor.
    + constructor; [| now apply IH].
      rewrite upsert_keys. intros [Heq | Hin]; [| contradiction].
      assert (sameKey row r = true) by (apply sameKey_rowKey; congruence).
      congruence.
Qed.

Lemma upsertAll_unique (c : Collaborators) (batch : list NormalizedPriceData)
    (t : list PrismaStockPrice) :
  uniqueKeys t -> uniqueKeys (upsertAll c batch t).
Proof.
  unfold upsertAll. revert t.
  induction batch as [| r batch IH]; intros t Ht; simpl; [exact Ht |].
  apply IH. now apply upsert_unique.
Qed.

(** A selection of rows respects the index the table respects. *)
Lemma filter_unique (keep : PrismaStockPrice -> bool)
    (table : list PrismaStockPrice) :
  uniqueKeys table -> uniqueKeys (filter keep table).
Proof.
  unfold uniqueKeys.
  induction table as [| r table IH]; simpl; intros Hnd; [constructor |].
  inversion Hnd as [| ? ? Hfresh Hrest]; subst.
  destruct (keep r); simpl; [| now apply IH].
  constructor; [| now apply IH].
  intros Hin. apply Hfresh.
  apply in_map_iff in Hin. destruct Hin as (r' & Hkey & Hr').
  apply in_map_iff. exists r'. split; [exact Hkey |].
  apply filter_In in Hr'. tauto.
Qed.

Lemma uniqueKeys_days (symbol : string) (l : list PrismaStockPrice) :
  uniqueKeys l -> Forall (fun r => p_symbol r = symbol) l ->
  NoDup (map p_day l).
Proof.
  unfold uniqueKeys. induction l as [| r l IH]; simpl; intros Hnd Hall;
    [constructor |].
  inversion Hnd as [| ? ? Hnotin Hnd']; subst.
  inversion Hall as [| ? ? Hr Hall']; subst.
  constructor; [| now apply IH].
  rewrite in_map_iff in *. intros (y & Heq & Hy).
  apply Hnotin. exists y. split; [| exact Hy].
  rewrite Forall_forall in Hall'. unfold rowKey.
  now rewrite Heq, (Hall' y Hy).
Qed.

(** Rows ascending by day convert to records ascending by calendar day. *)
Lemma convert_ascending (rows : list PrismaStockPrice) :
  StronglySorted (key_lt p_day) rows ->
  ascendingDays (convertPrismaToStockPriceData rows).
Proof.
  unfold ascendingDays, convertPrismaToStockPriceData.
  induction 1 as [| r rows Hs IH Hall]; simpl; constructor; [exact IH |].
  rewrite Forall_forall in *. intros x Hx.
  apply in_map_iff in Hx. destruct Hx as (y & <- & Hy).
  specialize (Hall y Hy). unfold key_lt, dayKey, getDateKey, p_date in *.
  simpl. rewrite !Z.div_mul by (unfold MS_PER_DAY; lia). exact Hall.
Qed.

(** Ascending by calendar day is strictly ascending by date. *)
Lemma ascendingDays_dates (data : list StockPriceData) :
  ascendingDays data ->
  StronglySorted (key_lt sp_date) data /\ NoDup (map sp_date data).
Proof.
  intros H.
  assert (Hs : StronglySorted (key_lt sp_date) data).
  { induction H as [| x l Hs IH Hall]; constructor; [exact IH |].
    eapply Forall_impl; [| exact Hall].
    unfold key_lt, dayKey, getDateKey. intros y Hlt.
    destruct (Z.lt_ge_cases (sp_date x) (sp_date y)) as [Hxy | Hyx];
      [exact Hxy |].
    apply (Z.div_le_mono _ _ MS_PER_DAY) in Hyx;
      [lia | unfold MS_PER_DAY; lia]. }
  split; [exact Hs | now apply strict_sorted_NoDup_keys].
Qed.

(** ** The invariant, operation by operation *)

Lemma consistent_same (w w' : World) :
  stock_prices w' = stock_prices w -> historyCache w' = historyCache w ->
  ratioCache w' = ratioCache w ->
  consistent w -> consistent w'.
Proof. unfold consistent. intros -> -> ->. auto. Qed.

Lemma consistent_empty (c : Collaborators) (cs : CacheService) :
  consistent (emptyWorld c cs).
Proof. split; [constructor | split; discriminate]. Qed.

Lemma newDate_preserves : preserves consistent newDate (fun _ => True).
Proof. intros w o w' Hw [= <- <-]. split; [exact Hw | auto]. Qed.

Lemma getStockHistory_preserves (symbol timeframe : string) :
  preserves consistent (getStockHistory symbol timeframe)
    (fun cached => forall hit, cached = Some hit -> ascendingDays hit).
Proof.
  intros w o w' Hw. unfold getStockHistory.
  destruct (isAvailable w); intros [= <- <-]; (split; [exact Hw |]).
  - intros a [= <-] hit Hhit.
    destruct (historyCache w _) as [entry |] eqn:E; [| discriminate].
    injection Hhit as <-. destruct Hw as (_ & Hcache & _).
    now apply (Hcache _ _ E).
  - intros a [= <-] hit [=].
Qed.

Lemma setStockHistory_preserves (symbol timeframe : string)
    (data : list StockPriceData) :
  ascendingDays data ->
  preserves consistent (setStockHistory symbol timeframe data) (fun _ => True).
Proof.
  intros Hdata w o w' Hw. unfold setStockHistory.
  destruct (isAvailable w); intros [= <- <-]; (split; [| auto]);
    [| exact Hw].
  destruct Hw as (Htable & Hcache & Hratio).
  split; [exact Htable |]. split; [| exact Hratio].
  intros key entry. simpl. unfold update.
  destruct (_ =? key)%string; [| apply Hcache].
  intros [= <-]. exact Hdata.
Qed.

Lemma cache_getPriceRatio_preserves (symbol1 symbol2 timeframe : string) :
  preserves consistent (cache_getPriceRatio symbol1 symbol2 timeframe)
    (fun cached => forall hit, cached = Some hit -> computedRatios hit).
Proof.
  intros w o w' Hw. unfold cache_getPriceRatio.
  destruct (isAvailable w); intros [= <- <-]; (split; [exact Hw |]).
  - intros a [= <-] hit Hhit.
    destruct (ratioCache w _) as [entry |] eqn:E; [| discriminate].
    injection Hhit as <-. destruct Hw as (_ & _ & Hratio).
    now apply (Hratio _ _ E).
  - intros a [= <-] hit [=].
Qed.

Lemma setPriceRatio_preserves (symbol1 symbol2 timeframe : string)
    (data : list RatioData) :
  computedRatios data ->
  preserves consistent (setPriceRatio symbol1 symbol2 timeframe data)
    (fun _ => True).
Proof.
  intros Hdata w o w' Hw. unfold setPriceRatio.
  destruct (isAvailable w); intros [= <- <-]; (split; [| auto]);
    [| exact Hw].
  destruct Hw as (Htable & Hcache & Hratio).
  split; [exact Htable |]. split; [exact Hcache |].
  intros key entry. simpl. unfold update.
  destruct (_ =? key)%string; [| apply Hratio].
  intros [= <-]. exact Hdata.
Qed.

Lemma queryDatabase_preserves (symbol : string) (from to : Z) :
  preserves consistent (queryDatabase symbol from to)
    (fun rows => StronglySorted (key_lt p_day) rows).
Proof.
  intros w o w' Hw. unfold queryDatabase.
  destruct (dbFault (env w) (dbOps w)); intros [= <- <-];
    (split; [exact Hw |]); [discriminate |].
  intros rows [= <-]. apply sort_by_strict.
  destruct Hw as (Htable & _).
  apply (uniqueKeys_days symbol).
  - now apply filter_unique.
  - rewrite Forall_forall. intros r Hr. apply filter_In in Hr.
    destruct Hr as [_ Hr]. apply andb_prop in Hr. destruct Hr as [Hr _].
    apply andb_prop in Hr. destruct Hr as [Hr _].
    now apply String.eqb_eq in Hr.
Qed.

Lemma transaction_preserves (batch : list NormalizedPriceData) :
  preserves consistent (transaction batch) (fun _ => True).
Proof.
  intros w o w' Hw. unfold transaction.
  destruct (dbFault (env w) (dbOps w)); intros [= <- <-];
    (split; [| auto]); [exact Hw |].
  destruct Hw as (Htable & Hcache). split; [| exact Hcache].
  now apply upsertAll_unique.
Qed.

Lemma saveBatches_preserves (fuel : nat) (l : list NormalizedPriceData) :
  forall i saved, preserves consistent (saveBatches fuel l i saved) (fun _ => True).
Proof.
  induction fuel as [| fuel IH]; intros i saved; simpl.
  - now apply preserves_ret.
  - destruct (i <? List.length l)%nat; [| now apply preserves_ret].
    eapply preserves_bind; [| intros ? _; apply IH].
    apply preserves_tryCatch; [apply transaction_preserves |].
    intros e. apply preserves_throw.
Qed.

Section Invariant.

Context (rt : Runtime).

Lemma saveToDatabase_preserves (symbol : string)
    (data : list FMPHistoricalPrice) :
  preserves consistent (saveToDatabase rt symbol data) (fun _ => True).
Proof.
  unfold saveToDatabase. destruct data; [now apply preserves_ret |].
  destruct (validateAndNormalize rt _ _); [now apply preserves_ret |].
  apply saveBatches_preserves.
Qed.

Lemma fetchHistoricalData_preserves (symbol : string) (from to : option Z) :
  preserves consistent (fetchHistoricalData rt symbol from to) (fun _ => True).
Proof.
  intros w o w' Hw E.
  destruct (fetchHistoricalData_world rt _ _ _ _ _ _ E) as [-> | ->];
    (split; [exact Hw | auto]).
Qed.

Lemma syncStock_preserves (symbol : string) (from to : option Z) :
  preserves consistent (syncStock rt symbol from to) (fun _ => True).
Proof.
  unfold syncStock.
  eapply preserves_bind;
    [apply preserves_attempt, fetchHistoricalData_preserves |].
  intros [data | e] _; [| now apply preserves_ret].
  destruct data; [now apply preserves_ret |].
  destruct (parseDates rt _); [| now apply preserves_ret].
  eapply preserves_bind;
    [apply preserves_attempt, saveToDatabase_preserves |].
  intros [k | e] _; now apply preserves_ret.
Qed.

Lemma calculateDateRange_preserves (timeframe : string) :
  preserves consistent (calculateDateRange rt timeframe) (fun _ => True).
Proof.
  unfold calculateDateRange.
  eapply preserves_bind; [apply newDate_preserves |].
  intros now _. now apply preserves_ret.
Qed.

Lemma needsDataRefresh_preserves (symbol timeframe : string)
    (data : list PrismaStockPrice) :
  preserves consistent (needsDataRefresh rt symbol timeframe data)
    (fun _ => True).
Proof.
  unfold needsDataRefresh. destruct data; [now apply preserves_ret |].
  eapply preserves_bind with (Q := fun _ => True).
  - destruct (_ =? "YTD")%string; [| now apply preserves_ret].
    eapply preserves_bind; [apply newDate_preserves |].
    intros now _. now apply preserves_ret.
  - intros tooFew _. destruct tooFew; [now apply preserves_ret |].
    eapply preserves_bind; [apply newDate_preserves |].
    intros now _. now apply preserves_ret.
Qed.

Lemma historyFromStore_preserves (symbol timeframe : string) :
  preserves consistent (historyFromStore rt symbol timeframe) ascendingDays.
Proof.
  unfold historyFromStore.
  eapply preserves_bind; [apply calculateDateRange_preserves |].
  intros [from to] _.
  eapply preserves_bind; [apply queryDatabase_preserves |].
  intros dbData Hdb.
  eapply preserves_bind; [apply needsDataRefresh_preserves |].
  intros refresh _.
  eapply preserves_bind
    with (Q := fun rows => StronglySorted (key_lt p_day) rows).
  - destruct refresh; [| now apply preserves_ret].
    apply preserves_tryCatch; [| intros e; now apply preserves_ret].
    eapply preserves_bind; [apply syncStock_preserves |].
    intros syncResult _.
    destruct (sr_errors syncResult); [| now apply preserves_ret].
    destruct (0 <? sr_recordsSaved syncResult);
      [apply queryDatabase_preserves | now apply preserves_ret].
  - intros rows Hrows. pose proof (convert_ascending rows Hrows) as Hasc.
    eapply preserves_bind with (Q := fun _ => True).
    + destruct (convertPrismaToStockPriceData rows) eqn:E;
        [now apply preserves_ret |].
      apply setStockHistory_preserves.
      unfold prepareForCache. now rewrite map_id.
    + intros _ _. now apply preserves_ret.
Qed.

(** A history read keeps the invariant and returns records strictly
    ascending by calendar day. *)
Lemma getHistoricalData_preserves (symbol timeframe : string) :
  preserves consistent (getHistoricalData rt symbol timeframe) ascendingDays.
Proof.
  unfold getHistoricalData.
  destruct (negb (isValidTimeframe (toUpperCase timeframe)));
    [apply preserves_throw |].
  eapply preserves_bind; [apply getStockHistory_preserves |].
  intros cached Hcached.
  destruct cached as [[| x hit] |]; try apply historyFromStore_preserves.
  apply preserves_ret. unfold rehydrateDates. rewrite map_id.
  now apply Hcached.
Qed.

End Invariant.

(** ** History reads *)

Section History.

Context (rt : Runtime).

Lemma ratioFromHistory_preserves (sym1 sym2 timeframe : string) :
  preserves consistent (ratioFromHistory rt sym1 sym2 timeframe)
    computedRatios.
Proof.
  unfold ratioFromHistory.
  eapply preserves_bind;
    [apply preserves_attempt, getHistoricalData_preserves |].
  intros r1 H1.
  eapply preserves_bind;
    [apply preserves_attempt, getHistoricalData_preserves |].
  intros r2 H2.
  destruct r1 as [data1 | e1]; [| apply preserves_throw].
  destruct r2 as [data2 | e2]; [| apply preserves_throw].
  destruct data1 as [| a1 l1]; [apply preserves_throw |].
  destruct data2 as [| a2 l2]; [apply preserves_throw |].
  assert (Hc : computedRatios
                 (sort_by rd_date (calculateRatios (a1 :: l1) (a2 :: l2))))
    by (exists (a1 :: l1), (a2 :: l2); auto).
  eapply preserves_bind with (Q := fun _ => True).
  - destruct (sort_by rd_date _) eqn:E; [now apply preserves_ret |].
    now apply setPriceRatio_preserves.
  - intros _ _. now apply preserves_ret.
Qed.

Lemma getPriceRatio_preserves (symbol1 symbol2 timeframe : string) :
  preserves consistent (getPriceRatio rt symbol1 symbol2 timeframe)
    computedRatios.
Proof.
  unfold getPriceRatio.
  eapply preserves_bind; [apply cache_getPriceRatio_preserves |].
  intros cached Hcached.
  destruct cached as [[| x hit] |]; try apply ratioFromHistory_preserves.
  apply preserves_ret. unfold rehydrateDates. rewrite map_id.
  now apply Hcached.
Qed.

(** Every world the services reach is consistent. *)
Lemma reachable_consistent (w : World) : reachable rt w -> consistent w.
Proof.
  induction 1 as [c cs | w symbol timeframe _ IH
                 | w symbol1 symbol2 timeframe _ IH
                 | w symbol from to _ IH | w gone _ IH].
  - apply consistent_empty.
  - destruct (getHistoricalData rt symbol timeframe w) as [o w'] eqn:E.
    exact (proj1 (getHistoricalData_preserves rt _ _ _ _ _ IH E)).
  - destruct (getPriceRatio rt symbol1 symbol2 timeframe w) as [o w'] eqn:E.
    exact (proj1 (getPriceRatio_preserves _ _ _ _ _ _ IH E)).
  - destruct (syncStock rt symbol from to w) as [o w'] eqn:E.
    exact (proj1 (syncStock_preserves rt _ _ _ _ _ _ IH E)).
  - destruct IH as (Htable & Hcache & Hratio). split; [exact Htable |].
    split; intros key entry; simpl; (destruct (gone key); [discriminate |]);
      [apply Hcache | apply Hratio].
Qed.

(** C1.  In a world where the table respects its unique index on (symbol,
    date) and the cached histories are the ones earlier reads stored, as
    in every world the services reach, the records [getHistoricalData]
    returns for a symbol and a timeframe are strictly ascending by date
    and no two of them have the same date, whichever way the result is
    obtained: from the cache, from the table, or from the table queried
    again after a sync; and the world it leaves is again such a world. *)
Theorem getHistoricalData_ascending (w : World) (symbol timeframe : string)
    (result : list StockPriceData) :
  consistent w ->
  fst (getHistoricalData rt symbol timeframe w) = Return result ->
  StronglySorted (key_lt sp_date) result
  /\ NoDup (map sp_date result)
  /\ consistent (snd (getHistoricalData rt symbol timeframe w)).
Proof.
  intros Hw Hres.
  destruct (getHistoricalData rt symbol timeframe w) as [o w'] eqn:E.
  simpl in Hres. subst o.
  destruct (getHistoricalData_preserves rt _ _ _ _ _ Hw E) as [Hw' Hasc].
  destruct (ascendingDays_dates result (Hasc _ eq_refl)) as [Hs Hnd].
  auto.
Qed.

End History.

(** ** Price ratios *)

Lemma calculateRatios_lookup (data1 data2 : list StockPriceData) :
  calculateRatios data1 data2
  = flat_map
      (fun item1 =>
         match lastWithKey dayKey (dayKey item1) data2 with
         | Some item2 =>
             if negb (is_zero (sp_close item2))
             then [ratioPoint item1 item2] else []
         | None => []
         end)
      data1.
Proof.
  unfold calculateRatios. apply flat_map_ext. intros item1.
  change (fold_left _ data2 []) with (buildMap dayKey data2 []).
  change (getDateKey (sp_date item1)) with (dayKey item1).
  rewrite map_get_buildMap. simpl.
  now destruct (lastWithKey dayKey (dayKey item1) data2).
Qed.

(** Every point comes from a record of the first series and a record of
    the second on the same day with a close that is not zero. *)
Lemma calculateRatios_sound (data1 data2 : list StockPriceData) (p : RatioData) :
  In p (calculateRatios data1 data2) ->
  exists item1 item2,
    In item1 data1 /\ In item2 data2 /\ dayKey item2 = dayKey item1
    /\ is_zero (sp_close item2) = false /\ p = ratioPoint item1 item2.
Proof.
  rewrite calculateRatios_lookup, in_flat_map.
  intros (item1 & H1 & Hp).
  destruct (lastWithKey dayKey (dayKey item1) data2) as [item2 |] eqn:E;
    [| destruct Hp].
  destruct (is_zero (sp_close item2)) eqn:Ez; simpl in Hp; [destruct Hp |].
  destruct Hp as [<- | []].
  apply lastWithKey_Some in E. destruct E as [H2 Hk].
  exists item1, item2. auto.
Qed.

(** When the second series has one record a day, every such pair of
    records gives a point. *)
Lemma calculateRatios_complete (data1 data2 : list StockPriceData)
    (item1 item2 : StockPriceData) :
  NoDup (map dayKey data2) ->
  In item1 data1 -> In item2 data2 -> dayKey item2 = dayKey item1 ->
  is_zero (sp_close item2) = false ->
  In (ratioPoint item1 item2) (calculateRatios data1 data2).
Proof.
  intros Hnd H1 H2 Hk Hz.
  rewrite calculateRatios_lookup, in_flat_map. exists item1.
  split; [exact H1 |].
  rewrite <- Hk, (lastWithKey_NoDup dayKey data2 item2 Hnd H2), Hz.
  now left.
Qed.

(** The points follow the order of the first series, one at most for each
    of its records. *)
Lemma calculateRatios_ascending (data1 data2 : list StockPriceData) :
  ascendingDays data1 ->
  StronglySorted (key_lt (fun p => getDateKey (rd_date p)))
    (calculateRatios data1 data2).
Proof.
  rewrite calculateRatios_lookup. unfold ascendingDays.
  induction 1 as [| x l Hs IH Hall]; simpl; [constructor |].
  assert (Hrest :
    Forall (key_lt (fun p => getDateKey (rd_date p))
                   {| rd_date := sp_date x; rd_ratio := num_zero;
                      rd_symbol1Price := num_zero;
                      rd_symbol2Price := num_zero |})
      (flat_map
         (fun item1 =>
            match lastWithKey dayKey (dayKey item1) data2 with
            | Some item2 =>
                if negb (is_zero (sp_close item2))
                then [ratioPoint item1 item2] else []
            | None => []
            end) l)).
  { rewrite Forall_forall in *. intros p Hp.
    rewrite <- calculateRatios_lookup in Hp.
    apply calculateRatios_sound in Hp.
    destruct Hp as (item1 & item2 & H1 & _ & _ & _ & ->).
    exact (Hall item1 H1). }
  destruct (lastWithKey dayKey (dayKey x) data2) as [item2 |]; [| exact IH].
  destruct (negb (is_zero (sp_close item2))); [| exact IH].
  simpl. constructor; [exact IH | exact Hrest].
Qed.

Lemma calculateRatios_length (data1 data2 : list StockPriceData) :
  (List.length (calculateRatios data1 data2) <= List.length data1)%nat.
Proof.
  rewrite calculateRatios_lookup.
  induction data1 as [| x l IH]; simpl; [lia |].
  rewrite length_app.
  destruct (lastWithKey dayKey (dayKey x) data2) as [item2 |]; simpl; [| lia].
  destruct (negb (is_zero (sp_close item2))); simpl; lia.
Qed.

(** What the matching loop and the sort give for a first series that is
    ascending by calendar day and a second with one record a day. *)
Lemma ratios_spec (data1 data2 : list StockPriceData) :
  ascendingDays data1 -> ascendingDays data2 ->
  let ratios := sort_by rd_date (calculateRatios data1 data2) in
  ratios = calculateRatios data1 data2
  /\ (List.length ratios <= Nat.min (List.length data1) (List.length data2))%nat
  /\ (forall p, In p ratios ->
                rd_ratio p = num_div (rd_symbol1Price p) (rd_symbol2Price p)
                /\ is_zero (rd_symbol2Price p) = false)
  /\ (forall p, In p ratios <->
                exists item1 item2,
                  In item1 data1 /\ In item2 data2
                  /\ dayKey item2 = dayKey item1
                  /\ is_zero (sp_close item2) = false
                  /\ p = ratioPoint item1 item2)
  /\ StronglySorted (key_lt rd_date) ratios.
Proof.
  intros H1 H2 ratios.
  pose proof (calculateRatios_ascending data1 data2 H1) as Hdays.
  assert (Hdates : StronglySorted (key_lt rd_date) (calculateRatios data1 data2)).
  { induction Hdays as [| x l Hs IH Hall]; constructor; [exact IH |].
    eapply Forall_impl; [| exact Hall].
    unfold key_lt, getDateKey. intros y Hlt.
    destruct (Z.lt_ge_cases (rd_date x) (rd_date y)) as [Hxy | Hyx];
      [exact Hxy |].
    apply (Z.div_le_mono _ _ MS_PER_DAY) in Hyx;
      [lia | unfold MS_PER_DAY; lia]. }
  assert (Hid : ratios = calculateRatios data1 data2).
  { subst ratios. apply sort_by_sorted_id. now apply strict_sorted_le. }
  rewrite Hid.
  pose proof (strict_sorted_NoDup_keys dayKey data2 H2) as Hnd2.
  split; [reflexivity |]. split; [| split; [| split]].
  - apply Nat.min_glb; [apply calculateRatios_length |].
    pose proof (strict_sorted_NoDup_keys _ _ Hdays) as Hnd.
    rewrite <- (length_map (fun p => getDateKey (rd_date p))).
    rewrite <- (length_map dayKey data2).
    apply NoDup_incl_length; [exact Hnd |].
    intros k Hk. apply in_map_iff in Hk. destruct Hk as (p & <- & Hp).
    apply calculateRatios_sound in Hp.
    destruct Hp as (item1 & item2 & _ & Hin2 & Hk & _ & ->).
    simpl. fold (dayKey item1). rewrite <- Hk. now apply in_map.
  - intros p Hp. apply calculateRatios_sound in Hp.
    destruct Hp as (item1 & item2 & _ & _ & _ & Hz & ->). now split.
  - intros p. split; [apply calculateRatios_sound |].
    intros (item1 & item2 & Hi1 & Hi2 & Hk & Hz & ->).
    now apply calculateRatios_complete.
  - exact Hdates.
Qed.

Lemma upper_ascii_idem (c : ascii) : upper_ascii (upper_ascii c) = upper_ascii c.
Proof. destruct c as [[] [] [] [] [] [] [] []]; reflexivity. Qed.

Lemma toUpperCase_idem (s : string) : toUpperCase (toUpperCase s) = toUpperCase s.
Proof.
  induction s as [| c s IH]; simpl; [reflexivity |].
  now rewrite upper_ascii_idem, IH.
Qed.

Section Ratio.

Context (rt : Runtime).

Lemma getPriceRatio_lookup (symbol1 symbol2 timeframe : string) (w : World) :
  getPriceRatio rt symbol1 symbol2 timeframe w
  = match ratioCacheLookup w (trim (toUpperCase symbol1))
            (trim (toUpperCase symbol2)) (toUpperCase timeframe) with
    | Some ((_ :: _) as hit) => (Return hit, tick_cache w)
    | _ => ratioFromHistory rt (trim (toUpperCase symbol1))
             (trim (toUpperCase symbol2)) (toUpperCase timeframe)
             (tick_cache w)
    end.
Proof.
  unfold getPriceRatio, bind, cache_getPriceRatio, ratioCacheLookup.
  destruct (isAvailable w); [| reflexivity].
  destruct (ratioCache w _) as [[[| x hit] ttl] |]; simpl; try reflexivity.
  unfold ret, rehydrateDates. now rewrite map_id.
Qed.

(** A history read with a timeframe outside the enum fails at once. *)
Lemma getHistoricalData_invalid (symbol timeframe : string) (w : World) :
  isValidTimeframe timeframe = false ->
  getHistoricalData rt symbol timeframe w
  = (Throw (StockServiceError
              ("Invalid timeframe: " ++ timeframe
                 ++ ". Valid values: 5Y, 1Y, YTD, 1M, 1W")
              "INVALID_TIMEFRAME" (Some (trim (toUpperCase symbol)))), w).
Proof.
  intros Hbad. unfold getHistoricalData.
  assert (H : isValidTimeframe (toUpperCase timeframe) = false).
  { unfold isValidTimeframe in *. now rewrite toUpperCase_idem. }
  now rewrite H.
Qed.

(** C10.  For every timeframe string that is not, once in upper case, one
    of the enum: when the cache answers the lookup under the (symbol1,
    symbol2, timeframe) key with a non-empty entry, [getPriceRatio]
    returns that entry, and no timeframe is validated; in every other
    case the call fails with the INVALID_TIMEFRAME error that
    [getHistoricalData] raises for the first symbol on that timeframe. *)
Theorem getPriceRatio_cache_before_validation
    (symbol1 symbol2 timeframe : string) (w : World) :
  isValidTimeframe timeframe = false ->
  let sym1 := trim (toUpperCase symbol1) in
  let sym2 := trim (toUpperCase symbol2) in
  let tf := toUpperCase timeframe in
  let invalid :=
    StockServiceError
      ("Invalid timeframe: " ++ tf ++ ". Valid values: 5Y, 1Y, YTD, 1M, 1W")
      "INVALID_TIMEFRAME" (Some (trim (toUpperCase sym1))) in
  match ratioCacheLookup w sym1 sym2 tf with
  | Some ((_ :: _) as hit) =>
      getPriceRatio rt symbol1 symbol2 timeframe w = (Return hit, tick_cache w)
  | _ =>
      getPriceRatio rt symbol1 symbol2 timeframe w = (Throw invalid, tick_cache w)
      /\ getHistoricalData rt sym1 tf (tick_cache w)
         = (Throw invalid, tick_cache w)
  end.
Proof.
  intros Hbad sym1 sym2 tf invalid.
  assert (Htf : isValidTimeframe tf = false).
  { unfold isValidTimeframe in *. subst tf. now rewrite toUpperCase_idem. }
  rewrite getPriceRatio_lookup. fold sym1 sym2 tf.
  assert (Hmiss : ratioFromHistory rt sym1 sym2 tf (tick_cache w)
                  = (Throw invalid, tick_cache w)
                  /\ getHistoricalData rt sym1 tf (tick_cache w)
                     = (Throw invalid, tick_cache w)).
  { split; [| now apply getHistoricalData_invalid].
    unfold ratioFromHistory, bind, attempt.
    rewrite !(getHistoricalData_invalid _ _ _ Htf). reflexivity. }
  destruct (ratioCacheLookup w sym1 sym2 tf) as [[| x hit] |];
    [exact Hmiss | reflexivity | exact Hmiss].
Qed.

(** C3.  In a world as the services reach it, every sequence
    [getPriceRatio] returns was computed from two series, each strictly
    ascending by calendar day as [getHistoricalData] returns them, and on
    a cache miss they are the series the call has just read for the two
    symbols.  The sequence has at most as many points as the shorter
    series; every point has [ratio = symbol1Price / symbol2Price] and a
    [symbol2Price] that is not zero; the points are exactly those of the
    records of the first series whose calendar day has a record in the
    second series with a close that is not zero, one point for each, in
    ascending order of date. *)
Theorem getPriceRatio_computed (symbol1 symbol2 timeframe : string)
    (w : World) (ratios : list RatioData) :
  let sym1 := trim (toUpperCase symbol1) in
  let sym2 := trim (toUpperCase symbol2) in
  let tf := toUpperCase timeframe in
  consistent w ->
  fst (getPriceRatio rt symbol1 symbol2 timeframe w) = Return ratios ->
  exists data1 data2,
    ascendingDays data1 /\ ascendingDays data2
    /\ (ratioCacheLookup w sym1 sym2 tf = None
        \/ ratioCacheLookup w sym1 sym2 tf = Some [] ->
        exists w1,
          getHistoricalData rt sym1 tf (tick_cache w) = (Return data1, w1)
          /\ fst (getHistoricalData rt sym2 tf w1) = Return data2)
    /\ (List.length ratios
        <= Nat.min (List.length data1) (List.length data2))%nat
    /\ (forall p, In p ratios ->
                  rd_ratio p = num_div (rd_symbol1Price p) (rd_symbol2Price p)
                  /\ is_zero (rd_symbol2Price p) = false)
    /\ (forall p, In p ratios <->
                  exists item1 item2,
                    In item1 data1 /\ In item2 data2
                    /\ dayKey item2 = dayKey item1
                    /\ is_zero (sp_close item2) = false
                    /\ p = ratioPoint item1 item2)
    /\ StronglySorted (key_lt rd_date) ratios.
Proof.
  intros sym1 sym2 tf Hw Hres.
  rewrite getPriceRatio_lookup in Hres. fold sym1 sym2 tf in Hres.
  assert (Hmiss :
    fst (ratioFromHistory rt sym1 sym2 tf (tick_cache w)) = Return ratios ->
    exists data1 data2 w1,
      getHistoricalData rt sym1 tf (tick_cache w) = (Return data1, w1)
      /\ fst (getHistoricalData rt sym2 tf w1) = Return data2
      /\ ascendingDays data1 /\ ascendingDays data2
      /\ ratios = sort_by rd_date (calculateRatios data1 data2)).
  { intros Hrun. unfold ratioFromHistory, bind, attempt in Hrun.
    assert (Hw0 : consistent (tick_cache w)) by exact Hw.
    destruct (getHistoricalData rt sym1 tf (tick_cache w))
      as [o1 w1] eqn:E1.
    destruct (getHistoricalData rt sym2 tf w1) as [o2 w2] eqn:E2.
    destruct o1 as [data1 | e1]; [| discriminate Hrun].
    destruct o2 as [data2 | e2]; [| discriminate Hrun].
    destruct (getHistoricalData_preserves rt _ _ _ _ _ Hw0 E1) as [Hw1 Hasc1].
    specialize (Hasc1 _ eq_refl).
    destruct (getHistoricalData_preserves rt _ _ _ _ _ Hw1 E2) as [Hw2 Hasc2].
    specialize (Hasc2 _ eq_refl).
    destruct data1 as [| a1 l1]; [discriminate Hrun |].
    destruct data2 as [| a2 l2]; [discriminate Hrun |].
    exists (a1 :: l1), (a2 :: l2), w1.
    split; [reflexivity |]. split; [now rewrite E2 |].
    split; [exact Hasc1 |]. split; [exact Hasc2 |].
    unfold ret in Hrun.
    destruct (sort_by rd_date (calculateRatios (a1 :: l1) (a2 :: l2)));
      [now injection Hrun |].
    destruct (setPriceRatio sym1 sym2 tf (r :: l) w2) as [[[] | e] w3] eqn:E3.
    - now injection Hrun.
    - exfalso. unfold setPriceRatio in E3.
      destruct (isAvailable w2); discriminate E3. }
  assert (Hfrom : forall data1 data2,
             ascendingDays data1 -> ascendingDays data2 ->
             ratios = sort_by rd_date (calculateRatios data1 data2) ->
             (List.length ratios
              <= Nat.min (List.length data1) (List.length data2))%nat
             /\ (forall p, In p ratios ->
                    rd_ratio p
                    = num_div (rd_symbol1Price p) (rd_symbol2Price p)
                    /\ is_zero (rd_symbol2Price p) = false)
             /\ (forall p, In p ratios <->
                    exists item1 item2,
                      In item1 data1 /\ In item2 data2
                      /\ dayKey item2 = dayKey item1
                      /\ is_zero (sp_close item2) = false
                      /\ p = ratioPoint item1 item2)
             /\ StronglySorted (key_lt rd_date) ratios).
  { intros data1 data2 H1 H2 ->.
    destruct (ratios_spec data1 data2 H1 H2) as (_ & H). exact H. }
  destruct (ratioCacheLookup w sym1 sym2 tf) as [[| x hit] |] eqn:Elook.
  - destruct (Hmiss Hres) as (data1 & data2 & w1 & E1 & E2 & H1 & H2 & Heq).
    exists data1, data2. split; [exact H1 |]. split; [exact H2 |].
    split; [intros _; exists w1; auto |]. now apply Hfrom.
  - simpl in Hres. injection Hres as <-.
    assert (Hc : computedRatios (x :: hit)).
    { unfold ratioCacheLookup in Elook.
      destruct (isAvailable w); [| discriminate].
      destruct (ratioCache w _) as [entry |] eqn:E; [| discriminate].
      injection Elook as Hv. rewrite <- Hv.
      destruct Hw as (_ & _ & Hratio). exact (Hratio _ _ E). }
    destruct Hc as (data1 & data2 & H1 & H2 & Heq).
    exists data1, data2. split; [exact H1 |]. split; [exact H2 |].
    split; [intros [H | H]; discriminate H |]. now apply Hfrom.
  - destruct (Hmiss Hres) as (data1 & data2 & w1 & E1 & E2 & H1 & H2 & Heq).
    exists data1, data2. split; [exact H1 |]. split; [exact H2 |].
    split; [intros _; exists w1; auto |]. now apply Hfrom.
Qed.

End Ratio.

(* ====================================================================== *)
(** * The properties on the scenarios                                      *)
(* ====================================================================== *)

Lemma storedWorld_consistent : consistent Scenario.storedWorld.
Proof.
  split; [| split; intros key entry; discriminate].
  unfold uniqueKeys.
  let l := eval vm_compute in (map rowKey (stock_prices Scenario.storedWorld)) in
  change (map rowKey (stock_prices Scenario.storedWorld)) with l.
  repeat constructor; simpl; intuition congruence.
Qed.

(** The history of AAPL over a week, read from the table on January 10:
    the five stored days, in ascending order. *)
Lemma getHistoricalData_ascending_witness :
  exists result,
    fst (getHistoricalData Scenario.rt "aapl" "1w" Scenario.storedWorld)
    = Return result
    /\ List.length result = 5%nat
    /\ StronglySorted (key_lt sp_date) result
    /\ NoDup (map sp_date result)
    /\ consistent
         (snd (getHistoricalData Scenario.rt "aapl" "1w" Scenario.storedWorld)).
Proof.
  eexists. split; [vm_compute; reflexivity |]. split; [reflexivity |].
  apply (getHistoricalData_ascending Scenario.rt Scenario.storedWorld
           "aapl" "1w").
  - exact storedWorld_consistent.
  - vm_compute. reflexivity.
Defined.

(** The second read of the same history is answered by the cache, without
    a database operation, and is the same list. *)
Example getHistoricalData_cache_hit :
  fst (getHistoricalData Scenario.rt "aapl" "1w"
         (snd (getHistoricalData Scenario.rt "aapl" "1w" Scenario.storedWorld)))
  = fst (getHistoricalData Scenario.rt "aapl" "1w" Scenario.storedWorld)
  /\ dbOps (snd (getHistoricalData Scenario.rt "aapl" "1w"
                   (snd (getHistoricalData Scenario.rt "aapl" "1w"
                           Scenario.storedWorld))))
     = dbOps (snd (getHistoricalData Scenario.rt "aapl" "1w"
                     Scenario.storedWorld)).
Proof. split; vm_compute; reflexivity. Qed.

(** A symbol with no stored row and a market data source that answers:
    one request, 150 rows stored, and the ten days of the year so far
    returned in ascending order. *)
Example getHistoricalData_after_sync :
  option_map (map (fun item => Scenario.dayText (sp_date item)))
    match fst (getHistoricalData Scenario.rt "aapl" "ytd" Scenario.freshWorld) with
    | Return result => Some result
    | Throw _ => None
    end
  = Some ["2024-01-01"; "2024-01-02"; "2024-01-03"; "2024-01-04";
          "2024-01-05"; "2024-01-06"; "2024-01-07"; "2024-01-08";
          "2024-01-09"; "2024-01-10"]
  /\ apiCalls (snd (getHistoricalData Scenario.rt "aapl" "ytd"
                      Scenario.freshWorld)) = 1%nat
  /\ List.length
       (stock_prices (snd (getHistoricalData Scenario.rt "aapl" "ytd"
                             Scenario.freshWorld))) = 150%nat.
Proof. repeat split; vm_compute; reflexivity. Qed.



(** At 90 days the product of the day count and 0.7 is just below 63, and
    the expected count is 62. *)
Example ytdExpected_90 : ytdExpected 90 = 62 /\ 7 * 90 / 10 = 63.
Proof. split; vm_compute; reflexivity. Qed.

(** The ratio of AAPL to MSFT over a week: MSFT has no record on January
    5 and a zero close on January 9, and three points come out. *)
Lemma getPriceRatio_computed_witness :
  exists ratios,
    fst (getPriceRatio Scenario.rt "aapl" "msft" "1w" Scenario.storedWorld)
    = Return ratios
    /\ List.length ratios = 3%nat
    /\ exists data1 data2,
         ascendingDays data1 /\ ascendingDays data2
         /\ (ratioCacheLookup Scenario.storedWorld (trim (toUpperCase "aapl"))
               (trim (toUpperCase "msft")) (toUpperCase "1w") = None
             \/ ratioCacheLookup Scenario.storedWorld
                  (trim (toUpperCase "aapl")) (trim (toUpperCase "msft"))
                  (toUpperCase "1w") = Some [] ->
             exists w1,
               getHistoricalData Scenario.rt (trim (toUpperCase "aapl"))
                 (toUpperCase "1w") (tick_cache Scenario.storedWorld)
               = (Return data1, w1)
               /\ fst (getHistoricalData Scenario.rt
                         (trim (toUpperCase "msft")) (toUpperCase "1w") w1)
                  = Return data2)
         /\ (List.length ratios
             <= Nat.min (List.length data1) (List.length data2))%nat
         /\ (forall p, In p ratios ->
                       rd_ratio p
                       = num_div (rd_symbol1Price p) (rd_symbol2Price p)
                       /\ is_zero (rd_symbol2Price p) = false)
         /\ (forall p, In p ratios <->
                       exists item1 item2,
                         In item1 data1 /\ In item2 data2
                         /\ dayKey item2 = dayKey item1
                         /\ is_zero (sp_close item2) = false
                         /\ p = ratioPoint item1 item2)
         /\ StronglySorted (key_lt rd_date) ratios.
Proof.
  eexists. split; [vm_compute; reflexivity |]. split; [reflexivity |].
  apply (getPriceRatio_computed Scenario.rt "aapl" "msft" "1w"
           Scenario.storedWorld).
  - exact storedWorld_consistent.
  - vm_compute. reflexivity.
Defined.

(** The merge test of the repository: two old records, two new ones, one
    day in common; three records come out and the second has the new
    close. *)
Example mergeAndDeduplicate_test :
  map (fun item => (Scenario.dayText (sp_date item), floorZ (sp_close item)))
    (mergeAndDeduplicate Scenario.oldData Scenario.newData)
  = [("2024-01-01", 103); ("2024-01-02", 107); ("2024-01-03", 110)].
Proof. vm_compute. reflexivity. Qed.

(** A refused connection: the sync returns, with the message of the
    class as its one error. *)
Example syncStock_network_error :
  fst (syncStock Scenario.rt "aapl" None None Scenario.storedWorld)
  = Return {| sr_symbol := "AAPL"; sr_recordsFetched := 0;
              sr_recordsSaved := 0; sr_dateRange := (None, None);
              sr_errors := [classMessage NetworkError] |}.
Proof. vm_compute. reflexivity. Qed.


Example validateAndNormalize_overflowed :
  map (spec_keeps Scenario.rt) Scenario.overflowed = [true; true]
  /\ map (keeps Scenario.rt) Scenario.overflowed = [true; false]
  /\ map np_date (validateAndNormalize Scenario.rt "AAPL" Scenario.overflowed)
     = [Scenario.daysFromCivil 2024 1 4 * MS_PER_DAY].
Proof. repeat split; vm_compute; reflexivity. Qed.

(** Five quarters: the fifth record has the growth of 1200 over 1000, 20
    percent, and the first four have none. *)
Lemma calculateRevenueGrowthYoy_values_witness :
  exists records,
    mergeFundamentals Scenario.rt "AAPL" Scenario.keyMetrics Scenario.incomes
    = Return records
    /\ map fr_revenueGrowthYoy (calculateRevenueGrowthYoy records)
       = [None; None; None; None; Some (num_of_Z 20)]
    /\ StronglySorted (key_le fr_date) records
    /\ List.length (calculateRevenueGrowthYoy records) = List.length records
    /\ forall i record,
         nth_error records i = Some record ->
         exists g,
           nth_error (calculateRevenueGrowthYoy records) i
           = Some (withGrowth record g)
           /\ ((i < 4)%nat -> g = None)
           /\ (forall prior,
                 (4 <= i)%nat -> nth_error records (i - 4) = Some prior ->
                 (forall priorRevenue revenue,
                     fr_revenue prior = Some priorRevenue ->
                     fr_revenue record = Some revenue ->
                     priorRevenue <> 0 ->
                     g = Some (growthFormula revenue priorRevenue))
                 /\ (fr_revenue prior = None \/ fr_revenue prior = Some 0
                     \/ fr_revenue record = None -> g = None)).
Proof.
  eexists. split; [vm_compute; reflexivity |].
  split; [vm_compute; reflexivity |].
  apply (calculateRevenueGrowthYoy_values Scenario.rt "AAPL"
           Scenario.keyMetrics Scenario.incomes).
  vm_compute. reflexivity.
Defined.

(** A ratio cached under the timeframe 2Y, which is not in the enum: the
    entry is returned. *)
Lemma getPriceRatio_cache_before_validation_witness :
  getPriceRatio Scenario.rt "aapl" "msft" "2y" Scenario.strayWorld
  = (Return Scenario.strayRatio, tick_cache Scenario.strayWorld).
Proof.
  exact (getPriceRatio_cache_before_validation Scenario.rt "aapl" "msft" "2y"
           Scenario.strayWorld eq_refl).
Defined.

(** Without the entry the same call fails on the timeframe. *)
Example getPriceRatio_invalid_timeframe :
  fst (getPriceRatio Scenario.rt "aapl" "msft" "2y" Scenario.storedWorld)
  = Throw (StockServiceError
             "Invalid timeframe: 2Y. Valid values: 5Y, 1Y, YTD, 1M, 1W"
             "INVALID_TIMEFRAME" (Some "AAPL")).
Proof. vm_compute. reflexivity. Qed.

(* ====================================================================== *)
(** * Strings, symbols and cache keys                                      *)
(* ====================================================================== *)

Lemma append_assoc3 (a b c : string) : ((a ++ b) ++ c = a ++ (b ++ c))%string.
Proof. induction a as [| x a IH]; simpl; [reflexivity | now rewrite IH]. Qed.

Lemma everyChar_app (test : ascii -> bool) (a b : string) :
  everyChar test (a ++ b) = everyChar test a && everyChar test b.
Proof.
  induction a as [| x a IH]; simpl; [reflexivity |].
  now rewrite IH, andb_assoc.
Qed.

Lemma everyChar_weaken (test test' : ascii -> bool) (s : string) :
  (forall c, test c = true -> test' c = true) ->
  everyChar test s = true -> everyChar test' s = true.
Proof.
  intros Himp. induction s as [| c s IH]; simpl; [reflexivity |].
  intros H. apply andb_true_iff in H as [Hc Hs].
  now rewrite (Himp _ Hc), (IH Hs).
Qed.

Lemma everyChar_upper (test : ascii -> bool) (s : string) :
  (forall c, test c = true -> test (upper_ascii c) = true) ->
  everyChar test s = true -> everyChar test (toUpperCase s) = true.
Proof.
  intros Himp. induction s as [| c s IH]; simpl; [reflexivity |].
  intros H. apply andb_true_iff in H as [Hc Hs].
  now rewrite (Himp _ Hc), (IH Hs).
Qed.

Lemma toUpperCase_length (s : string) :
  String.length (toUpperCase s) = String.length s.
Proof. induction s as [| c s IH]; simpl; [reflexivity | now rewrite IH]. Qed.

(** What a letter or digit is not, and what its upper case is. *)
Lemma isAlphanumeric_facts (c : ascii) :
  StockController.isAlphanumeric c = true ->
  StockController.isAlphanumeric (upper_ascii c) = true
  /\ is_space c = false
  /\ (c =? ":")%char = false
  /\ (c =? "*")%char = false.
Proof.
  destruct c as [[] [] [] [] [] [] [] []]; vm_compute; intros H;
    try discriminate H; repeat split.
Qed.

Lemma is_space_upper (c : ascii) : is_space (upper_ascii c) = is_space c.
Proof. destruct c as [[] [] [] [] [] [] [] []]; reflexivity. Qed.

(** ** Trimming *)

Lemma trimStart_clear (s : string) :
  everyChar (fun c => negb (is_space c)) s = true -> trimStart s = s.
Proof.
  destruct s as [| c s]; simpl; [reflexivity |].
  intros H. apply andb_true_iff in H as [Hc _].
  now destruct (is_space c).
Qed.

Lemma trimEnd_clear (s : string) :
  everyChar (fun c => negb (is_space c)) s = true -> trimEnd s = s.
Proof.
  induction s as [| c s IH]; simpl; [reflexivity |].
  intros H. apply andb_true_iff in H as [Hc Hs].
  rewrite (IH Hs). destruct s; [| reflexivity].
  now destruct (is_space c).
Qed.

Lemma trim_clear (s : string) :
  everyChar (fun c => negb (is_space c)) s = true -> trim s = s.
Proof.
  intros H. unfold trim. rewrite (trimStart_clear _ H). now apply trimEnd_clear.
Qed.

Lemma trimStart_startsClear (s : string) : startsClear (trimStart s).
Proof.
  induction s as [| c s IH]; simpl; [exact I |].
  destruct (is_space c) eqn:E; [exact IH | exact E].
Qed.

Lemma trimStart_of_clear (s : string) : startsClear s -> trimStart s = s.
Proof. destruct s as [| c s]; simpl; [reflexivity |]. now intros ->. Qed.

Lemma trimEnd_startsClear (s : string) : startsClear s -> startsClear (trimEnd s).
Proof.
  destruct s as [| c s]; simpl; [exact (fun H => H) |].
  intros Hc. destruct (trimEnd s); [rewrite Hc |]; exact Hc.
Qed.

Lemma trimEnd_idem (s : string) : trimEnd (trimEnd s) = trimEnd s.
Proof.
  induction s as [| c s IH]; simpl; [reflexivity |].
  destruct (trimEnd s) as [| d r] eqn:E.
  - destruct (is_space c) eqn:Ec; simpl; [reflexivity | now rewrite Ec].
  - change (trimEnd (String c (String d r))) with
      (match trimEnd (String d r) with
       | EmptyString => if is_space c then EmptyString else String c EmptyString
       | r' => String c r'
       end).
    now rewrite IH.
Qed.

Lemma trim_idem (s : string) : trim (trim s) = trim s.
Proof.
  unfold trim.
  rewrite (trimStart_of_clear (trimEnd (trimStart s))).
  - apply trimEnd_idem.
  - apply trimEnd_startsClear, trimStart_startsClear.
Qed.

Lemma toUpperCase_trimStart (s : string) :
  toUpperCase (trimStart s) = trimStart (toUpperCase s).
Proof.
  induction s as [| c s IH]; simpl; [reflexivity |].
  rewrite is_space_upper. now destruct (is_space c).
Qed.

Lemma toUpperCase_trimEnd (s : string) :
  toUpperCase (trimEnd s) = trimEnd (toUpperCase s).
Proof.
  induction s as [| c s IH]; simpl; [reflexivity |].
  rewrite <- IH, is_space_upper.
  destruct (trimEnd s); simpl; [now destruct (is_space c) | reflexivity].
Qed.

Lemma toUpperCase_trim (s : string) :
  toUpperCase (trim s) = trim (toUpperCase s).
Proof. unfold trim. now rewrite toUpperCase_trimEnd, toUpperCase_trimStart. Qed.

(** A normalized symbol is normalized to itself. *)
Lemma normalized_fixed (s : string) :
  trim (toUpperCase (trim (toUpperCase s))) = trim (toUpperCase s).
Proof. now rewrite toUpperCase_trim, toUpperCase_idem, trim_idem. Qed.

(** ** Symbols the controller accepts *)

Lemma isValidSymbol_chars (s : string) :
  StockController.isValidSymbol s = true ->
  everyChar StockController.isAlphanumeric s = true.
Proof.
  unfold StockController.isValidSymbol. intros H.
  now apply andb_true_iff in H as [_ H].
Qed.

Lemma isValidSymbol_upper (s : string) :
  StockController.isValidSymbol s = true ->
  StockController.isValidSymbol (toUpperCase s) = true.
Proof.
  unfold StockController.isValidSymbol. intros H.
  apply andb_true_iff in H as [H Hc]. rewrite toUpperCase_length, H. simpl.
  apply everyChar_upper; [| exact Hc].
  intros c Halnum. now apply isAlphanumeric_facts.
Qed.

Lemma isValidSymbol_nonempty (s : string) :
  StockController.isValidSymbol s = true -> s <> "".
Proof. intros H ->. discriminate H. Qed.

(** The service normalizes a symbol of the controller to its upper case. *)
Lemma isValidSymbol_normalized (s : string) :
  StockController.isValidSymbol s = true ->
  trim (toUpperCase s) = toUpperCase s.
Proof.
  intros H. apply trim_clear.
  apply everyChar_weaken with (test := StockController.isAlphanumeric).
  - intros c Hc. apply isAlphanumeric_facts in Hc as (_ & Hs & _). now rewrite Hs.
  - apply isValidSymbol_chars, isValidSymbol_upper, H.
Qed.

Lemma isValidSymbol_colonFree (s : string) :
  StockController.isValidSymbol s = true -> colonFree (toUpperCase s) = true.
Proof.
  intros H. apply everyChar_weaken with (test := StockController.isAlphanumeric).
  - intros c Hc. apply isAlphanumeric_facts in Hc as (_ & _ & Hs & _). now rewrite Hs.
  - apply isValidSymbol_chars, isValidSymbol_upper, H.
Qed.

Lemma isValidSymbol_starFree (s : string) :
  StockController.isValidSymbol s = true -> starFree (toUpperCase s) = true.
Proof.
  intros H. apply everyChar_weaken with (test := StockController.isAlphanumeric).
  - intros c Hc. apply isAlphanumeric_facts in Hc as (_ & _ & _ & Hs). now rewrite Hs.
  - apply isValidSymbol_chars, isValidSymbol_upper, H.
Qed.

(** ** Splitting a text at a colon *)

(** A text with a colon after [a], read from a text that has its first
    colon after [u]: [a] is [u], or goes past that colon. *)
Lemma colon_split (u : string) :
  colonFree u = true ->
  forall a r v : string,
    (a ++ ":" ++ r = u ++ ":" ++ v)%string ->
    (a = u /\ r = v)
    \/ exists a', a = (u ++ ":" ++ a')%string /\ (a' ++ ":" ++ r)%string = v.
Proof.
  induction u as [| c u IH]; intros Hu a r v E.
  - destruct a as [| x a]; simpl in E.
    + left. split; [reflexivity |]. now injection E.
    + right. injection E as -> E. exists a. split; [reflexivity | exact E].
  - simpl in Hu. apply andb_true_iff in Hu as [Hc Hu].
    destruct a as [| x a]; simpl in E.
    + injection E as <- _. discriminate Hc.
    + injection E as -> E. destruct (IH Hu _ _ _ E) as [[-> ->] | [a' [-> Hv]]].
      * now left.
      * right. exists a'. split; [reflexivity | exact Hv].
Qed.

Lemma colon_first (u u' v v' : string) :
  colonFree u = true -> colonFree u' = true ->
  (u ++ ":" ++ v = u' ++ ":" ++ v')%string -> u = u' /\ v = v'.
Proof.
  intros Hu Hu' E.
  destruct (colon_split u' Hu' _ _ _ E) as [H | [a' [-> _]]]; [exact H |].
  unfold colonFree in Hu. rewrite everyChar_app in Hu.
  apply andb_true_iff in Hu as [_ Hu]. discriminate Hu.
Qed.

Lemma colonFree_no_colon (a r t : string) :
  colonFree t = true -> (a ++ ":" ++ r)%string <> t.
Proof.
  intros Ht E. subst t. unfold colonFree in Ht. rewrite everyChar_app in Ht.
  apply andb_true_iff in Ht as [_ Ht]. discriminate Ht.
Qed.

(** ** Patterns of keys *)

Lemma globMatch_star (p key : string) :
  globMatch (String "*" p) key = true
  <-> exists a b, key = (a ++ b)%string /\ globMatch p b = true.
Proof.
  change (globMatch (String "*" p) key) with
    ((fix fromSomeSuffix (k : string) : bool :=
        globMatch p k
        || match k with
           | EmptyString => false
           | String _ k' => fromSomeSuffix k'
           end) key).
  induction key as [| c key IH].
  - rewrite orb_false_r. split.
    + intros H. now exists "", "".
    + intros (a & b & E & H). destruct a; [| discriminate E].
      simpl in E. now subst b.
  - rewrite orb_true_iff, IH. split.
    + intros [H | (a & b & -> & H)].
      * now exists "", (String c key).
      * now exists (String c a), b.
    + intros (a & b & E & H). destruct a as [| x a]; simpl in E.
      * left. now subst b.
      * right. injection E as _ ->. now exists a, b.
Qed.

Lemma globMatch_literal (l : string) :
  starFree l = true ->
  forall p key : string,
    globMatch (l ++ p) key = true
    <-> exists k', key = (l ++ k')%string /\ globMatch p k' = true.
Proof.
  induction l as [| c l IH]; intros Hl p key.
  - simpl. split; [intros H; now exists key | now intros (k' & -> & H)].
  - simpl in Hl. apply andb_true_iff in Hl as [Hc Hl].
    apply negb_true_iff in Hc.
    change (globMatch (String c l ++ p) key) with
      (if (c =? "*")%char then
         (fix fromSomeSuffix (k : string) : bool :=
            globMatch (l ++ p) k
            || match k with
               | EmptyString => false
               | String _ k' => fromSomeSuffix k'
               end) key
       else
         match key with
         | EmptyString => false
         | String c' k' => (c =? c')%char && globMatch (l ++ p) k'
         end).
    rewrite Hc. destruct key as [| c' key].
    + split; [discriminate | now intros (k' & E & _)].
    + rewrite andb_true_iff, (IH Hl), Ascii.eqb_eq. split.
      * intros [-> (k' & -> & H)]. now exists k'.
      * intros (k' & E & H). injection E as -> ->. split; [reflexivity |].
        now exists k'.
Qed.

Lemma globMatch_any (key : string) : globMatch "*" key = true.
Proof.
  apply globMatch_star. exists key, "". split; [| reflexivity].
  induction key as [| c key IH]; simpl; [reflexivity | now rewrite <- IH].
Qed.

(** The keys [invalidateStock] deletes. *)
Lemma stockPattern_matches (symbol key : string) :
  starFree (toUpperCase symbol) = true ->
  globMatch (stockPattern symbol) key = true
  <-> exists a b,
        key = ("stock:" ++ a ++ ":" ++ toUpperCase symbol ++ ":" ++ b)%string.
Proof.
  intros Hs. unfold stockPattern.
  change ("stock:*:" ++ toUpperCase symbol ++ ":*")%string
    with ("stock:" ++ String "*" (":" ++ toUpperCase symbol ++ ":*"))%string.
  rewrite (globMatch_literal "stock:" eq_refl).
  assert (Hlit : starFree (":" ++ toUpperCase symbol ++ ":")%string = true).
  { unfold starFree in *. simpl. rewrite everyChar_app, Hs. reflexivity. }
  assert (Hpat : (":" ++ toUpperCase symbol ++ ":*")%string
                 = ((":" ++ toUpperCase symbol ++ ":") ++ "*")%string).
  { simpl. now rewrite append_assoc3. }
  split.
  - intros (k1 & -> & H). apply globMatch_star in H as (a & b & -> & H).
    rewrite Hpat in H. apply (globMatch_literal _ Hlit) in H as (b' & -> & _).
    exists a, b'. simpl. rewrite !append_assoc3. reflexivity.
  - intros (a & b & ->).
    exists (a ++ ":" ++ toUpperCase symbol ++ ":" ++ b)%string.
    split; [reflexivity |].
    apply globMatch_star. exists a, (":" ++ toUpperCase symbol ++ ":" ++ b)%string.
    split; [reflexivity |]. rewrite Hpat.
    apply (globMatch_literal _ Hlit). exists b. split.
    + simpl. now rewrite append_assoc3.
    + apply globMatch_any.
Qed.

(* ====================================================================== *)
(** * The table under upserts                                              *)
(* ====================================================================== *)

Lemma keyIs_rowKey (k : string * Z) (r : PrismaStockPrice) :
  keyIs k r = true <-> rowKey r = k.
Proof.
  unfold keyIs, rowKey. destruct k as [s d]. simpl.
  rewrite andb_true_iff, String.eqb_eq, Z.eqb_eq.
  split; [intros [-> ->]; reflexivity | intros [= -> ->]; auto].
Qed.

Lemma keyIs_sameKey (k : string * Z) (a b : PrismaStockPrice) :
  sameKey a b = true -> keyIs k a = keyIs k b.
Proof.
  intros H. apply sameKey_rowKey in H.
  destruct (keyIs k a) eqn:Ea, (keyIs k b) eqn:Eb; try reflexivity.
  - apply keyIs_rowKey in Ea. rewrite H in Ea.
    apply keyIs_rowKey in Ea. congruence.
  - apply keyIs_rowKey in Eb. rewrite <- H in Eb.
    apply keyIs_rowKey in Eb. congruence.
Qed.

Lemma keyIs_differ (k : string * Z) (a b : PrismaStockPrice) :
  sameKey a b = false -> keyIs k a = true -> keyIs k b = false.
Proof.
  intros Hab Ha. destruct (keyIs k b) eqn:Eb; [| reflexivity].
  apply keyIs_rowKey in Ha, Eb.
  assert (sameKey a b = true) by (apply sameKey_rowKey; congruence).
  congruence.
Qed.

(** An upsert is seen under its key, and under no other. *)
Lemma lookupRow_upsert (k : string * Z) (row : PrismaStockPrice)
    (t : list PrismaStockPrice) :
  lookupRow k (upsert row t)
  = if keyIs k row then Some row else lookupRow k t.
Proof.
  unfold lookupRow. induction t as [| r t IH]; simpl.
  - now destruct (keyIs k row).
  - destruct (sameKey row r) eqn:E; simpl.
    + rewrite <- (keyIs_sameKey k _ _ E). now destruct (keyIs k row).
    + rewrite IH. destruct (keyIs k r) eqn:Er; [| reflexivity].
      destruct (keyIs k row) eqn:Erow; [| reflexivity].
      now rewrite (keyIs_differ k _ _ E Erow) in Er.
Qed.

Lemma find_last {A} (test : A -> bool) (l : list A) (x : A) :
  find test (l ++ [x])
  = match find test l with
    | Some y => Some y
    | None => if test x then Some x else None
    end.
Proof.
  induction l as [| y l IH]; simpl; [reflexivity |].
  now destruct (test y).
Qed.

Lemma lookupRow_upsertAll (c : Collaborators) (k : string * Z)
    (batch : list NormalizedPriceData) :
  forall t,
    lookupRow k (upsertAll c batch t)
    = match lastWritten c k batch with
      | Some row => Some row
      | None => lookupRow k t
      end.
Proof.
  unfold upsertAll, lastWritten.
  induction batch as [| n batch IH]; intros t; simpl; [reflexivity |].
  rewrite IH, find_last, lookupRow_upsert.
  destruct (find (keyIs k) (rev (map (toRow c) batch))); [reflexivity |].
  now destruct (keyIs k (toRow c n)).
Qed.

Lemma lookupRow_absent (k : string * Z) (t : list PrismaStockPrice) :
  ~ In k (map rowKey t) -> lookupRow k t = None.
Proof.
  unfold lookupRow. induction t as [| r t IH]; simpl; [reflexivity |].
  intros H. destruct (keyIs k r) eqn:E.
  - apply keyIs_rowKey in E. exfalso. apply H. now left.
  - apply IH. intros Hin. apply H. now right.
Qed.

(** A table that respects the unique index is known by the order of its
    keys and the row under each key. *)
Lemma table_by_keys (t1 : list PrismaStockPrice) :
  forall t2,
    uniqueKeys t1 ->
    map rowKey t1 = map rowKey t2 ->
    (forall k, lookupRow k t1 = lookupRow k t2) ->
    t1 = t2.
Proof.
  unfold uniqueKeys.
  induction t1 as [| r1 t1 IH]; intros [| r2 t2] Hnd Hkeys Hrows;
    try discriminate Hkeys; [reflexivity |].
  simpl in Hkeys.
  assert (Hk : rowKey r1 = rowKey r2) by congruence.
  assert (Hkt : map rowKey t1 = map rowKey t2) by congruence.
  clear Hkeys. rename Hkt into Hkeys.
  inversion Hnd as [| ? ? Hfresh Hnd']; subst.
  assert (Hhead : r1 = r2).
  { specialize (Hrows (rowKey r1)). unfold lookupRow in Hrows. simpl in Hrows.
    assert (E1 : keyIs (rowKey r1) r1 = true) by now apply keyIs_rowKey.
    assert (E2 : keyIs (rowKey r1) r2 = true)
      by (apply keyIs_rowKey; congruence).
    rewrite E1, E2 in Hrows. now injection Hrows. }
  subst r2. f_equal. apply IH; [exact Hnd' | exact Hkeys |].
  intros k. specialize (Hrows k). unfold lookupRow in Hrows. simpl in Hrows.
  destruct (keyIs k r1) eqn:E; [| exact Hrows].
  apply keyIs_rowKey in E. subst k.
  rewrite !lookupRow_absent; [reflexivity | now rewrite <- Hkeys | exact Hfresh].
Qed.

Lemma upsert_keys_present (row : PrismaStockPrice)
    (t : list PrismaStockPrice) :
  In (rowKey row) (map rowKey t) -> map rowKey (upsert row t) = map rowKey t.
Proof.
  induction t as [| r t IH]; simpl; [intros [] |].
  destruct (sameKey row r) eqn:E; simpl.
  - intros _. apply sameKey_rowKey in E. now rewrite E.
  - intros [H | H]; [| now rewrite IH].
    assert (sameKey row r = true) by (apply sameKey_rowKey; congruence).
    congruence.
Qed.

Lemma upsertAll_keys_present (c : Collaborators)
    (batch : list NormalizedPriceData) :
  forall t,
    (forall n, In n batch -> In (rowKey (toRow c n)) (map rowKey t)) ->
    map rowKey (upsertAll c batch t) = map rowKey t.
Proof.
  unfold upsertAll.
  induction batch as [| n batch IH]; intros t H; simpl; [reflexivity |].
  assert (Hn : map rowKey (upsert (toRow c n) t) = map rowKey t)
    by (apply upsert_keys_present, H; now left).
  rewrite IH; [exact Hn |].
  intros n' Hn'. rewrite Hn. apply H. now right.
Qed.

Lemma upsertAll_keys (c : Collaborators) (batch : list NormalizedPriceData) :
  forall t k,
    In k (map rowKey (upsertAll c batch t))
    <-> In k (map rowKey (map (toRow c) batch)) \/ In k (map rowKey t).
Proof.
  unfold upsertAll.
  induction batch as [| n batch IH]; intros t k; simpl; [tauto |].
  rewrite IH, upsert_keys. intuition.
Qed.

(** Writing a batch again changes nothing. *)
Lemma upsertAll_again (c : Collaborators) (batch : list NormalizedPriceData)
    (t : list PrismaStockPrice) :
  uniqueKeys t ->
  upsertAll c batch (upsertAll c batch t) = upsertAll c batch t.
Proof.
  intros Ht. apply table_by_keys.
  - now apply upsertAll_unique, upsertAll_unique.
  - apply upsertAll_keys_present. intros n Hn.
    apply upsertAll_keys. left. now apply in_map, in_map.
  - intros k. rewrite !lookupRow_upsertAll.
    now destruct (lastWritten c k batch).
Qed.

Lemma upsert_others (symbol : string) (row : PrismaStockPrice)
    (t : list PrismaStockPrice) :
  p_symbol row = symbol ->
  rowsOfOthers symbol (upsert row t) = rowsOfOthers symbol t.
Proof.
  intros Hrow. unfold rowsOfOthers.
  assert (Hskip : negb (p_symbol row =? symbol)%string = false)
    by (now rewrite Hrow, String.eqb_refl).
  induction t as [| r t IH]; simpl.
  - now rewrite Hskip.
  - destruct (sameKey row r) eqn:E; simpl.
    + rewrite Hskip.
      unfold sameKey in E. apply andb_true_iff in E as [E _].
      apply String.eqb_eq in E. rewrite <- E, Hrow, String.eqb_refl.
      reflexivity.
    + now rewrite IH.
Qed.

Lemma upsert_count (symbol : string) (row : PrismaStockPrice)
    (t : list PrismaStockPrice) :
  (List.length (rowsOf symbol t)
   <= List.length (rowsOf symbol (upsert row t)))%nat.
Proof.
  unfold rowsOf. induction t as [| r t IH]; simpl; [lia |].
  destruct (sameKey row r) eqn:E; simpl.
  - unfold sameKey in E. apply andb_true_iff in E as [E _].
    apply String.eqb_eq in E. rewrite E.
    destruct (p_symbol r =? symbol)%string; simpl; lia.
  - destruct (p_symbol r =? symbol)%string; simpl; lia.
Qed.

Lemma upsertAll_others (c : Collaborators) (symbol : string)
    (batch : list NormalizedPriceData) :
  forall t,
    (forall n, In n batch -> np_symbol n = symbol) ->
    rowsOfOthers symbol (upsertAll c batch t) = rowsOfOthers symbol t
    /\ (List.length (rowsOf symbol t)
        <= List.length (rowsOf symbol (upsertAll c batch t)))%nat.
Proof.
  unfold upsertAll.
  induction batch as [| n batch IH]; intros t H; simpl; [split; [reflexivity | lia] |].
  destruct (IH (upsert (toRow c n) t)) as [Ho Hc];
    [intros n' Hn'; apply H; now right |].
  split.
  - rewrite Ho. apply upsert_others. simpl. apply H. now left.
  - etransitivity; [apply (upsert_count symbol (toRow c n)) | exact Hc].
Qed.

(** ** What a save writes *)

Lemma validateAndNormalize_symbol (rt : Runtime) (symbol : string)
    (data : list FMPHistoricalPrice) (n : NormalizedPriceData) :
  In n (validateAndNormalize rt symbol data) -> np_symbol n = symbol.
Proof.
  induction data as [| r data IH]; simpl; [intros [] |].
  pose proof (normalizeRecord_keeps rt symbol r) as Hr.
  destruct (normalizeRecord rt symbol r) as [m |]; [| exact IH].
  intros [<- | Hin]; [| now apply IH].
  destruct Hr as [_ Hn]. apply Hn.
Qed.

Lemma validateAndNormalize_length (rt : Runtime) (symbol : string)
    (data : list FMPHistoricalPrice) :
  (List.length (validateAndNormalize rt symbol data) <= List.length data)%nat.
Proof.
  induction data as [| r data IH]; simpl; [lia |].
  destruct (normalizeRecord rt symbol r); simpl; lia.
Qed.

Lemma validateAndNormalize_none (rt : Runtime) (symbol : string)
    (data : list FMPHistoricalPrice) :
  (forall r, In r data -> keeps rt r = false) ->
  validateAndNormalize rt symbol data = [].
Proof.
  induction data as [| r data IH]; simpl; [reflexivity |]. intros H.
  pose proof (normalizeRecord_keeps rt symbol r) as Hr.
  destruct (normalizeRecord rt symbol r) as [m |].
  - destruct Hr as [Hr _]. rewrite (H r) in Hr by now left. discriminate Hr.
  - apply IH. intros r' Hr'. apply H. now right.
Qed.

Lemma slice_incl {A} (l : list A) (i j : nat) (x : A) :
  In x (slice l i j) -> In x l.
Proof.
  unfold slice. generalize (j - i)%nat as n. revert i.
  induction l as [| a l IH]; intros i n.
  - destruct i, n; intros [].
  - destruct i as [| i]; simpl.
    + destruct n as [| n]; simpl; [intros [] |].
      intros [-> | H]; [now left | right]. exact (IH 0%nat n H).
    + intros H. right. exact (IH i n H).
Qed.

Lemma saveBatches_wrote (fuel : nat) (l : list NormalizedPriceData) :
  forall i saved w,
    exists written,
      (forall n, In n written -> In n l)
      /\ stock_prices (snd (saveBatches fuel l i saved w))
         = upsertAll (env w) written (stock_prices w).
Proof.
  induction fuel as [| fuel IH]; intros i saved w.
  - exists []. split; [intros n [] | reflexivity].
  - rewrite saveBatches_step.
    destruct (i <? List.length l)%nat;
      [| exists []; split; [intros n [] | reflexivity]].
    destruct (dbFault (env w) (dbOps w));
      [exists []; split; [intros n [] | reflexivity] |].
    match goal with
    | |- context [saveBatches fuel l ?j ?k ?w1] =>
        destruct (IH j k w1) as (written & Hin & Htable)
    end.
    exists (slice l i (i + batchSize) ++ written)%list. split.
    + intros n Hn. apply in_app_or in Hn as [Hn | Hn];
        [eapply slice_incl; exact Hn | now apply Hin].
    + rewrite Htable, upsertAll_app. reflexivity.
Qed.

Lemma saveBatches_returns (l : list NormalizedPriceData) :
  forall (fuel i : nat) (saved : Z) (w : World) (k : Z) (w' : World),
    (List.length l - i <= fuel)%nat ->
    saveBatches fuel l i saved w = (Return k, w') ->
    k = saved + Z.of_nat (List.length (skipn i l)).
Proof.
  induction fuel as [| fuel IH]; intros i saved w k w' Hfuel.
  - simpl. unfold ret. intros [= <- _].
    rewrite skipn_all2 by lia. simpl. lia.
  - rewrite saveBatches_step.
    destruct (Nat.ltb_spec i (List.length l)) as [Hi | Hi].
    + destruct (dbFault (env w) (dbOps w)); [discriminate |].
      intros H. apply IH in H; [| unfold batchSize; lia].
      rewrite H. unfold slice.
      replace (i + batchSize - i)%nat with batchSize by lia.
      pose proof (firstn_skipn batchSize (skipn i l)) as Hsplit.
      apply (f_equal (@List.length _)) in Hsplit.
      rewrite length_app, skipn_skipn in Hsplit.
      replace (batchSize + i)%nat with (i + batchSize)%nat in Hsplit by lia.
      lia.
    + intros [= <- _]. rewrite skipn_all2 by lia. simpl. lia.
Qed.

Section SaveAndSync.

Context (rt : Runtime).

(** A save that returns has counted every validated record. *)
Lemma saveToDatabase_returns (symbol : string)
    (data : list FMPHistoricalPrice) (w : World) (k : Z) (w' : World) :
  saveToDatabase rt symbol data w = (Return k, w') ->
  k = Z.of_nat
        (List.length
           (validateAndNormalize rt (trim (toUpperCase symbol)) data)).
Proof.
  unfold saveToDatabase. destruct data as [| r data].
  - now intros [= <- _].
  - destruct (validateAndNormalize rt _ (r :: data)) as [| n l] eqn:E.
    + now intros [= <- _].
    + intros H. apply saveBatches_returns in H; [| lia]. exact H.
Qed.

Lemma saveToDatabase_succeeds (symbol : string)
    (data : list FMPHistoricalPrice) (w : World) :
  (forall n, dbFault (env w) n = None) ->
  let validated :=
    validateAndNormalize rt (trim (toUpperCase symbol)) data in
  exists w',
    saveToDatabase rt symbol data w
    = (Return (Z.of_nat (List.length validated)), w')
    /\ stock_prices w' = upsertAll (env w) validated (stock_prices w)
    /\ sameOutsideTable w w'.
Proof.
  intros Hok validated. subst validated. unfold saveToDatabase.
  destruct data as [| r data];
    [exists w; repeat split |].
  destruct (validateAndNormalize rt (trim (toUpperCase symbol)) (r :: data))
    as [| n l] eqn:Ev.
  - exists w. repeat split.
  - destruct (saveBatches_success (n :: l) (List.length (n :: l)) 0 0 w)
      as (w' & Hrun & Htable & Hsame); [lia | exact Hok |].
    exists w'. rewrite Hrun. split; [| split; assumption].
    do 2 f_equal.
Qed.

(** Whatever a save does to the table is a run of upserts of validated
    records. *)
Lemma saveToDatabase_wrote (symbol : string)
    (data : list FMPHistoricalPrice) (w : World) :
  exists written,
    (forall n, In n written -> np_symbol n = trim (toUpperCase symbol))
    /\ stock_prices (snd (saveToDatabase rt symbol data w))
       = upsertAll (env w) written (stock_prices w).
Proof.
  unfold saveToDatabase.
  destruct data as [| r data];
    [exists []; split; [intros n [] | reflexivity] |].
  destruct (validateAndNormalize rt (trim (toUpperCase symbol)) (r :: data))
    as [| n l] eqn:Ev;
    [exists []; split; [intros m [] | reflexivity] |].
  destruct (saveBatches_wrote (List.length (n :: l)) (n :: l) 0%nat 0 w)
    as (written & Hin & Htable).
  exists written. split; [| exact Htable].
  intros m Hm. apply Hin in Hm. rewrite <- Ev in Hm.
  now apply validateAndNormalize_symbol in Hm.
Qed.

Lemma saveToDatabase_others (symbol : string)
    (data : list FMPHistoricalPrice) (w : World) :
  let sym := trim (toUpperCase symbol) in
  let w' := snd (saveToDatabase rt symbol data w) in
  rowsOfOthers sym (stock_prices w') = rowsOfOthers sym (stock_prices w)
  /\ (List.length (rowsOf sym (stock_prices w))
      <= List.length (rowsOf sym (stock_prices w')))%nat
  /\ (uniqueKeys (stock_prices w) -> uniqueKeys (stock_prices w')).
Proof.
  intros sym w'. subst w'.
  destruct (saveToDatabase_wrote symbol data w) as (written & Hsym & ->).
  destruct (upsertAll_others (env w) sym written (stock_prices w) Hsym)
    as [Ho Hc].
  split; [exact Ho |]. split; [exact Hc |].
  apply upsertAll_unique.
Qed.

(** What a sync returns and what it leaves alone. *)
Lemma syncStock_outcome (symbol : string) (from to : option Z) (w : World) :
  let sym := trim (toUpperCase symbol) in
  exists result w',
    syncStock rt symbol from to w = (Return result, w')
    /\ sr_symbol result = sym
    /\ (List.length (sr_errors result) <= 1)%nat
    /\ (sr_errors result <> [] -> sr_recordsSaved result = 0)
    /\ 0 <= sr_recordsSaved result <= sr_recordsFetched result
    /\ (apiCalls w <= apiCalls w' <= S (apiCalls w))%nat
    /\ historyCache w' = historyCache w /\ ratioCache w' = ratioCache w
    /\ cache w' = cache w /\ env w' = env w
    /\ cacheOps w' = cacheOps w /\ clockReads w' = clockReads w
    /\ rowsOfOthers sym (stock_prices w') = rowsOfOthers sym (stock_prices w).
Proof.
  intros sym. rewrite syncStock_run. fold sym.
  destruct (fetchHistoricalData rt sym from to w) as [[data | e] w1] eqn:Ef;
    pose proof (fetchHistoricalData_world rt _ _ _ _ _ _ Ef) as Hw1.
  2:{ eexists _, w1. split; [reflexivity |]. simpl.
      destruct Hw1 as [-> | ->]; simpl; repeat split; auto; try lia;
        discriminate. }
  destruct data as [| r data].
  { eexists _, w1. split; [reflexivity |]. simpl.
    destruct Hw1 as [-> | ->]; simpl; repeat split; auto; try lia;
      congruence. }
  destruct (parseDates rt (r :: data)) as [dates | e].
  2:{ eexists _, w1. split; [reflexivity |]. simpl length.
      destruct Hw1 as [-> | ->]; simpl; repeat split; auto; try lia. }
  pose proof (saveToDatabase_others sym (r :: data) w1) as (Ho & _ & _).
  assert (Hfix : trim (toUpperCase sym) = sym) by apply normalized_fixed.
  rewrite Hfix in Ho.
  destruct (saveToDatabase rt sym (r :: data) w1) as [[k | e] w2] eqn:Es;
    pose proof (saveToDatabase_frame rt _ _ _ _ _ Es)
      as (Hh & Hr & Hc & He & Ha & Hco & Hcl);
    simpl in Ho.
  - apply saveToDatabase_returns in Es.
    pose proof (validateAndNormalize_length rt (trim (toUpperCase sym))
                  (r :: data)) as Hlen.
    eexists _, w2. split; [reflexivity |].
    cbn [sr_symbol sr_errors sr_recordsSaved sr_recordsFetched].
    rewrite Hh, Hr, Hc, He, Ha, Hco, Hcl, Ho.
    destruct Hw1 as [-> | ->]; simpl apiCalls; simpl historyCache;
      simpl ratioCache; simpl cache; simpl env; simpl cacheOps;
      simpl clockReads; simpl stock_prices;
      repeat split; auto; try lia; try congruence.
  - eexists _, w2. split; [reflexivity |].
    cbn [sr_symbol sr_errors sr_recordsSaved sr_recordsFetched].
    rewrite Hh, Hr, Hc, He, Ha, Hco, Hcl, Ho.
    destruct Hw1 as [-> | ->]; simpl apiCalls; simpl historyCache;
      simpl ratioCache; simpl cache; simpl env; simpl cacheOps;
      simpl clockReads; simpl stock_prices; simpl length;
      repeat split; auto; try lia.
Qed.

End SaveAndSync.

(** ** Validation and batches, by the rows of the table *)

(** A record of a batch has a row written under its key: the row of the
    last record of the batch for the same symbol and day. *)
Lemma lastWritten_present (c : Collaborators)
    (batch : list NormalizedPriceData) (n : NormalizedPriceData) :
  In n batch ->
  exists m,
    In m batch
    /\ np_symbol m = np_symbol n
    /\ np_date m / MS_PER_DAY = np_date n / MS_PER_DAY
    /\ lastWritten c (np_symbol n, np_date n / MS_PER_DAY) batch
       = Some (toRow c m).
Proof.
  intros Hn. unfold lastWritten.
  destruct (find (keyIs (np_symbol n, np_date n / MS_PER_DAY))
              (rev (map (toRow c) batch))) as [row |] eqn:E.
  - apply find_some in E as [Hin Hkey].
    apply in_rev, in_map_iff in Hin as (m & <- & Hm).
    unfold keyIs in Hkey. cbn [fst snd toRow p_symbol p_day] in Hkey.
    apply andb_true_iff in Hkey as [Hs Hd].
    apply String.eqb_eq in Hs. apply Z.eqb_eq in Hd.
    exists m. repeat split; assumption.
  - exfalso.
    assert (Hrow : In (toRow c n) (rev (map (toRow c) batch)))
      by (apply in_rev; rewrite rev_involutive; now apply in_map).
    pose proof (find_none _ _ E _ Hrow) as Hkey.
    unfold keyIs in Hkey. cbn [fst snd toRow p_symbol p_day] in Hkey.
    now rewrite String.eqb_refl, Z.eqb_refl in Hkey.
Qed.






(** C8.  Let the fetch return a payload whose dates parse, and let the
    database commit the first [k - 1] batches of 100 validated records and
    fail on batch [k].  Then [saveToDatabase] raises the error
    [DATABASE_ERROR] with the message of the database after [k]
    transactions and tries no further batch.  The first [(k - 1) * 100]
    validated records stay written: each of them has a row under its
    symbol and day, the row of the last of them for that day, and every
    other key has the row it had before the save, so that no record of
    batch [k] or of a later batch is written.  [syncStock] returns a
    result whose [errors] is that one message and whose [recordsSaved] is
    0, whatever was committed. *)
Theorem batch_failure_aborts (rt : Runtime) (symbol : string)
    (from to : option Z) (w w1 : World) (data : list FMPHistoricalPrice)
    (dates : list JSDate) (k : nat) (message : string) :
  let sym := trim (toUpperCase symbol) in
  let validated := validateAndNormalize rt (trim (toUpperCase sym)) data in
  let committed := firstn ((k - 1) * 100) validated in
  let error :=
    DataFetcherError ("Database error while saving data: " ++ message)
      "DATABASE_ERROR" None in
  fetchHistoricalData rt sym from to w = (Return data, w1) ->
  parseDates rt data = Return dates ->
  (1 <= k)%nat ->
  ((k - 1) * 100 < List.length validated)%nat ->
  (forall j, (j < k - 1)%nat -> dbFault (env w1) (dbOps w1 + j) = None) ->
  dbFault (env w1) (dbOps w1 + (k - 1)) = Some message ->
  exists w2 result,
    saveToDatabase rt sym data w1 = (Throw error, w2)
    /\ stock_prices w2 = upsertAll (env w1) committed (stock_prices w1)
    /\ List.length committed = ((k - 1) * 100)%nat
    /\ dbOps w2 = (dbOps w1 + k)%nat
    /\ (forall key,
           lookupRow key (stock_prices w2)
           = match lastWritten (env w1) key committed with
             | Some row => Some row
             | None => lookupRow key (stock_prices w1)
             end)
    /\ (forall n,
           In n committed ->
           exists m,
             In m committed
             /\ np_date m / MS_PER_DAY = np_date n / MS_PER_DAY
             /\ lookupRow (sym, np_date n / MS_PER_DAY) (stock_prices w2)
                = Some (toRow (env w1) m))
    /\ syncStock rt symbol from to w = (Return result, w2)
    /\ sr_errors result = [getErrorMessage error]
    /\ sr_recordsSaved result = 0
    /\ sr_recordsFetched result = Z.of_nat (List.length data).
Proof.
  intros sym validated committed error Hfetch Hparse Hk Hlen Hok Hfail.
  assert (Hsave : exists w2,
             saveToDatabase rt sym data w1 = (Throw error, w2)
             /\ stock_prices w2
                = upsertAll (env w1) committed (stock_prices w1)
             /\ dbOps w2 = (dbOps w1 + k)%nat).
  { unfold saveToDatabase. fold validated.
    destruct data as [| r data];
      [exfalso; exact (Nat.nlt_0_r _ Hlen) |].
    destruct validated as [| n l] eqn:Ev;
      [exfalso; exact (Nat.nlt_0_r _ Hlen) |].
    destruct (saveBatches_abort (n :: l) message (k - 1)
                (List.length (n :: l)) 0 0 w1)
      as (w2 & Hrun & Htable & Hops & _); try assumption.
    - lia.
    - exists w2. split; [exact Hrun |]. split; [exact Htable | lia]. }
  destruct Hsave as (w2 & Hsave & Htable & Hops).
  assert (Hrows : forall key,
             lookupRow key (stock_prices w2)
             = match lastWritten (env w1) key committed with
               | Some row => Some row
               | None => lookupRow key (stock_prices w1)
               end)
    by (intros key; rewrite Htable; apply lookupRow_upsertAll).
  pose proof (syncStock_run rt symbol from to w) as Hrun. cbv zeta in Hrun.
  fold sym in Hrun. rewrite Hfetch in Hrun.
  destruct data as [| r data];
    [exfalso; exact (Nat.nlt_0_r _ Hlen) |].
  rewrite Hparse, Hsave in Hrun.
  eexists w2, _. split; [exact Hsave |]. split; [exact Htable |].
  split; [subst committed; rewrite length_firstn; lia |].
  split; [exact Hops |]. split; [exact Hrows |]. split.
  - intros n Hn.
    destruct (lastWritten_present (env w1) committed n Hn)
      as (m & Hm & _ & Hday & Hlast).
    assert (Hs : np_symbol n = sym).
    { assert (Hv : In n validated).
      { rewrite <- (firstn_skipn ((k - 1) * 100) validated).
        apply in_or_app. now left. }
      subst validated. apply validateAndNormalize_symbol in Hv. rewrite Hv.
      apply normalized_fixed. }
    rewrite Hs in Hlast. exists m. repeat split; try assumption.
    now rewrite Hrows, Hlast.
  - split; [exact Hrun |]. repeat split.
Qed.

(* ====================================================================== *)
(** * The sync engine: requests, saves and syncs                           *)
(* ====================================================================== *)

Section SyncEngineMore.

Context (rt : Runtime).

(** X1.  [fetchHistoricalData] raises nothing but a [DataFetcherError].
    Without a symbol or without an API key it raises before any request
    is made and leaves the world as it was; otherwise it makes exactly
    one request, for the URL of the normalized symbol and the window, and
    it returns a list exactly when the answer is a flat array or an
    object with a [historical] array, which is then the list returned. *)
Theorem fetchHistoricalData_guarded (symbol : string) (from to : option Z)
    (w : World) :
  let sym := trim (toUpperCase symbol) in
  let answer := api (env w) (apiCalls w) (historicalUrl rt sym from to) in
  (sym = "" \/ FMP_API_KEY rt = "" ->
   exists message code,
     fetchHistoricalData rt symbol from to w
     = (Throw (DataFetcherError message code None), w))
  /\ (sym <> "" -> FMP_API_KEY rt <> "" ->
      snd (fetchHistoricalData rt symbol from to w) = tick_api w
      /\ forall data,
           fst (fetchHistoricalData rt symbol from to w) = Return data
           <-> answer = AxiosResponse (RespArray data)
               \/ answer = AxiosResponse (RespHistorical data))
  /\ (forall e,
        fst (fetchHistoricalData rt symbol from to w) = Throw e ->
        exists message code status, e = DataFetcherError message code status).
Proof.
  intros sym answer. subst answer. unfold fetchHistoricalData. fold sym.
  split; [| split].
  - intros [Hs | Hk].
    + rewrite Hs. simpl. now eexists _, _.
    + destruct (sym =? "")%string; [now eexists _, _ |].
      rewrite Hk. simpl. now eexists _, _.
  - intros Hs Hk. apply String.eqb_neq in Hs, Hk. rewrite Hs, Hk.
    destruct (api (env w) (apiCalls w) (historicalUrl rt sym from to))
      as [[] | |]; simpl; (split; [reflexivity |]); intros data;
      split; try discriminate; try (intros [H | H]; discriminate H).
    + intros [= ->]. now left.
    + intros [[= ->] | [=]]. reflexivity.
    + intros [= ->]. now right.
    + intros [[=] | [= ->]]. reflexivity.
  - intros e. unfold throw.
    destruct (sym =? "")%string; [intros [= <-]; now eexists _, _, _ |].
    destruct (FMP_API_KEY rt =? "")%string;
      [intros [= <-]; now eexists _, _, _ |].
    destruct (api (env w) (apiCalls w) (historicalUrl rt sym from to))
      as [[] | status code message |]; simpl;
      try discriminate; intros [= <-]; try (now eexists _, _, _).
    unfold classifyFetchError.
    repeat match goal with
           | |- context [if ?b then _ else _] => destruct b
           end; now eexists _, _, _.
Qed.

(** X2.  A payload in which no record passes validation makes
    [saveToDatabase] return 0 without a database operation: the world is
    left as it was. *)
Theorem saveToDatabase_nothing_valid (symbol : string)
    (data : list FMPHistoricalPrice) (w : World) :
  (forall r, In r data -> keeps rt r = false) ->
  saveToDatabase rt symbol data w = (Return 0, w).
Proof.
  intros H. unfold saveToDatabase. destruct data as [| r data]; [reflexivity |].
  now rewrite validateAndNormalize_none.
Qed.

(** X3.  Whatever [saveToDatabase] does, and however it ends, the rows
    of the other symbols are left as they were, no row of the symbol is
    removed, the unique index is respected if it was, and nothing outside
    the table changes. *)
Theorem saveToDatabase_isolated (symbol : string)
    (data : list FMPHistoricalPrice) (w : World) :
  let sym := trim (toUpperCase symbol) in
  let w' := snd (saveToDatabase rt symbol data w) in
  rowsOfOthers sym (stock_prices w') = rowsOfOthers sym (stock_prices w)
  /\ (List.length (rowsOf sym (stock_prices w))
      <= List.length (rowsOf sym (stock_prices w')))%nat
  /\ (uniqueKeys (stock_prices w) -> uniqueKeys (stock_prices w'))
  /\ sameOutsideTable w w'.
Proof.
  intros sym w'.
  destruct (saveToDatabase_others rt symbol data w) as (Ho & Hc & Hu).
  repeat split; try assumption;
    destruct (saveToDatabase rt symbol data w) as [o w1] eqn:E;
    apply saveToDatabase_frame in E; apply E.
Qed.

(** X4.  With a database that does not fail, [saveToDatabase] counts
    every validated record, and afterwards the row under a key of the
    unique index is the row of the last validated record with that key,
    or the row that was there when the payload has no such record. *)
Theorem saveToDatabase_last_wins (symbol : string)
    (data : list FMPHistoricalPrice) (w : World) :
  (forall n, dbFault (env w) n = None) ->
  let validated :=
    validateAndNormalize rt (trim (toUpperCase symbol)) data in
  exists w',
    saveToDatabase rt symbol data w
    = (Return (Z.of_nat (List.length validated)), w')
    /\ forall k,
         lookupRow k (stock_prices w')
         = match lastWritten (env w) k validated with
           | Some row => Some row
           | None => lookupRow k (stock_prices w)
           end.
Proof.
  intros Hok validated.
  destruct (saveToDatabase_succeeds rt symbol data w Hok)
    as (w' & Hrun & Htable & _).
  exists w'. split; [exact Hrun |].
  intros k. rewrite Htable. apply lookupRow_upsertAll.
Qed.

(** X5.  On a table that respects the unique index and with a database
    that does not fail, saving a payload a second time returns the same
    count and leaves the table as the first save left it. *)
Theorem saveToDatabase_idempotent (symbol : string)
    (data : list FMPHistoricalPrice) (w : World) :
  uniqueKeys (stock_prices w) ->
  (forall n, dbFault (env w) n = None) ->
  exists k w1 w2,
    saveToDatabase rt symbol data w = (Return k, w1)
    /\ saveToDatabase rt symbol data w1 = (Return k, w2)
    /\ stock_prices w2 = stock_prices w1.
Proof.
  intros Hu Hok.
  destruct (saveToDatabase_succeeds rt symbol data w Hok)
    as (w1 & Hrun1 & Htable1 & Hsame).
  assert (Henv : env w1 = env w) by apply Hsame.
  destruct (saveToDatabase_succeeds rt symbol data w1) as (w2 & Hrun2 & Htable2 & _);
    [intros n; rewrite Henv; apply Hok |].
  eexists _, w1, w2. split; [exact Hrun1 |]. split; [exact Hrun2 |].
  rewrite Htable2, Htable1, Henv. now apply upsertAll_again.
Qed.

(** X6.  [syncStock] returns a result for the normalized symbol, with at
    most one error; a result with an error counts no saved record, and
    the count of saved records never exceeds the count of fetched ones.
    A sync makes at most one request, leaves both cache families as they
    were, and leaves the rows of the other symbols as they were. *)
Theorem syncStock_accounting (symbol : string) (from to : option Z)
    (w : World) :
  let sym := trim (toUpperCase symbol) in
  exists result w',
    syncStock rt symbol from to w = (Return result, w')
    /\ sr_symbol result = sym
    /\ (List.length (sr_errors result) <= 1)%nat
    /\ (sr_errors result <> [] -> sr_recordsSaved result = 0)
    /\ 0 <= sr_recordsSaved result <= sr_recordsFetched result
    /\ (apiCalls w' <= S (apiCalls w))%nat
    /\ historyCache w' = historyCache w /\ ratioCache w' = ratioCache w
    /\ rowsOfOthers sym (stock_prices w') = rowsOfOthers sym (stock_prices w).
Proof.
  intros sym.
  destruct (syncStock_outcome rt symbol from to w)
    as (result & w' & Hrun & Hs & He & Hz & Hc & Ha & Hh & Hr & _ & _ & _ & _ & Ho).
  exists result, w'. repeat split; try assumption; lia.
Qed.

End SyncEngineMore.

(** ** The first row of a symbol in an order *)

Lemma sort_by_head {A} (key : A -> Z) (l : list A) :
  match hd_error (sort_by key l) with
  | None => l = []
  | Some x => In x l /\ forall y, In y l -> key x <= key y
  end.
Proof.
  pose proof (sort_by_sorted key l) as Hs.
  pose proof (sort_by_In key l) as Hin.
  pose proof (sort_by_length key l) as Hlen.
  destruct (sort_by key l) as [| x s]; simpl.
  - destruct l; [reflexivity | discriminate Hlen].
  - split; [apply Hin; now left |].
    intros y Hy. apply Hin in Hy. inversion Hs as [| ? ? _ Hall]; subst.
    destruct Hy as [<- | Hy]; [lia |].
    rewrite Forall_forall in Hall. exact (Hall y Hy).
Qed.

Lemma rowsOf_In (symbol : string) (table : list PrismaStockPrice)
    (r : PrismaStockPrice) :
  In r (rowsOf symbol table) <-> In r table /\ p_symbol r = symbol.
Proof. unfold rowsOf. now rewrite filter_In, String.eqb_eq. Qed.

(** What [findFirstDate] finds when the database answers. *)
Lemma findFirstDate_found (symbol : string) (descending : bool) (w : World) :
  dbFault (env w) (dbOps w) = None ->
  exists found,
    findFirstDate symbol descending w = (Return found, tick_db w)
    /\ match found with
       | None => forall r, In r (stock_prices w) -> p_symbol r <> symbol
       | Some d =>
           (exists r, In r (stock_prices w) /\ p_symbol r = symbol
                      /\ p_date r = d)
           /\ forall r, In r (stock_prices w) -> p_symbol r = symbol ->
                        if descending then p_date r <= d else d <= p_date r
       end.
Proof.
  intros Hok. unfold findFirstDate. rewrite Hok.
  fold (rowsOf symbol (stock_prices w)).
  pose proof (sort_by_head
                (fun r => if descending then - p_day r else p_day r)
                (rowsOf symbol (stock_prices w))) as Hhead.
  destruct (hd_error _) as [x |]; simpl.
  - exists (Some (p_date x)). split; [reflexivity |].
    destruct Hhead as [Hx Hmin]. apply rowsOf_In in Hx as [Hx Hsym].
    split; [now exists x |].
    intros r Hr Hrs.
    assert (Hin : In r (rowsOf symbol (stock_prices w)))
      by now apply rowsOf_In.
    specialize (Hmin r Hin). unfold p_date, MS_PER_DAY.
    destruct descending; lia.
  - exists None. split; [reflexivity |].
    intros r Hr Hrs.
    assert (Hin : In r (rowsOf symbol (stock_prices w)))
      by now apply rowsOf_In.
    now rewrite Hhead in Hin.
Qed.

Lemma findFirstDate_fails (symbol : string) (descending : bool) (w : World)
    (message : string) :
  dbFault (env w) (dbOps w) = Some message ->
  findFirstDate symbol descending w = (Throw (OtherError message), tick_db w).
Proof. intros H. unfold findFirstDate. now rewrite H. Qed.

Section SyncsAndRanges.

Context (rt : Runtime).

(** X7.  [syncLatest] first asks the table for the latest stored date of
    the normalized symbol.  When that query fails it raises the error
    [DATABASE_ERROR] and makes no request.  When the symbol has no row it
    is a sync of everything; otherwise it is a sync from the day after
    the latest stored date, a date of a stored row that no stored row of
    the symbol is later than. *)
Theorem syncLatest_window (symbol : string) (w : World) :
  let sym := trim (toUpperCase symbol) in
  match dbFault (env w) (dbOps w) with
  | Some message =>
      syncLatest rt symbol w
      = (Throw (DataFetcherError ("Database error: " ++ message)
                  "DATABASE_ERROR" None), tick_db w)
  | None =>
      ((forall r, In r (stock_prices w) -> p_symbol r <> sym)
       /\ syncLatest rt symbol w = syncStock rt sym None None (tick_db w))
      \/ exists last,
           (exists r, In r (stock_prices w) /\ p_symbol r = sym
                      /\ p_date r = last)
           /\ (forall r, In r (stock_prices w) -> p_symbol r = sym ->
                         p_date r <= last)
           /\ syncLatest rt symbol w
              = syncStock rt sym (Some (last + MS_PER_DAY)) None (tick_db w)
  end.
Proof.
  intros sym. unfold syncLatest, getLastStoredDate, bind, tryCatch.
  rewrite (normalized_fixed symbol). fold sym.
  destruct (dbFault (env w) (dbOps w)) as [message |] eqn:Ef.
  - now rewrite (findFirstDate_fails _ _ _ _ Ef).
  - destruct (findFirstDate_found sym true w Ef) as (found & -> & Hfound).
    destruct found as [last |]; simpl.
    + right. exists last. destruct Hfound as [Hex Hmax].
      split; [exact Hex |]. split; [exact Hmax | reflexivity].
    + left. split; [exact Hfound | reflexivity].
Qed.

Lemma syncEach_run (from to : option Z) (symbols : list string) :
  forall results w,
    exists more w',
      syncEach rt symbols from to results w
      = (Return (results ++ more)%list, w')
      /\ map sr_symbol more = map (fun s => trim (toUpperCase s)) symbols
      /\ Forall (fun r => (List.length (sr_errors r) <= 1)%nat) more
      /\ (apiCalls w' <= apiCalls w + List.length symbols)%nat.
Proof.
  induction symbols as [| symbol symbols IH]; intros results w.
  - exists [], w. simpl. rewrite app_nil_r. repeat split; [constructor | lia].
  - destruct (syncStock_outcome rt symbol from to w)
      as (result & w1 & Hrun & Hs & He & _ & _ & Ha & _).
    destruct (IH (results ++ [result])%list w1)
      as (more & w' & Hrest & Hsyms & Herrs & Hcalls).
    exists (result :: more), w'. split; [| split; [| split]].
    + simpl. unfold bind, tryCatch, delay, ret. rewrite Hrun, Hrest.
      now rewrite <- app_assoc.
    + simpl. now rewrite Hs, Hsyms.
    + now constructor.
    + simpl. lia.
Qed.

(** X8.  [syncMultiple] never raises: it returns one result for each
    symbol of the list, in the order of the list and under the
    normalized symbol, each with at most one error, after at most one
    request for each symbol. *)
Theorem syncMultiple_one_each (symbols : list string) (from to : option Z)
    (w : World) :
  exists results w',
    syncMultiple rt symbols from to w = (Return results, w')
    /\ map sr_symbol results = map (fun s => trim (toUpperCase s)) symbols
    /\ Forall (fun r => (List.length (sr_errors r) <= 1)%nat) results
    /\ (apiCalls w' <= apiCalls w + List.length symbols)%nat.
Proof.
  destruct (syncEach_run from to symbols [] w) as (more & w' & H).
  now exists more, w'.
Qed.

End SyncsAndRanges.

(** What [getAvailableDateRange] answers, by what the two queries do. *)
Lemma getAvailableDateRange_run (symbol : string) (w : World) :
  let sym := trim (toUpperCase symbol) in
  let table := stock_prices w in
  match dbFault (env w) (dbOps w), dbFault (env w) (S (dbOps w)) with
  | None, None =>
      exists range,
        getAvailableDateRange symbol w = (Return range, tick_db (tick_db w))
        /\ match range with
           | None => forall r, In r table -> p_symbol r <> sym
           | Some range =>
               (exists r, In r table /\ p_symbol r = sym
                          /\ p_date r = dr_earliest range)
               /\ (exists r, In r table /\ p_symbol r = sym
                             /\ p_date r = dr_latest range)
               /\ forall r, In r table -> p_symbol r = sym ->
                            dr_earliest range <= p_date r <= dr_latest range
           end
  | _, _ =>
      exists message,
        getAvailableDateRange symbol w
        = (Throw (StockServiceError message "DATABASE_ERROR" (Some sym)),
           tick_db (tick_db w))
  end.
Proof.
  intros sym table. subst table.
  unfold getAvailableDateRange, tryCatch, bind, attempt. fold sym.
  destruct (dbFault (env w) (dbOps w)) as [m1 |] eqn:E1.
  - rewrite (findFirstDate_fails _ _ _ _ E1).
    destruct (findFirstDate sym true (tick_db w)) as [[l | e] w2] eqn:E;
      unfold findFirstDate in E; simpl in E;
      destruct (dbFault (env w) (S (dbOps w)));
      injection E as _ <-; now eexists.
  - destruct (findFirstDate_found sym false w E1) as (first & -> & Hfirst).
    destruct (dbFault (env w) (S (dbOps w))) as [m2 |] eqn:E2.
    + rewrite (findFirstDate_fails sym true (tick_db w) m2 E2). now eexists.
    + destruct (findFirstDate_found sym true (tick_db w) E2)
        as (last & -> & Hlast).
      destruct first as [e |], last as [l |]; simpl in *.
      * exists (Some {| dr_earliest := e; dr_latest := l |}).
        split; [reflexivity |]. simpl.
        destruct Hfirst as [Hex1 Hmin], Hlast as [Hex2 Hmax].
        split; [exact Hex1 |]. split; [exact Hex2 |].
        intros r Hr Hs. split; [now apply Hmin | now apply Hmax].
      * exists None. split; [reflexivity | exact Hlast].
      * exists None. split; [reflexivity | exact Hfirst].
      * exists None. split; [reflexivity | exact Hfirst].
Qed.

(** X9.  When both queries are answered, [getAvailableDateRange] returns
    no range exactly when the normalized symbol has no stored row, and
    otherwise the dates of two stored rows of the symbol between which
    the date of every stored row of the symbol lies.  When a query fails
    it raises a [StockServiceError] with the code [DATABASE_ERROR] for
    the normalized symbol. *)
Theorem getAvailableDateRange_bounds (symbol : string) (w : World) :
  let sym := trim (toUpperCase symbol) in
  let table := stock_prices w in
  match dbFault (env w) (dbOps w), dbFault (env w) (S (dbOps w)) with
  | None, None =>
      exists range,
        getAvailableDateRange symbol w = (Return range, tick_db (tick_db w))
        /\ match range with
           | None => forall r, In r table -> p_symbol r <> sym
           | Some range =>
               (exists r, In r table /\ p_symbol r = sym
                          /\ p_date r = dr_earliest range)
               /\ (exists r, In r table /\ p_symbol r = sym
                             /\ p_date r = dr_latest range)
               /\ forall r, In r table -> p_symbol r = sym ->
                            dr_earliest range <= p_date r <= dr_latest range
           end
  | _, _ =>
      exists message,
        getAvailableDateRange symbol w
        = (Throw (StockServiceError message "DATABASE_ERROR" (Some sym)),
           tick_db (tick_db w))
  end.
Proof. exact (getAvailableDateRange_run symbol w). Qed.

(* ====================================================================== *)
(** * The query engine: reads, refreshes and warm-ups                      *)
(* ====================================================================== *)

Lemma isValidTimeframe_upper (timeframe : string) :
  isValidTimeframe (toUpperCase timeframe) = isValidTimeframe timeframe.
Proof. unfold isValidTimeframe. now rewrite toUpperCase_idem. Qed.

Section Reads.

Context (rt : Runtime).

Lemma needsDataRefresh_world (symbol timeframe : string)
    (data : list PrismaStockPrice) (w : World) :
  exists refresh w',
    needsDataRefresh rt symbol timeframe data w = (Return refresh, w')
    /\ (w' = w \/ w' = tick_clock w \/ w' = tick_clock (tick_clock w)).
Proof.
  unfold needsDataRefresh, bind, newDate, ret.
  destruct data as [| r data]; [eexists _, _; split; [reflexivity | auto] |].
  destruct (toUpperCase timeframe =? "YTD")%string;
    match goal with
    | |- context [if int_ltb_num ?n ?x then _ else _] =>
        destruct (int_ltb_num n x)
    end;
    eexists _, _; (split; [reflexivity | auto]).
Qed.

Lemma queryDatabase_world (symbol : string) (from to : Z) (w : World) o w' :
  queryDatabase symbol from to w = (o, w') -> w' = tick_db w.
Proof.
  unfold queryDatabase. destruct (dbFault (env w) (dbOps w));
    now intros [= _ <-].
Qed.

(** Layer 3 always has rows to serve; it makes at most one request and
    leaves the caches alone. *)
Lemma refreshedRows_frame (symbol timeframe : string) (from to : Z)
    (dbData : list PrismaStockPrice) (w : World) :
  exists rows w',
    refreshedRows rt symbol timeframe from to dbData w = (Return rows, w')
    /\ cache w' = cache w /\ env w' = env w
    /\ historyCache w' = historyCache w /\ ratioCache w' = ratioCache w
    /\ cacheOps w' = cacheOps w
    /\ (apiCalls w <= apiCalls w' <= S (apiCalls w))%nat.
Proof.
  unfold refreshedRows, bind, tryCatch, ret.
  destruct (needsDataRefresh_world symbol timeframe dbData w)
    as (refresh & w1 & -> & Hw1).
  assert (H1 : cache w1 = cache w /\ env w1 = env w
               /\ historyCache w1 = historyCache w
               /\ ratioCache w1 = ratioCache w
               /\ cacheOps w1 = cacheOps w /\ apiCalls w1 = apiCalls w)
    by (destruct Hw1 as [-> | [-> | ->]]; repeat split).
  destruct H1 as (Hc & He & Hh & Hr & Hco & Ha).
  destruct refresh.
  2:{ exists dbData, w1. rewrite Hc, He, Hh, Hr, Hco, Ha.
      repeat split; lia. }
  destruct (syncStock_outcome rt symbol (Some from) (Some to) w1)
    as (result & w2 & -> & _ & _ & _ & _ & Ha2 & Hh2 & Hr2 & Hc2 & He2
        & Hco2 & _).
  assert (Hdone : forall wx, wx = w2 \/ wx = tick_db w2 ->
             cache wx = cache w /\ env wx = env w
             /\ historyCache wx = historyCache w
             /\ ratioCache wx = ratioCache w /\ cacheOps wx = cacheOps w
             /\ (apiCalls w <= apiCalls wx <= S (apiCalls w))%nat)
    by (intros wx [-> | ->]; simpl; repeat split; try congruence; lia).
  destruct (sr_errors result);
    [| exists dbData, w2; split; [reflexivity | apply Hdone; now left]].
  destruct (0 <? sr_recordsSaved result);
    [| exists dbData, w2; split; [reflexivity | apply Hdone; now left]].
  destruct (queryDatabase symbol from to w2) as [[rows | e] w3] eqn:Eq;
    pose proof (queryDatabase_world _ _ _ _ _ _ Eq) as ->.
  - exists rows, (tick_db w2). split; [reflexivity | apply Hdone; now right].
  - exists dbData, (tick_db w2). split; [reflexivity | apply Hdone; now right].
Qed.

(** The layers of [historyFromStore], one after the other. *)
Lemma historyFromStore_layers (symbol timeframe : string) (w : World) :
  exists from to,
    historyFromStore rt symbol timeframe w
    = match queryDatabase symbol from to (tick_clock w) with
      | (Throw e, w1) => (Throw e, w1)
      | (Return dbData, w1) =>
          match refreshedRows rt symbol timeframe from to dbData w1 with
          | (Throw e, w2) => (Throw e, w2)
          | (Return rows, w2) =>
              match convertPrismaToStockPriceData rows with
              | [] => (Return [], w2)
              | result =>
                  (Return result, snd (setStockHistory symbol timeframe result w2))
              end
          end
      end.
Proof.
  assert (Hrange : exists from to,
             calculateDateRange rt timeframe w
             = (Return (from, to), tick_clock w))
    by (unfold calculateDateRange, bind, newDate, ret; now eexists _, _).
  destruct Hrange as (from & to & Hrange). exists from, to.
  unfold historyFromStore, refreshedRows, bind, ret. rewrite Hrange.
  destruct (queryDatabase symbol from to (tick_clock w)) as [[dbData | e] w1];
    [| reflexivity].
  destruct (needsDataRefresh rt symbol timeframe dbData w1)
    as [[refresh | e] w2]; [| reflexivity].
  match goal with
  | |- context [(if refresh then ?a else ?b) w2] =>
      destruct ((if refresh then a else b) w2) as [[rows | e] w3]
  end; [| reflexivity].
  destruct (convertPrismaToStockPriceData rows) as [| x result] eqn:E;
    [reflexivity |].
  unfold prepareForCache. rewrite map_id.
  unfold setStockHistory. now destruct (isAvailable w3).
Qed.

(** A history read for a timeframe of the enum: the answer of the cache
    when it is not empty, the store otherwise. *)
Lemma getHistoricalData_lookup (symbol timeframe : string) (w : World) :
  isValidTimeframe timeframe = true ->
  let sym := trim (toUpperCase symbol) in
  let tf := toUpperCase timeframe in
  getHistoricalData rt symbol timeframe w
  = match historyCacheLookup w sym tf with
    | Some ((_ :: _) as hit) => (Return hit, tick_cache w)
    | _ => historyFromStore rt sym tf (tick_cache w)
    end.
Proof.
  intros Etf sym tf.
  unfold getHistoricalData. rewrite isValidTimeframe_upper, Etf.
  change (negb true) with false. cbv iota. fold sym tf.
  unfold bind, getStockHistory, historyCacheLookup, ret.
  destruct (isAvailable w); [| reflexivity].
  destruct (historyCache w (buildStockHistoryKey sym tf)) as [entry |];
    simpl; [| reflexivity].
  destruct (ce_value entry); [reflexivity |].
  unfold rehydrateDates. now rewrite map_id.
Qed.

Lemma historyFromStore_ends (sym tf : string) (w : World) :
  (exists data, fst (historyFromStore rt sym tf w) = Return data)
  \/ exists message,
       dbFault (env w) (dbOps w) = Some message
       /\ historyFromStore rt sym tf w
          = (Throw (StockServiceError
                      ("Database query failed: " ++ message)
                      "DATABASE_ERROR" (Some sym)),
             tick_db (tick_clock w)).
Proof.
  destruct (historyFromStore_layers sym tf w) as (from & to & ->).
  destruct (dbFault (env w) (dbOps w)) as [message |] eqn:Ef.
  { right. exists message. split; [reflexivity |].
    unfold queryDatabase. simpl env. simpl dbOps. now rewrite Ef. }
  left.
  destruct (queryDatabase sym from to (tick_clock w))
    as [[dbData | e] w1] eqn:Eq.
  2:{ unfold queryDatabase in Eq. simpl env in Eq. simpl dbOps in Eq.
      rewrite Ef in Eq. discriminate Eq. }
  destruct (refreshedRows_frame sym tf from to dbData w1)
    as (rows' & w2 & -> & _).
  destruct (convertPrismaToStockPriceData rows'); now eexists.
Qed.

Lemma historyFromStore_budget (sym tf : string) (w : World) :
  (apiCalls (snd (historyFromStore rt sym tf w)) <= S (apiCalls w))%nat.
Proof.
  destruct (historyFromStore_layers sym tf w) as (from & to & ->).
  destruct (queryDatabase sym from to (tick_clock w))
    as [[dbData | e] w1] eqn:Eq;
    pose proof (queryDatabase_world _ _ _ _ _ _ Eq) as ->; [| simpl; lia].
  destruct (refreshedRows_frame sym tf from to dbData
              (tick_db (tick_clock w)))
    as (rows' & w2 & -> & _ & _ & _ & _ & _ & Ha).
  simpl in Ha.
  destruct (convertPrismaToStockPriceData rows'); [simpl; lia |].
  unfold setStockHistory. destruct (isAvailable w2); simpl; lia.
Qed.

(** How a history read ends. *)
Lemma getHistoricalData_ends (symbol timeframe : string) (w : World) :
  let sym := trim (toUpperCase symbol) in
  (isValidTimeframe timeframe = false
   /\ exists message,
        getHistoricalData rt symbol timeframe w
        = (Throw (StockServiceError message "INVALID_TIMEFRAME" (Some sym)), w))
  \/ (isValidTimeframe timeframe = true
      /\ ((exists data, fst (getHistoricalData rt symbol timeframe w)
                        = Return data)
          \/ exists message,
               dbFault (env w) (dbOps w) = Some message
               /\ getHistoricalData rt symbol timeframe w
                  = (Throw (StockServiceError
                              ("Database query failed: " ++ message)
                              "DATABASE_ERROR" (Some sym)),
                     tick_db (tick_clock (tick_cache w))))).
Proof.
  intros sym.
  destruct (isValidTimeframe timeframe) eqn:Etf.
  2:{ left. split; [reflexivity |]. eexists.
      now apply getHistoricalData_invalid. }
  right. split; [reflexivity |].
  rewrite (getHistoricalData_lookup symbol timeframe w Etf). fold sym.
  set (tf := toUpperCase timeframe).
  pose proof (historyFromStore_ends sym tf (tick_cache w)) as Hstore.
  destruct (historyCacheLookup w sym tf) as [[| x hit] |]; try exact Hstore.
  left. now eexists.
Qed.

(** A history read makes at most one request. *)
Lemma getHistoricalData_budget (symbol timeframe : string) (w : World) :
  (apiCalls (snd (getHistoricalData rt symbol timeframe w))
   <= S (apiCalls w))%nat.
Proof.
  destruct (isValidTimeframe timeframe) eqn:Etf.
  2:{ rewrite (getHistoricalData_invalid rt symbol timeframe w Etf).
      simpl. lia. }
  rewrite (getHistoricalData_lookup symbol timeframe w Etf).
  pose proof (historyFromStore_budget (trim (toUpperCase symbol))
                (toUpperCase timeframe) (tick_cache w)) as Hstore.
  destruct (historyCacheLookup w _ _) as [[| x hit] |]; try exact Hstore.
  simpl. lia.
Qed.

(** X10.  [getHistoricalData] raises in two cases only: a timeframe
    outside the enum, before anything is touched, and, after a cache
    miss, a failure of the first query on the table, which is raised as
    [DATABASE_ERROR].  With a valid timeframe and a database that answers
    that query it returns, whatever the market data source and the later
    database operations do. *)
Theorem getHistoricalData_failures (symbol timeframe : string) (w : World) :
  let sym := trim (toUpperCase symbol) in
  match fst (getHistoricalData rt symbol timeframe w) with
  | Return _ => isValidTimeframe timeframe = true
  | Throw e =>
      (isValidTimeframe timeframe = false
       /\ snd (getHistoricalData rt symbol timeframe w) = w
       /\ exists message,
            e = StockServiceError message "INVALID_TIMEFRAME" (Some sym))
      \/ (isValidTimeframe timeframe = true
          /\ exists message,
               dbFault (env w) (dbOps w) = Some message
               /\ e = StockServiceError ("Database query failed: " ++ message)
                        "DATABASE_ERROR" (Some sym)
               /\ snd (getHistoricalData rt symbol timeframe w)
                  = tick_db (tick_clock (tick_cache w)))
  end
  /\ (isValidTimeframe timeframe = true ->
      dbFault (env w) (dbOps w) = None ->
      exists data, fst (getHistoricalData rt symbol timeframe w) = Return data).
Proof.
  intros sym.
  destruct (getHistoricalData_ends symbol timeframe w)
    as [[Htf [message Hrun]] | [Htf [[data Hrun] | (message & Hf & Hrun)]]];
    fold sym in Hrun.
  - rewrite Hrun. simpl. split; [| congruence].
    left. split; [exact Htf |]. split; [reflexivity | now exists message].
  - rewrite Hrun. split; [exact Htf |]. intros _ _. now exists data.
  - rewrite Hrun. simpl. split; [| congruence].
    right. split; [exact Htf |]. exists message. now repeat split.
Qed.

End Reads.

Section ReadThrough.

Context (rt : Runtime).

(** With a cache that is up, what the store serves is in the cache
    afterwards. *)
Lemma historyFromStore_stores (sym tf : string) (w : World)
    (data : list StockPriceData) :
  cs_enabled (cache w) = true ->
  (forall n, cacheUp (env w) n = true) ->
  fst (historyFromStore rt sym tf w) = Return data ->
  data <> [] ->
  let w1 := snd (historyFromStore rt sym tf w) in
  historyCacheLookup w1 sym tf = Some data
  /\ cache w1 = cache w /\ env w1 = env w.
Proof.
  intros Hon Hup. destruct (historyFromStore_layers rt sym tf w)
    as (from & to & ->).
  destruct (queryDatabase sym from to (tick_clock w))
    as [[dbData | e] w0] eqn:Eq;
    pose proof (queryDatabase_world _ _ _ _ _ _ Eq) as ->;
    [| discriminate].
  destruct (refreshedRows_frame rt sym tf from to dbData
              (tick_db (tick_clock w)))
    as (rows & w2 & -> & Hc & He & _).
  simpl in Hc, He.
  destruct (convertPrismaToStockPriceData rows) as [| x result];
    simpl fst; intros [= <-] Hdata; [congruence |].
  assert (Havail : isAvailable w2 = true)
    by (unfold isAvailable; now rewrite Hc, He, Hon, Hup).
  unfold setStockHistory. rewrite Havail. simpl snd.
  unfold historyCacheLookup, isAvailable. simpl.
  rewrite Hc, He, Hon, Hup. simpl.
  unfold update. rewrite String.eqb_refl. simpl. repeat split.
Qed.

(** X11.  With a cache that is enabled and up, a history read that
    returned records is answered from the cache when it is repeated: the
    same records come back, and the second read touches neither the
    table nor the market data source nor the clock. *)
Theorem getHistoricalData_cached_after (symbol timeframe : string)
    (w : World) (data : list StockPriceData) :
  cs_enabled (cache w) = true ->
  (forall n, cacheUp (env w) n = true) ->
  fst (getHistoricalData rt symbol timeframe w) = Return data ->
  data <> [] ->
  let w1 := snd (getHistoricalData rt symbol timeframe w) in
  getHistoricalData rt symbol timeframe w1 = (Return data, tick_cache w1).
Proof.
  intros Hon Hup.
  destruct (isValidTimeframe timeframe) eqn:Etf.
  2:{ rewrite (getHistoricalData_invalid rt symbol timeframe w Etf).
      discriminate. }
  rewrite (getHistoricalData_lookup rt symbol timeframe w Etf).
  set (sym := trim (toUpperCase symbol)). set (tf := toUpperCase timeframe).
  assert (Hstore :
            fst (historyFromStore rt sym tf (tick_cache w)) = Return data ->
            data <> [] ->
            let w1 := snd (historyFromStore rt sym tf (tick_cache w)) in
            getHistoricalData rt symbol timeframe w1
            = (Return data, tick_cache w1)).
  { intros Hrun Hdata.
    destruct (historyFromStore_stores sym tf (tick_cache w) data Hon Hup
                Hrun Hdata) as (Hlook & _ & _).
    intros w1. rewrite (getHistoricalData_lookup rt symbol timeframe w1 Etf).
    fold sym tf. subst w1. rewrite Hlook.
    destruct data; [congruence | reflexivity]. }
  destruct (historyCacheLookup w sym tf) as [[| x hit] |] eqn:Elook;
    try exact Hstore.
  simpl. intros [= <-] _.
  rewrite (getHistoricalData_lookup rt symbol timeframe (tick_cache w) Etf).
  fold sym tf.
  assert (Hsame : historyCacheLookup (tick_cache w) sym tf
                  = historyCacheLookup w sym tf).
  { unfold historyCacheLookup, isAvailable. simpl. now rewrite !Hon, !Hup. }
  now rewrite Hsame, Elook.
Qed.

(** ** Refreshing a symbol *)

Lemma invalidateStock_run (symbol : string) (w : World) :
  invalidateStock symbol w
  = (Return tt,
     if isAvailable w then
       tick_cache
         (set_ratioCache
            (fun key => if globMatch (stockPattern symbol) key then None
                        else ratioCache w key)
            (set_historyCache
               (fun key => if globMatch (stockPattern symbol) key then None
                           else historyCache w key) w))
     else tick_cache w).
Proof. unfold invalidateStock. now destruct (isAvailable w). Qed.

(** [refreshData] is a sync of everything, after the invalidation. *)
Lemma refreshData_run (symbol : string) (w : World) :
  let sym := trim (toUpperCase symbol) in
  exists result w',
    refreshData rt symbol w = (Return result, w')
    /\ syncStock rt sym None None (snd (invalidateStock sym w))
       = (Return result, w')
    /\ sr_symbol result = sym
    /\ historyCache w' = historyCache (snd (invalidateStock sym w))
    /\ ratioCache w' = ratioCache (snd (invalidateStock sym w)).
Proof.
  intros sym. unfold refreshData, bind, tryCatch, ret. fold sym.
  rewrite invalidateStock_run. simpl snd.
  match goal with
  | |- context [syncStock rt sym None None ?w1] =>
      destruct (syncStock_outcome rt sym None None w1)
        as (result & w' & Hrun & Hs & _ & _ & _ & _ & Hh & Hr & _)
  end.
  exists result, w'. rewrite Hrun.
  unfold sym in Hs at 1. rewrite normalized_fixed in Hs.
  now repeat split.
Qed.

Lemma historyKey_shape (symbol timeframe : string) :
  buildStockHistoryKey symbol timeframe
  = ("stock:" ++ "history" ++ ":" ++ toUpperCase symbol ++ ":" ++ timeframe)%string.
Proof. reflexivity. Qed.

Lemma ratioKey_shape (symbol1 symbol2 timeframe : string) :
  buildPriceRatioKey symbol1 symbol2 timeframe
  = ("stock:" ++ "ratio" ++ ":" ++ toUpperCase symbol1 ++ ":"
       ++ toUpperCase symbol2 ++ ":" ++ timeframe)%string.
Proof. reflexivity. Qed.

(** The pattern of a symbol does not match the history key of another
    symbol. *)
Lemma stockPattern_other (symbol other timeframe : string) :
  starFree (toUpperCase symbol) = true ->
  colonFree (toUpperCase symbol) = true ->
  colonFree (toUpperCase other) = true ->
  colonFree timeframe = true ->
  toUpperCase other <> toUpperCase symbol ->
  globMatch (stockPattern symbol) (buildStockHistoryKey other timeframe)
  = false.
Proof.
  intros Hstar Hs Ho Ht Hneq.
  destruct (globMatch _ _) eqn:E; [| reflexivity]. exfalso.
  apply (stockPattern_matches symbol _ Hstar) in E as (a & b & E).
  rewrite historyKey_shape in E. simpl in E.
  injection E as E.
  change (String "h" (String "i" (String "s" (String "t" (String "o"
            (String "r" (String "y" (String ":"
               (toUpperCase other ++ String ":" timeframe)))))))))
    with ("history" ++ ":" ++ (toUpperCase other ++ ":" ++ timeframe))%string
    in E.
  symmetry in E.
  destruct (colon_split "history" eq_refl _ _ _ E) as [[_ E1] | (a' & _ & E1)].
  - destruct (colon_first _ _ _ _ Hs Ho E1) as [Heq _]. congruence.
  - destruct (colon_split _ Ho _ _ _ E1) as [[_ E2] | (a'' & _ & E2)];
      exact (colonFree_no_colon _ _ _ Ht E2).
Qed.

(** X12.  For a symbol the controller accepts, [refreshData] never
    raises and returns the result of a sync of everything for the
    upper-cased symbol.  When the cache is available, afterwards no
    history is cached for the symbol under any timeframe and no ratio is
    cached with the symbol on either side, while the history cached for
    any other such symbol stays as it was.  When the cache is not
    available, every cached entry survives the refresh. *)
Theorem refreshData_invalidates (symbol : string) (w : World) :
  StockController.isValidSymbol symbol = true ->
  let sym := toUpperCase symbol in
  exists result w',
    refreshData rt symbol w = (Return result, w')
    /\ syncStock rt sym None None (snd (invalidateStock sym w))
       = (Return result, w')
    /\ sr_symbol result = sym
    /\ (isAvailable w = true ->
        (forall timeframe,
            historyCache w' (buildStockHistoryKey sym timeframe) = None)
        /\ (forall other timeframe,
               ratioCache w' (buildPriceRatioKey sym other timeframe) = None
               /\ ratioCache w' (buildPriceRatioKey other sym timeframe)
                  = None)
        /\ (forall other timeframe,
               StockController.isValidSymbol other = true ->
               toUpperCase other <> sym ->
               colonFree timeframe = true ->
               historyCache w' (buildStockHistoryKey other timeframe)
               = historyCache w (buildStockHistoryKey other timeframe)))
    /\ (isAvailable w = false ->
        historyCache w' = historyCache w /\ ratioCache w' = ratioCache w).
Proof.
  intros Hvalid sym.
  pose proof (isValidSymbol_normalized symbol Hvalid) as Hnorm.
  pose proof (isValidSymbol_starFree symbol Hvalid) as Hstar. fold sym in Hstar.
  pose proof (isValidSymbol_colonFree symbol Hvalid) as Hcolon.
  fold sym in Hcolon.
  assert (Hup : toUpperCase sym = sym) by apply toUpperCase_idem.
  destruct (refreshData_run symbol w)
    as (result & w' & Hrun & Hsync & Hs & Hh & Hr).
  rewrite Hnorm in Hsync, Hs, Hh, Hr. fold sym in Hsync, Hs, Hh, Hr.
  exists result, w'. split; [exact Hrun |]. split; [exact Hsync |].
  split; [exact Hs |].
  assert (Hpat : forall key,
             globMatch (stockPattern sym) key = true
             <-> exists a b,
                   key = ("stock:" ++ a ++ ":" ++ sym ++ ":" ++ b)%string).
  { intros key. rewrite (stockPattern_matches sym key); rewrite Hup;
      [reflexivity | exact Hstar]. }
  assert (Hother : forall other timeframe,
             StockController.isValidSymbol other = true ->
             toUpperCase other <> sym ->
             colonFree timeframe = true ->
             globMatch (stockPattern sym)
               (buildStockHistoryKey other timeframe) = false).
  { intros other timeframe Hother Hneq Htf.
    apply stockPattern_other; rewrite ?Hup; try assumption.
    now apply isValidSymbol_colonFree. }
  rewrite Hh, Hr, invalidateStock_run.
  set (matches := globMatch (stockPattern sym)) in *.
  split; intros Havail; rewrite Havail;
    cbn [snd historyCache ratioCache tick_cache set_ratioCache
           set_historyCache];
    [| now split].
  split; [| split].
  - intros timeframe.
    assert (E : matches (buildStockHistoryKey sym timeframe) = true).
    { apply Hpat. exists "history", timeframe.
      rewrite historyKey_shape, Hup. reflexivity. }
    now rewrite E.
  - intros other timeframe. split.
    + assert (E : matches (buildPriceRatioKey sym other timeframe) = true).
      { apply Hpat. exists "ratio", (toUpperCase other ++ ":" ++ timeframe)%string.
        rewrite ratioKey_shape, Hup. reflexivity. }
      now rewrite E.
    + assert (E : matches (buildPriceRatioKey other sym timeframe) = true).
      { apply Hpat. exists ("ratio:" ++ toUpperCase other)%string, timeframe.
        rewrite ratioKey_shape, Hup. reflexivity. }
      now rewrite E.
  - intros other timeframe Ho Hneq Htf.
    now rewrite (Hother other timeframe Ho Hneq Htf).
Qed.

End ReadThrough.

(** ** Maps keyed by text *)

Lemma smap_get_set {V} (k k' : string) (v : V) (m : list (string * V)) :
  smap_get k' (smap_set k v m)
  = if (k =? k')%string then Some v else smap_get k' m.
Proof.
  induction m as [| [k0 v0] m IH]; simpl.
  - reflexivity.
  - destruct (String.eqb_spec k0 k) as [-> | Hk0]; simpl.
    + destruct (k =? k')%string; reflexivity.
    + rewrite IH. destruct (String.eqb_spec k0 k') as [-> | Hk0'];
        [| reflexivity].
      destruct (String.eqb_spec k k') as [-> | _]; [congruence | reflexivity].
Qed.

(** The map that a run of [set] builds from entries. *)
Lemma smap_collect {V} (entries : list (string * V)) :
  forall (m : list (string * V)) (k : string),
    (forall v, smap_get k
                 (fold_left
                    (fun results entry =>
                       smap_set (fst entry) (snd entry) results)
                    entries m) = Some v ->
               (exists e, In e entries /\ fst e = k /\ snd e = v)
               \/ smap_get k m = Some v)
    /\ ((In k (map fst entries) \/ smap_get k m <> None) ->
        smap_get k
          (fold_left
             (fun results entry => smap_set (fst entry) (snd entry) results)
             entries m) <> None).
Proof.
  induction entries as [| e entries IH]; intros m k; simpl.
  - split; [intros v H; now right | intros [[] | H]; exact H].
  - destruct (IH (smap_set (fst e) (snd e) m) k) as [IH1 IH2]. split.
    + intros v H. apply IH1 in H as [(e' & He' & Hk & Hv) | H].
      * left. exists e'. auto.
      * rewrite smap_get_set in H.
        destruct (String.eqb_spec (fst e) k) as [Hk | _]; [| now right].
        injection H as <-. left. exists e. auto.
    + intros H. apply IH2. rewrite smap_get_set.
      destruct (String.eqb_spec (fst e) k) as [Hk | Hk];
        [right; discriminate |].
      destruct H as [[H | H] | H]; [congruence | now left | now right].
Qed.

Section Batches.

Context (rt : Runtime).

Lemma readEach_run (timeframe : string) (symbols : list string) :
  forall w,
    exists entries w',
      readEach rt symbols timeframe w = (Return entries, w')
      /\ map fst entries = map toUpperCase symbols
      /\ (apiCalls w' <= apiCalls w + List.length symbols)%nat
      /\ (isValidTimeframe timeframe = false ->
          w' = w /\ Forall (fun e => snd e = []) entries).
Proof.
  induction symbols as [| symbol symbols IH]; intros w.
  - exists [], w. simpl. repeat split; [lia | constructor].
  - simpl. unfold bind, tryCatch, ret.
    pose proof (getHistoricalData_budget rt symbol timeframe w) as Hb.
    pose proof (getHistoricalData_invalid rt symbol timeframe w) as Hinv.
    destruct (getHistoricalData rt symbol timeframe w) as [[data | e] w1];
      simpl in Hb;
      destruct (IH w1) as (entries & w' & -> & Hkeys & Hcalls & Hbad);
      eexists _, w'; (split; [reflexivity |]); simpl;
      (split; [now rewrite Hkeys |]); (split; [lia |]);
      intros Htf; specialize (Hinv Htf); try discriminate Hinv;
      injection Hinv as _ <-; destruct (Hbad Htf) as [-> Hall];
      split; [reflexivity | now constructor].
Qed.

(** X13.  [getMultipleHistoricalData] never raises.  It returns a map
    with an entry under the upper-cased text of every symbol asked for,
    and under no other key, after at most one request for each symbol.
    A read that fails leaves an empty list under its symbol: with a
    timeframe outside the enum every entry is empty and the world is as
    it was. *)
Theorem getMultipleHistoricalData_total (symbols : list string)
    (timeframe : string) (w : World) :
  exists results w',
    getMultipleHistoricalData rt symbols timeframe w = (Return results, w')
    /\ (forall symbol, In symbol symbols ->
          exists data, smap_get (toUpperCase symbol) results = Some data)
    /\ (forall key data, smap_get key results = Some data ->
          exists symbol, In symbol symbols /\ key = toUpperCase symbol)
    /\ (apiCalls w' <= apiCalls w + List.length symbols)%nat
    /\ (isValidTimeframe timeframe = false ->
        w' = w
        /\ forall key data, smap_get key results = Some data -> data = []).
Proof.
  destruct (readEach_run timeframe symbols w)
    as (entries & w' & Hrun & Hkeys & Hcalls & Hbad).
  unfold getMultipleHistoricalData, bind, ret. rewrite Hrun.
  eexists _, w'. split; [reflexivity |]. split; [| split; [| split]].
  - intros symbol Hin.
    destruct (smap_collect entries [] (toUpperCase symbol)) as [_ H].
    match goal with
    | |- exists data, ?x = Some data =>
        destruct x as [data |] eqn:E; [now exists data |]
    end.
    exfalso. apply H; [| reflexivity]. left. rewrite Hkeys. now apply in_map.
  - intros key data H.
    destruct (smap_collect entries [] key) as [Hget _].
    apply Hget in H as [(e & He & Hk & _) | H]; [| discriminate H].
    assert (Hin : In key (map fst entries))
      by (rewrite <- Hk; now apply in_map).
    rewrite Hkeys in Hin. apply in_map_iff in Hin as (symbol & <- & Hs).
    now exists symbol.
  - exact Hcalls.
  - intros Htf. destruct (Hbad Htf) as [-> Hall]. split; [reflexivity |].
    intros key data H.
    destruct (smap_collect entries [] key) as [Hget _].
    apply Hget in H as [(e & He & _ & <-) | H]; [| discriminate H].
    rewrite Forall_forall in Hall. now apply Hall.
Qed.

Lemma warmupTimeframes_run (symbol : string) (timeframes : list string) :
  forall w,
    exists w',
      warmupTimeframes rt symbol timeframes w = (Return tt, w')
      /\ (apiCalls w' <= apiCalls w + List.length timeframes)%nat
      /\ (consistent w -> consistent w').
Proof.
  induction timeframes as [| timeframe timeframes IH]; intros w.
  - exists w. simpl. split; [reflexivity | split; [lia | auto]].
  - simpl. unfold bind, tryCatch, ret.
    pose proof (getHistoricalData_budget rt symbol timeframe w) as Hb.
    pose proof (getHistoricalData_preserves rt symbol timeframe w) as Hp.
    destruct (getHistoricalData rt symbol timeframe w) as [[data | e] w1];
      simpl in Hb;
      destruct (IH w1) as (w' & -> & Hcalls & Hcons);
      exists w'; (split; [reflexivity |]); (split; [lia |]);
      intros Hw; apply Hcons; exact (proj1 (Hp _ _ Hw eq_refl)).
Qed.

Lemma warmupSymbols_run (timeframes : list string) (symbols : list string) :
  forall w,
    exists w',
      warmupSymbols rt symbols timeframes w = (Return tt, w')
      /\ (apiCalls w'
          <= apiCalls w + List.length symbols * List.length timeframes)%nat
      /\ (consistent w -> consistent w').
Proof.
  induction symbols as [| symbol symbols IH]; intros w.
  - exists w. simpl. split; [reflexivity | split; [lia | auto]].
  - simpl. unfold bind.
    destruct (warmupTimeframes_run symbol timeframes w)
      as (w1 & -> & Hcalls1 & Hcons1).
    destruct (IH w1) as (w' & -> & Hcalls & Hcons).
    exists w'. split; [reflexivity |]. split; [lia | auto].
Qed.

(** X14.  [warmupCache] never raises, whatever the symbols and the
    timeframes: a read that fails is skipped.  It makes at most one
    request for each pair of a symbol and a timeframe, three timeframes
    when none are given, and it keeps the table within its unique index
    and the cached sequences as reads store them. *)
Theorem warmupCache_budget (symbols : list string)
    (timeframes : option (list string)) (w : World) :
  let each :=
    match timeframes with
    | Some given => List.length given
    | None => 3%nat
    end in
  exists w',
    warmupCache rt symbols timeframes w = (Return tt, w')
    /\ (apiCalls w' <= apiCalls w + List.length symbols * each)%nat
    /\ (consistent w -> consistent w').
Proof.
  intros each. unfold warmupCache.
  destruct timeframes as [given |]; apply warmupSymbols_run.
Qed.

End Batches.

(* ====================================================================== *)
(** * The stock controller                                                 *)
(* ====================================================================== *)

(** A timeframe the controller accepts is one the service accepts. *)
Lemma controller_timeframe_valid (t : string) :
  StockController.isValidTimeframe t = true -> isValidTimeframe t = true.
Proof.
  unfold StockController.isValidTimeframe, StockController.VALID_TIMEFRAMES.
  cbn [existsb]. intros H.
  repeat (apply orb_true_iff in H as [H | H]); try discriminate H;
    apply String.eqb_eq in H; subst t; reflexivity.
Qed.

Lemma sorted_last_max {A} (key : A -> Z) (l : list A) (x : A) :
  StronglySorted (key_lt key) l ->
  nth_error l (List.length l - 1) = Some x ->
  In x l /\ forall y, In y l -> key y <= key x.
Proof.
  induction l as [| a l IH]; [discriminate |].
  cbn [List.length]. intros Hs Hx. inversion Hs as [| ? ? Hs' Hall]; subst.
  destruct l as [| b l].
  - injection Hx as <-. split; [now left |].
    intros y [<- | []]. lia.
  - replace (S (List.length (b :: l)) - 1)%nat with (S (List.length l)) in Hx
      by (simpl; lia).
    cbn [nth_error] in Hx.
    assert (Hx' : nth_error (b :: l) (List.length (b :: l) - 1) = Some x).
    { replace (List.length (b :: l) - 1)%nat with (List.length l)
        by (simpl; lia). exact Hx. }
    destruct (IH Hs' Hx') as [Hin Hmax]. split; [now right |].
    intros y [<- | Hy]; [| now apply Hmax].
    rewrite Forall_forall in Hall. specialize (Hall x Hin).
    unfold key_lt in Hall. lia.
Qed.

Section Controller.

Context (rt : Runtime).

(** X15.  The handler of [GET /:symbol/history] always answers.  A
    symbol that is not one to ten letters or digits is answered with 400
    and [Invalid symbol], and a timeframe that is not, to the letter, one
    of the five is answered with 400, both before the service is called;
    a missing timeframe counts as [1M].  Otherwise the answer is 200
    with the records the service returns, an empty list included, or 500
    with the message of the failed first query on the table; it is never
    404. *)
Theorem getHistory_status
    (params_symbol query_timeframe : StockController.ReqValue) (w : World) :
  let symbol := StockController.str params_symbol "" in
  let timeframe := StockController.str query_timeframe "1M" in
  let service := getHistoricalData rt (toUpperCase symbol) timeframe w in
  exists response w',
    StockController.getHistory rt params_symbol query_timeframe w
    = (Return response, w')
    /\ (StockController.isValidSymbol symbol = false ->
        response
        = StockController.statusJson 400
            (StockController.ApiFailure "Invalid symbol")
        /\ w' = w)
    /\ (StockController.isValidSymbol symbol = true ->
        StockController.isValidTimeframe timeframe = false ->
        response
        = StockController.statusJson 400
            (StockController.ApiFailure StockController.invalidTimeframe)
        /\ w' = w)
    /\ (StockController.isValidSymbol symbol = true ->
        StockController.isValidTimeframe timeframe = true ->
        w' = snd service
        /\ match fst service with
           | Return data =>
               response
               = StockController.json (StockController.ApiSuccess data)
           | Throw _ =>
               exists message,
                 dbFault (env w) (dbOps w) = Some message
                 /\ response
                    = StockController.statusJson 500
                        (StockController.ApiFailure
                           ("Database query failed: " ++ message))
           end)
    /\ (StockController.res_status response = 200
        \/ StockController.res_status response = 400
        \/ StockController.res_status response = 500).
Proof.
  intros symbol timeframe service. unfold StockController.getHistory.
  fold symbol timeframe.
  destruct (StockController.isValidSymbol symbol) eqn:Es;
    change (negb true) with false; change (negb false) with true; cbv iota.
  2:{ eexists _, w. split; [reflexivity |].
      repeat split; auto; discriminate. }
  destruct (StockController.isValidTimeframe timeframe) eqn:Et;
    change (negb true) with false; change (negb false) with true; cbv iota.
  2:{ eexists _, w. split; [reflexivity |].
      repeat split; auto; discriminate. }
  pose proof (controller_timeframe_valid _ Et) as Htf.
  unfold tryCatch, bind, ret. fold service.
  destruct (getHistoricalData_ends rt (toUpperCase symbol) timeframe w)
    as [[Hbad _] | [_ [[data Hrun] | (message & Hf & Hrun)]]];
    [congruence | |]; fold service in Hrun.
  - destruct service as [[data' | e] w1]; [| discriminate Hrun].
    injection Hrun as ->.
    eexists _, w1. split; [reflexivity |].
    repeat split; auto; discriminate.
  - rewrite Hrun. simpl.
    eexists _, _. split; [reflexivity |].
    split; [discriminate |]. split; [discriminate |].
    split; [| simpl; auto].
    intros _ _. split; [reflexivity |]. now exists message.
Qed.

(** X16.  For a symbol the controller accepts and a world whose table
    respects its unique index, [GET /:symbol/latest] answers 404 with
    [No data found] exactly when the history of the last week is empty;
    when the history has records it answers 200 with one of them, the one
    no record of the history is later than; and when the read fails it
    answers 500. *)
Theorem getLatest_latest (params_symbol : StockController.ReqValue)
    (w : World) :
  let symbol := StockController.str params_symbol "" in
  StockController.isValidSymbol symbol = true ->
  consistent w ->
  match fst (getHistoricalData rt (toUpperCase symbol) "1W" w) with
  | Return [] =>
      fst (StockController.getLatest rt params_symbol w)
      = Return (StockController.statusJson 404
                  (StockController.ApiFailure "No data found"))
  | Return data =>
      exists latest,
        fst (StockController.getLatest rt params_symbol w)
        = Return (StockController.json (StockController.ApiSuccess latest))
        /\ In latest data
        /\ forall item, In item data -> sp_date item <= sp_date latest
  | Throw _ =>
      exists message,
        fst (StockController.getLatest rt params_symbol w)
        = Return (StockController.statusJson 500
                    (StockController.ApiFailure message))
  end.
Proof.
  intros symbol Hs Hw. unfold StockController.getLatest. fold symbol. rewrite Hs.
  change (negb true) with false. cbv iota. unfold tryCatch, bind, ret.
  pose proof (getHistoricalData_preserves rt (toUpperCase symbol) "1W" w)
    as Hp.
  destruct (getHistoricalData_ends rt (toUpperCase symbol) "1W" w)
    as [[Hbad _] | [_ [[data Hrun] | (message & Hf & Hrun)]]];
    [discriminate Hbad | |].
  - destruct (getHistoricalData rt (toUpperCase symbol) "1W" w)
      as [[data' | e] w1]; [| discriminate Hrun].
    destruct (Hp _ _ Hw eq_refl) as [_ Hasc].
    specialize (Hasc data' eq_refl). apply ascendingDays_dates in Hasc as [Hasc _].
    simpl fst. destruct data' as [| x rest]; [reflexivity |].
    destruct (nth_error (x :: rest) (List.length (x :: rest) - 1))
      as [latest |] eqn:El.
    + exists latest. split; [reflexivity |].
      exact (sorted_last_max sp_date _ _ Hasc El).
    + apply nth_error_None in El. simpl in El. lia.
  - rewrite Hrun. simpl. now eexists.
Qed.

Lemma getHistoricalData_throws (symbol timeframe : string) (w : World)
    (e : Exn) (w' : World) :
  isValidTimeframe timeframe = true ->
  getHistoricalData rt symbol timeframe w = (Throw e, w') ->
  exists message s, e = StockServiceError message "DATABASE_ERROR" (Some s).
Proof.
  intros Htf Hrun.
  destruct (getHistoricalData_ends rt symbol timeframe w)
    as [[Hbad _] | [_ [[data Hd] | (message & _ & Hd)]]];
    [congruence | |]; rewrite Hrun in Hd; [discriminate Hd |].
  injection Hd as -> _. now eexists _, _.
Qed.

(** A ratio read for a timeframe of the enum fails for want of data or
    on the table, and in no other way. *)
Lemma getPriceRatio_throws (symbol1 symbol2 timeframe : string) (w : World)
    (e : Exn) (w' : World) :
  isValidTimeframe timeframe = true ->
  getPriceRatio rt symbol1 symbol2 timeframe w = (Throw e, w') ->
  exists message s,
    e = StockServiceError message "NO_DATA" (Some s)
    \/ e = StockServiceError message "DATABASE_ERROR" (Some s).
Proof.
  intros Htf. rewrite getPriceRatio_lookup.
  set (tf := toUpperCase timeframe).
  assert (Hv : isValidTimeframe tf = true)
    by (subst tf; now rewrite isValidTimeframe_upper).
  assert (Hfrom : forall s1 s2 w0,
             ratioFromHistory rt s1 s2 tf w0 = (Throw e, w') ->
             exists message s,
               e = StockServiceError message "NO_DATA" (Some s)
               \/ e = StockServiceError message "DATABASE_ERROR" (Some s)).
  { intros s1 s2 w0. unfold ratioFromHistory, bind, attempt, throw, ret.
    destruct (getHistoricalData rt s1 tf w0) as [[data1 | e1] w1] eqn:E1;
      destruct (getHistoricalData rt s2 tf w1) as [[data2 | e2] w2] eqn:E2.
    - destruct data1; [intros [= <- _]; eexists _, _; now left |].
      destruct data2; [intros [= <- _]; eexists _, _; now left |].
      destruct (sort_by rd_date _); [discriminate |].
      unfold setPriceRatio. destruct (isAvailable _); discriminate.
    - intros [= <- _].
      destruct (getHistoricalData_throws _ _ _ _ _ Hv E2) as (m & s & ->).
      eexists _, _; now right.
    - intros [= <- _].
      destruct (getHistoricalData_throws _ _ _ _ _ Hv E1) as (m & s & ->).
      eexists _, _; now right.
    - intros [= <- _].
      destruct (getHistoricalData_throws _ _ _ _ _ Hv E1) as (m & s & ->).
      eexists _, _; now right. }
  destruct (ratioCacheLookup w _ _ _) as [[| x hit] |];
    try discriminate; apply Hfrom.
Qed.

(** X17.  The handler of [GET /ratio] always answers.  It checks the
    base symbol, then the symbol to compare, then the timeframe, and
    answers the first that fails with 400 and a message of its own,
    before the service is called; a missing symbol fails the check.
    Otherwise it answers 200 with the points the service returns, 404
    with the message of the service when a symbol has no data, or 500
    with the message of a failed query on the table. *)
Theorem getRatio_status
    (query_base query_compare query_timeframe : StockController.ReqValue)
    (w : World) :
  let base := StockController.str query_base "" in
  let compare := StockController.str query_compare "" in
  let timeframe := StockController.str query_timeframe "1M" in
  let service :=
    getPriceRatio rt (toUpperCase base) (toUpperCase compare) timeframe w in
  exists response w',
    StockController.getRatio rt query_base query_compare query_timeframe w
    = (Return response, w')
    /\ (StockController.isValidSymbol base = false ->
        response
        = StockController.statusJson 400
            (StockController.ApiFailure "Invalid or missing base symbol")
        /\ w' = w)
    /\ (StockController.isValidSymbol base = true ->
        StockController.isValidSymbol compare = false ->
        response
        = StockController.statusJson 400
            (StockController.ApiFailure "Invalid or missing compare symbol")
        /\ w' = w)
    /\ (StockController.isValidSymbol base = true ->
        StockController.isValidSymbol compare = true ->
        StockController.isValidTimeframe timeframe = false ->
        response
        = StockController.statusJson 400
            (StockController.ApiFailure StockController.invalidTimeframe)
        /\ w' = w)
    /\ (StockController.isValidSymbol base = true ->
        StockController.isValidSymbol compare = true ->
        StockController.isValidTimeframe timeframe = true ->
        w' = snd service
        /\ match fst service with
           | Return data =>
               response = StockController.json (StockController.ApiSuccess data)
           | Throw e =>
               exists message s,
                 (e = StockServiceError message "NO_DATA" (Some s)
                  /\ response
                     = StockController.statusJson 404
                         (StockController.ApiFailure message))
                 \/ (e = StockServiceError message "DATABASE_ERROR" (Some s)
                     /\ response
                        = StockController.statusJson 500
                            (StockController.ApiFailure message))
           end).
Proof.
  intros base compare timeframe service. unfold StockController.getRatio.
  fold base compare timeframe.
  destruct (StockController.isValidSymbol base) eqn:Eb;
    change (negb true) with false; change (negb false) with true; cbv iota.
  2:{ eexists _, w. split; [reflexivity |].
      repeat split; auto; discriminate. }
  destruct (StockController.isValidSymbol compare) eqn:Ec;
    change (negb true) with false; change (negb false) with true; cbv iota.
  2:{ eexists _, w. split; [reflexivity |].
      repeat split; auto; discriminate. }
  destruct (StockController.isValidTimeframe timeframe) eqn:Et;
    change (negb true) with false; change (negb false) with true; cbv iota.
  2:{ eexists _, w. split; [reflexivity |].
      repeat split; auto; discriminate. }
  pose proof (controller_timeframe_valid _ Et) as Htf.
  unfold tryCatch, bind, ret. fold service.
  destruct service as [[data | e] w1] eqn:Es.
  - eexists _, w1. split; [reflexivity |].
    repeat split; auto; discriminate.
  - destruct (getPriceRatio_throws _ _ _ _ _ _ Htf Es)
      as (message & s & [-> | ->]); simpl;
      (eexists _, w1; split; [reflexivity |]);
      (split; [discriminate |]); (split; [discriminate |]);
      (split; [discriminate |]); intros _ _ _; (split; [reflexivity |]);
      exists message, s; [left | right]; now split.
Qed.

(** X18.  The handler of [POST /:symbol/sync] answers a symbol that is
    not one to ten letters or digits with 400, before anything is
    touched, and every other symbol with 200 and the result of
    [refreshData] for the upper-cased symbol: a sync that failed is
    answered with 200 as well, its error in the result. *)
Theorem syncStock_always_answers (params_symbol : StockController.ReqValue)
    (w : World) :
  let symbol := StockController.str params_symbol "" in
  if StockController.isValidSymbol symbol then
    exists result w',
      StockController.syncStock rt params_symbol w
      = (Return (StockController.json (StockController.ApiSuccess result)), w')
      /\ refreshData rt (toUpperCase symbol) w = (Return result, w')
      /\ sr_symbol result = toUpperCase symbol
      /\ (List.length (sr_errors result) <= 1)%nat
  else
    StockController.syncStock rt params_symbol w
    = (Return (StockController.statusJson 400
                 (StockController.ApiFailure "Invalid symbol")), w).
Proof.
  intros symbol. unfold StockController.syncStock. fold symbol.
  destruct (StockController.isValidSymbol symbol) eqn:Es;
    change (negb true) with false; change (negb false) with true; cbv iota;
    [| reflexivity].
  unfold tryCatch, bind, ret.
  destruct (refreshData_run rt (toUpperCase symbol) w)
    as (result & w' & Hrun & Hsync & Hs & _).
  destruct (syncStock_outcome rt (trim (toUpperCase (toUpperCase symbol)))
              None None
              (snd (invalidateStock (trim (toUpperCase (toUpperCase symbol))) w)))
    as (result' & w'' & Hrun' & _ & He & _).
  rewrite Hsync in Hrun'. injection Hrun' as <- <-.
  rewrite Hrun. exists result, w'. split; [reflexivity |].
  split; [reflexivity |]. split; [| exact He].
  rewrite Hs, toUpperCase_idem. now apply isValidSymbol_normalized.
Qed.

End Controller.

(** X19.  The handler of [GET /:symbol/date-range] answers a symbol that
    is not one to ten letters or digits with 400, before anything is
    touched.  For every other symbol, when the table answers both
    queries it answers 200, with no range exactly when the upper-cased
    symbol has no stored row, so that a symbol that is not known is not
    answered with 404; when a query fails it answers 500. *)
Theorem getDateRange_answers (params_symbol : StockController.ReqValue)
    (w : World) :
  let symbol := StockController.str params_symbol "" in
  if StockController.isValidSymbol symbol then
    match dbFault (env w) (dbOps w), dbFault (env w) (S (dbOps w)) with
    | None, None =>
        exists range,
          fst (StockController.getDateRange params_symbol w)
          = Return (StockController.json (StockController.ApiSuccess range))
          /\ (range = None
              <-> forall r, In r (stock_prices w) ->
                            p_symbol r <> toUpperCase symbol)
    | _, _ =>
        exists message,
          fst (StockController.getDateRange params_symbol w)
          = Return (StockController.statusJson 500
                      (StockController.ApiFailure message))
    end
  else
    StockController.getDateRange params_symbol w
    = (Return (StockController.statusJson 400
                 (StockController.ApiFailure "Invalid symbol")), w).
Proof.
  intros symbol. unfold StockController.getDateRange. fold symbol.
  destruct (StockController.isValidSymbol symbol) eqn:Es;
    change (negb true) with false; change (negb false) with true; cbv iota;
    [| reflexivity].
  unfold tryCatch, bind, ret.
  pose proof (getAvailableDateRange_run (toUpperCase symbol) w) as Hrun.
  cbv zeta in Hrun.
  rewrite toUpperCase_idem, (isValidSymbol_normalized symbol Es) in Hrun.
  destruct (dbFault (env w) (dbOps w)), (dbFault (env w) (S (dbOps w)));
    try (destruct Hrun as (message & ->); simpl; now eexists).
  destruct Hrun as (range & -> & Hrange). exists range.
  split; [reflexivity |].
  destruct range as [range |]; [| now split].
  destruct Hrange as ((r & Hr & Hs & _) & _).
  split; [discriminate |]. intros Hnone. exfalso. exact (Hnone r Hr Hs).
Qed.

(* ====================================================================== *)
(** * Cache keys, reconnection, counts and fundamentals                    *)
(* ====================================================================== *)

Lemma colonFree_upper (s : string) :
  colonFree s = true -> colonFree (toUpperCase s) = true.
Proof.
  apply everyChar_upper. intros c.
  destruct c as [[] [] [] [] [] [] [] []]; vm_compute; intros H;
    try discriminate H; reflexivity.
Qed.

(** X20.  A history key and a ratio key are never the same text.  For
    symbols without a colon, two history keys are the same text only for
    the same timeframe and symbols that are the same up to case, and two
    ratio keys only for the same timeframe and the same two symbols, in
    the same order, up to case; the case of a symbol does not show in a
    key, that of a timeframe does.  A symbol with a colon can share its
    key with another symbol. *)
Theorem cache_keys_distinct :
  (forall symbol timeframe symbol1 symbol2 timeframe',
      buildStockHistoryKey symbol timeframe
      <> buildPriceRatioKey symbol1 symbol2 timeframe')
  /\ (forall s1 t1 s2 t2,
         colonFree s1 = true -> colonFree s2 = true ->
         buildStockHistoryKey s1 t1 = buildStockHistoryKey s2 t2 ->
         toUpperCase s1 = toUpperCase s2 /\ t1 = t2)
  /\ (forall a1 b1 t1 a2 b2 t2,
         colonFree a1 = true -> colonFree b1 = true ->
         colonFree a2 = true -> colonFree b2 = true ->
         buildPriceRatioKey a1 b1 t1 = buildPriceRatioKey a2 b2 t2 ->
         toUpperCase a1 = toUpperCase a2 /\ toUpperCase b1 = toUpperCase b2
         /\ t1 = t2)
  /\ (forall symbol timeframe,
         buildStockHistoryKey (toUpperCase symbol) timeframe
         = buildStockHistoryKey symbol timeframe)
  /\ buildStockHistoryKey "aapl" "1y" <> buildStockHistoryKey "aapl" "1Y"
  /\ buildStockHistoryKey "A:B" "C" = buildStockHistoryKey "A" "B:C".
Proof.
  split; [| split; [| split; [| split; [| split]]]].
  - intros symbol timeframe symbol1 symbol2 timeframe'.
    unfold buildStockHistoryKey, buildPriceRatioKey. simpl. discriminate.
  - intros s1 t1 s2 t2 H1 H2.
    unfold buildStockHistoryKey. simpl. intros [= E].
    apply colon_first in E; auto using colonFree_upper.
  - intros a1 b1 t1 a2 b2 t2 Ha1 Hb1 Ha2 Hb2.
    unfold buildPriceRatioKey. simpl. intros [= E].
    apply colon_first in E as [Ea E]; auto using colonFree_upper.
    apply colon_first in E as [Eb E]; auto using colonFree_upper.
  - intros symbol timeframe. unfold buildStockHistoryKey.
    now rewrite toUpperCase_idem.
  - discriminate.
  - reflexivity.
Qed.

(** X21.  [reconnectStrategy] gives up after the tenth retry, and until
    then asks for a delay of 100 ms for each retry made: the delay is at
    most one second, and the cap of three seconds is never what it
    returns. *)
Theorem reconnectStrategy_delays (retries : Z) :
  match reconnectStrategy retries with
  | GiveUp _ => 10 < retries
  | RetryAfter delay =>
      retries <= 10 /\ delay = retries * 100 /\ delay <= 1000
  end.
Proof.
  unfold reconnectStrategy. destruct (Z.ltb_spec 10 retries); [assumption |].
  lia.
Qed.

(** ** Counting rows *)

Lemma upsert_count_bound (symbol : string) (row : PrismaStockPrice)
    (t : list PrismaStockPrice) :
  (List.length (rowsOf symbol (upsert row t))
   <= S (List.length (rowsOf symbol t)))%nat.
Proof.
  unfold rowsOf. induction t as [| r t IH]; simpl.
  - destruct (p_symbol row =? symbol)%string; simpl; lia.
  - destruct (sameKey row r) eqn:E; simpl.
    + unfold sameKey in E. apply andb_true_iff in E as [E _].
      apply String.eqb_eq in E. rewrite E.
      destruct (p_symbol r =? symbol)%string; simpl; lia.
    + destruct (p_symbol r =? symbol)%string; simpl; lia.
Qed.

Lemma upsertAll_count_bound (c : Collaborators) (symbol : string)
    (batch : list NormalizedPriceData) :
  forall t,
    (List.length (rowsOf symbol (upsertAll c batch t))
     <= List.length (rowsOf symbol t) + List.length batch)%nat.
Proof.
  unfold upsertAll.
  induction batch as [| n batch IH]; intros t; simpl; [lia |].
  specialize (IH (upsert (toRow c n) t)).
  pose proof (upsert_count_bound symbol (toRow c n) t). lia.
Qed.

Lemma countRows_run (symbol : string) (w : World) :
  dbFault (env w) (dbOps w) = None ->
  countRows symbol w
  = (Return (Z.of_nat (List.length (rowsOf symbol (stock_prices w)))),
     tick_db w).
Proof. intros H. unfold countRows, rowsOf. now rewrite H. Qed.

(** X22.  With a database that does not fail, the count of the stored
    records of a symbol, taken before and after a save for that symbol,
    never goes down, and goes up by no more than the number of records
    the save reports; [getStoredCount] of the sync engine counts the same
    rows as [getRecordCount]. *)
Theorem getRecordCount_after_save (rt : Runtime) (symbol : string)
    (data : list FMPHistoricalPrice) (w : World) :
  (forall n, dbFault (env w) n = None) ->
  exists before saved after w1 w2 w3,
    getRecordCount symbol w = (Return before, w1)
    /\ saveToDatabase rt symbol data w1 = (Return saved, w2)
    /\ getRecordCount symbol w2 = (Return after, w3)
    /\ before <= after <= before + saved
    /\ getStoredCount symbol w2 = getRecordCount symbol w2.
Proof.
  intros Hok. unfold getRecordCount, getStoredCount.
  set (sym := trim (toUpperCase symbol)).
  destruct (saveToDatabase_succeeds rt symbol data (tick_db w))
    as (w2 & Hrun & Htable & Hsame); [intros n; apply Hok |].
  assert (Henv : env w2 = env w) by apply Hsame.
  exists (Z.of_nat (List.length (rowsOf sym (stock_prices w)))),
    (Z.of_nat (List.length (validateAndNormalize rt sym data))),
    (Z.of_nat (List.length (rowsOf sym (stock_prices w2)))),
    (tick_db w), w2, (tick_db w2).
  split; [apply countRows_run, Hok |]. split; [exact Hrun |].
  split; [apply countRows_run; rewrite Henv; apply Hok |].
  split; [| reflexivity].
  rewrite Htable.
  change (stock_prices (tick_db w)) with (stock_prices w).
  change (env (tick_db w)) with (env w).
  pose proof (upsertAll_count_bound (env w) sym
                (validateAndNormalize rt sym data) (stock_prices w)) as Hup.
  destruct (upsertAll_others (env w) sym (validateAndNormalize rt sym data)
              (stock_prices w)) as [_ Hlow].
  { intros n Hn. now apply validateAndNormalize_symbol in Hn. }
  unfold sym in *. lia.
Qed.

(** ** Merging fundamentals *)

Section Fundamentals.

Context (rt : Runtime).

Lemma fromKeyMetrics_sources (symbol : string)
    (incomeMap : list (string * FMPIncomeStatement))
    (keyMetrics : list FMPKeyMetric) :
  forall records,
    fromKeyMetrics rt symbol incomeMap keyMetrics = Return records ->
    (List.length records <= List.length keyMetrics)%nat
    /\ Forall (fun r =>
                 fr_symbol r = symbol
                 /\ exists km,
                      In km keyMetrics
                      /\ parsedDateOf rt (km_date km) = Some (fr_date r)
                      /\ fr_peRatio r = km_peRatio km
                      /\ fr_priceToFcf r = km_priceToFreeCashFlowRatio km
                      /\ fr_roe r = km_returnOnEquity km
                      /\ fr_debtToEquity r = km_debtToEquity km)
         records.
Proof.
  induction keyMetrics as [| km keyMetrics IH]; simpl; intros records.
  - intros [= <-]. split; [simpl; lia | constructor].
  - destruct (parsedDateOf rt (km_date km)) as [parsedDate |] eqn:Ed.
    + destruct (bigintOrNull _) as [revenue |]; [| discriminate].
      destruct (bigintOrNull (km_freeCashFlow km)) as [fcf |];
        [| discriminate].
      destruct (fromKeyMetrics rt symbol incomeMap keyMetrics)
        as [rest | e]; [| discriminate].
      intros [= <-]. destruct (IH rest eq_refl) as [Hlen Hall].
      split; [simpl; lia |]. constructor.
      * simpl. split; [reflexivity |]. exists km. now repeat split; auto.
      * eapply Forall_impl; [| exact Hall].
        intros r [Hs (km' & Hin & H)]. split; [exact Hs |].
        exists km'. split; [now right | exact H].
    + intros H. destruct (IH records H) as [Hlen Hall].
      split; [lia |].
      eapply Forall_impl; [| exact Hall].
      intros r [Hs (km' & Hin & H')]. split; [exact Hs |].
      exists km'. split; [now right | exact H'].
Qed.

Lemma fromIncome_sources (symbol : string)
    (incomeData : list FMPIncomeStatement) :
  forall records,
    fromIncome rt symbol incomeData = Return records ->
    (List.length records <= List.length incomeData)%nat
    /\ Forall (fun r =>
                 fr_symbol r = symbol
                 /\ fr_peRatio r = None /\ fr_priceToFcf r = None
                 /\ fr_fcf r = None /\ fr_roe r = None
                 /\ fr_debtToEquity r = None
                 /\ exists inc,
                      In inc incomeData
                      /\ parsedDateOf rt (inc_date inc) = Some (fr_date r)
                      /\ fr_period r = inc_period inc)
         records.
Proof.
  induction incomeData as [| inc incomeData IH]; simpl; intros records.
  - intros [= <-]. split; [simpl; lia | constructor].
  - destruct (parsedDateOf rt (inc_date inc)) as [parsedDate |] eqn:Ed.
    + destruct (bigintOrNull (inc_revenue inc)) as [revenue |];
        [| discriminate].
      destruct (fromIncome rt symbol incomeData) as [rest | e];
        [| discriminate].
      intros [= <-]. destruct (IH rest eq_refl) as [Hlen Hall].
      split; [simpl; lia |]. constructor.
      * simpl. repeat split. exists inc. now repeat split; auto.
      * eapply Forall_impl; [| exact Hall].
        intros r (Hs & H1 & H2 & H3 & H4 & H5 & inc' & Hin & H).
        repeat split; auto. exists inc'. split; [now right | exact H].
    + intros H. destruct (IH records H) as [Hlen Hall].
      split; [lia |].
      eapply Forall_impl; [| exact Hall].
      intros r (Hs & H1 & H2 & H3 & H4 & H5 & inc' & Hin & H').
      repeat split; auto. exists inc'. split; [now right | exact H'].
Qed.

Lemma Forall_sort_by {A} (key : A -> Z) (P : A -> Prop) (l : list A) :
  Forall P l -> Forall P (sort_by key l).
Proof.
  rewrite !Forall_forall. intros H x Hx. apply H. now apply sort_by_In in Hx.
Qed.

(** X23.  When [mergeFundamentals] returns, every record carries the
    symbol.  With key metrics in the answer, each record is made from a
    key metric with a date that parses, whose ratios it carries, so that
    there are no more records than key metrics and a quarter that only
    the income statements know is dropped.  Income statements make the
    records only when there is no key metric at all, and those records
    carry no ratio and no cash flow. *)
Theorem mergeFundamentals_sources (symbol : string)
    (keyMetrics : list FMPKeyMetric) (incomeData : list FMPIncomeStatement)
    (records : list FundamentalRecord) :
  mergeFundamentals rt symbol keyMetrics incomeData = Return records ->
  Forall (fun r => fr_symbol r = symbol) records
  /\ match keyMetrics with
     | _ :: _ =>
         (List.length records <= List.length keyMetrics)%nat
         /\ Forall (fun r =>
                      exists km,
                        In km keyMetrics
                        /\ parsedDateOf rt (km_date km) = Some (fr_date r)
                        /\ fr_peRatio r = km_peRatio km
                        /\ fr_priceToFcf r = km_priceToFreeCashFlowRatio km
                        /\ fr_roe r = km_returnOnEquity km
                        /\ fr_debtToEquity r = km_debtToEquity km)
              records
     | [] =>
         (List.length records <= List.length incomeData)%nat
         /\ Forall (fun r =>
                      fr_peRatio r = None /\ fr_priceToFcf r = None
                      /\ fr_fcf r = None /\ fr_roe r = None
                      /\ fr_debtToEquity r = None
                      /\ exists inc,
                           In inc incomeData
                           /\ parsedDateOf rt (inc_date inc)
                              = Some (fr_date r)
                           /\ fr_period r = inc_period inc)
              records
     end.
Proof.
  unfold mergeFundamentals.
  set (incomeMap := fold_left _ incomeData []).
  destruct (fromKeyMetrics rt symbol incomeMap keyMetrics) as [first | e] eqn:E1;
    [| discriminate].
  destruct (fromKeyMetrics_sources symbol incomeMap keyMetrics first E1)
    as [Hlen1 Hall1].
  destruct keyMetrics as [| km keyMetrics].
  - simpl in E1. injection E1 as <-.
    destruct incomeData as [| inc incomeData].
    + intros [= <-]. simpl. repeat split; constructor.
    + destruct (fromIncome rt symbol (inc :: incomeData)) as [more | e] eqn:E2;
        [| discriminate].
      intros [= <-]. simpl app.
      destruct (fromIncome_sources symbol (inc :: incomeData) more E2)
        as [Hlen2 Hall2].
      rewrite sort_by_length. split; [| split; [exact Hlen2 |]];
        apply Forall_sort_by; eapply Forall_impl; try exact Hall2;
        intros r H; [apply H | split; apply H].
  - intros [= <-]. rewrite app_nil_r, sort_by_length.
    split; [| split; [exact Hlen1 |]];
      apply Forall_sort_by; eapply Forall_impl; try exact Hall1;
      intros r H; apply H.
Qed.

End Fundamentals.

(* ====================================================================== *)
(** * Further scenarios                                                    *)
(* ====================================================================== *)

(** 150 validated records, a database that fails on the second
    transaction: the sync reports the database error and no saved record
    after two transactions, and the first hundred records have their rows
    in the table. *)
Lemma batch_failure_aborts_witness :
  exists w2 result,
    saveToDatabase Scenario.rt (trim (toUpperCase "aapl")) Scenario.payload
      (tick_api Scenario.failingWorld)
    = (Throw (DataFetcherError
                "Database error while saving data: connection lost"
                "DATABASE_ERROR" None), w2)
    /\ stock_prices w2
       = upsertAll (env (tick_api Scenario.failingWorld))
           (firstn ((2 - 1) * 100)
              (validateAndNormalize Scenario.rt
                 (trim (toUpperCase (trim (toUpperCase "aapl"))))
                 Scenario.payload))
           (stock_prices (tick_api Scenario.failingWorld))
    /\ List.length
         (firstn ((2 - 1) * 100)
            (validateAndNormalize Scenario.rt
               (trim (toUpperCase (trim (toUpperCase "aapl"))))
               Scenario.payload))
       = ((2 - 1) * 100)%nat
    /\ dbOps w2 = (dbOps (tick_api Scenario.failingWorld) + 2)%nat
    /\ (forall key,
           lookupRow key (stock_prices w2)
           = match
               lastWritten (env (tick_api Scenario.failingWorld)) key
                 (firstn ((2 - 1) * 100)
                    (validateAndNormalize Scenario.rt
                       (trim (toUpperCase (trim (toUpperCase "aapl"))))
                       Scenario.payload))
             with
             | Some row => Some row
             | None =>
                 lookupRow key (stock_prices (tick_api Scenario.failingWorld))
             end)
    /\ (forall n,
           In n (firstn ((2 - 1) * 100)
                   (validateAndNormalize Scenario.rt
                      (trim (toUpperCase (trim (toUpperCase "aapl"))))
                      Scenario.payload)) ->
           exists m,
             In m (firstn ((2 - 1) * 100)
                     (validateAndNormalize Scenario.rt
                        (trim (toUpperCase (trim (toUpperCase "aapl"))))
                        Scenario.payload))
             /\ np_date m / MS_PER_DAY = np_date n / MS_PER_DAY
             /\ lookupRow (trim (toUpperCase "aapl"), np_date n / MS_PER_DAY)
                  (stock_prices w2)
                = Some (toRow (env (tick_api Scenario.failingWorld)) m))
    /\ syncStock Scenario.rt "aapl" None None Scenario.failingWorld
       = (Return result, w2)
    /\ sr_errors result
       = [getErrorMessage
            (DataFetcherError
               "Database error while saving data: connection lost"
               "DATABASE_ERROR" None)]
    /\ sr_recordsSaved result = 0
    /\ sr_recordsFetched result = Z.of_nat (List.length Scenario.payload).
Proof.
  eapply (batch_failure_aborts Scenario.rt "aapl" None None
            Scenario.failingWorld (tick_api Scenario.failingWorld)
            Scenario.payload _ 2 "connection lost").
  - vm_compute. reflexivity.
  - vm_compute. reflexivity.
  - lia.
  - apply Nat.ltb_lt. vm_compute. reflexivity.
  - intros j Hj. assert (j = 0%nat) as -> by lia. reflexivity.
  - reflexivity.
Defined.

(** The same run, by its rows: the table holds the first hundred days of
    the payload, one row each, and none of the fifty days after them. *)
Example batch_failure_rows :
  let table :=
    stock_prices (snd (syncStock Scenario.rt "aapl" None None
                         Scenario.failingWorld)) in
  map (fun r => (p_symbol r, p_day r)) table
  = map (fun i => ("AAPL", Scenario.daysFromCivil 2024 1 1 + Z.of_nat i))
      (seq 0 100)
  /\ map p_volume table = repeat 5000 100
  /\ forallb (fun i =>
                match lookupRow
                        ("AAPL", Scenario.daysFromCivil 2024 1 1 + Z.of_nat i)
                        table
                with
                | Some _ => false
                | None => true
                end)
       (seq 100 50) = true.
Proof. vm_compute. repeat split; reflexivity. Qed.

(** A payload with a record that has no date between two sound records.
    Validation drops the record and [saveToDatabase] saves the two
    others, whichever [parseISO] is at work. *)
Example saveToDatabase_skips_missing_date :
  let saved rt :=
    saveToDatabase rt "aapl" Fixtures.dateless Fixtures.datelessWorld in
  map (keeps Scenario.rt) Fixtures.dateless = [true; false; true]
  /\ map (keeps Fixtures.splitting) Fixtures.dateless = [true; false; true]
  /\ fst (saved Scenario.rt) = Return 2
  /\ fst (saved Fixtures.splitting) = Return 2
  /\ map (fun r => (p_symbol r, p_day r))
       (stock_prices (snd (saved Fixtures.splitting)))
     = [("AAPL", Scenario.daysFromCivil 2024 1 4);
        ("AAPL", Scenario.daysFromCivil 2024 1 5)].
Proof. vm_compute. repeat split; reflexivity. Qed.

(** The same payload through [syncStock].  Where [parseISO] raises for a
    date that is not a string, the sync fails on the record without a
    date before validation is reached: two valid records were fetched and
    none is saved.  Where [parseISO] answers an Invalid Date instead, the
    two valid records are saved. *)
Example syncStock_missing_date_saves_nothing :
  let strict :=
    syncStock Fixtures.splitting "aapl" None None Fixtures.datelessWorld in
  let lenient :=
    syncStock Scenario.rt "aapl" None None Fixtures.datelessWorld in
  fst strict
  = Return {| sr_symbol := "AAPL"; sr_recordsFetched := 3;
              sr_recordsSaved := 0; sr_dateRange := (None, None);
              sr_errors :=
                ["Cannot read properties of undefined (reading 'split')"] |}
  /\ stock_prices (snd strict) = []
  /\ List.length (filter (keeps Fixtures.splitting) Fixtures.dateless) = 2%nat
  /\ (exists result,
         fst lenient = Return result
         /\ sr_recordsSaved result = 2 /\ sr_errors result = [])
  /\ List.length (stock_prices (snd lenient)) = 2%nat.
Proof.
  vm_compute. repeat split; try reflexivity.
  eexists. repeat split; reflexivity.
Qed.

(** Three records that validation drops are saved as nothing. *)
Lemma saveToDatabase_nothing_valid_witness :
  saveToDatabase Scenario.rt "aapl" Fixtures.unusable Scenario.storedWorld
  = (Return 0, Scenario.storedWorld).
Proof.
  apply saveToDatabase_nothing_valid.
  intros r [<- | [<- | [<- | []]]]; reflexivity.
Defined.

(** A payload with two records for January 10 and one for January 11,
    saved over the stored rows. *)
Lemma saveToDatabase_last_wins_witness :
  exists w',
    saveToDatabase Scenario.rt "aapl" Fixtures.revised Scenario.storedWorld
    = (Return
         (Z.of_nat
            (List.length
               (validateAndNormalize Scenario.rt (trim (toUpperCase "aapl"))
                  Fixtures.revised))), w')
    /\ forall k,
         lookupRow k (stock_prices w')
         = match lastWritten (env Scenario.storedWorld) k
                   (validateAndNormalize Scenario.rt
                      (trim (toUpperCase "aapl")) Fixtures.revised) with
           | Some row => Some row
           | None => lookupRow k (stock_prices Scenario.storedWorld)
           end.
Proof.
  apply (saveToDatabase_last_wins Scenario.rt "aapl" Fixtures.revised
           Scenario.storedWorld).
  intros n. reflexivity.
Defined.

(** The second record of January 10 is the one stored, January 11 is
    added, and the row of January 9 stays. *)
Example saveToDatabase_revised :
  let table :=
    stock_prices
      (snd (saveToDatabase Scenario.rt "aapl" Fixtures.revised
              Scenario.storedWorld)) in
  option_map p_volume
    (lookupRow ("AAPL", Scenario.daysFromCivil 2024 1 10) table) = Some 6000
  /\ option_map p_volume
       (lookupRow ("AAPL", Scenario.daysFromCivil 2024 1 11) table)
     = Some 5000
  /\ lookupRow ("AAPL", Scenario.daysFromCivil 2024 1 9) table
     = Some (Scenario.row "AAPL" 9 18515)
  /\ List.length table = 10%nat.
Proof. vm_compute. repeat split. Qed.

Lemma saveToDatabase_idempotent_witness :
  exists k w1 w2,
    saveToDatabase Scenario.rt "aapl" Fixtures.revised Scenario.storedWorld
    = (Return k, w1)
    /\ saveToDatabase Scenario.rt "aapl" Fixtures.revised w1 = (Return k, w2)
    /\ stock_prices w2 = stock_prices w1.
Proof.
  apply (saveToDatabase_idempotent Scenario.rt "aapl" Fixtures.revised
           Scenario.storedWorld).
  - exact (proj1 storedWorld_consistent).
  - intros n. reflexivity.
Defined.

Lemma getRecordCount_after_save_witness :
  exists before saved after w1 w2 w3,
    getRecordCount "aapl" Scenario.storedWorld = (Return before, w1)
    /\ saveToDatabase Scenario.rt "aapl" Fixtures.revised w1
       = (Return saved, w2)
    /\ getRecordCount "aapl" w2 = (Return after, w3)
    /\ before <= after <= before + saved
    /\ getStoredCount "aapl" w2 = getRecordCount "aapl" w2.
Proof.
  apply (getRecordCount_after_save Scenario.rt "aapl" Fixtures.revised
           Scenario.storedWorld).
  intros n. reflexivity.
Defined.

(** Five stored rows of AAPL, three records saved, six rows afterwards. *)
Example getRecordCount_revised :
  fst (getRecordCount "aapl" Scenario.storedWorld) = Return 5
  /\ fst (saveToDatabase Scenario.rt "aapl" Fixtures.revised
            Scenario.storedWorld) = Return 3
  /\ fst (getRecordCount "aapl"
            (snd (saveToDatabase Scenario.rt "aapl" Fixtures.revised
                    Scenario.storedWorld))) = Return 6.
Proof. vm_compute. repeat split. Qed.

(** The last week of AAPL, read twice. *)
Lemma getHistoricalData_cached_after_witness :
  exists data,
    fst (getHistoricalData Scenario.rt "aapl" "1w" Scenario.storedWorld)
    = Return data
    /\ data <> []
    /\ getHistoricalData Scenario.rt "aapl" "1w"
         (snd (getHistoricalData Scenario.rt "aapl" "1w"
                 Scenario.storedWorld))
       = (Return data,
          tick_cache
            (snd (getHistoricalData Scenario.rt "aapl" "1w"
                    Scenario.storedWorld))).
Proof.
  eexists. split; [vm_compute; reflexivity |]. split; [discriminate |].
  apply (getHistoricalData_cached_after Scenario.rt "aapl" "1w"
           Scenario.storedWorld).
  - reflexivity.
  - intros n. reflexivity.
  - vm_compute. reflexivity.
  - discriminate.
Defined.

(** A refresh of AAPL in the world in which its last week is cached. *)
Lemma refreshData_invalidates_witness :
  exists result w',
    refreshData Scenario.rt "aapl" Fixtures.cachedWorld = (Return result, w')
    /\ syncStock Scenario.rt (toUpperCase "aapl") None None
         (snd (invalidateStock (toUpperCase "aapl") Fixtures.cachedWorld))
       = (Return result, w')
    /\ sr_symbol result = toUpperCase "aapl"
    /\ (isAvailable Fixtures.cachedWorld = true ->
        (forall timeframe,
            historyCache w'
              (buildStockHistoryKey (toUpperCase "aapl") timeframe) = None)
        /\ (forall other timeframe,
               ratioCache w'
                 (buildPriceRatioKey (toUpperCase "aapl") other timeframe)
               = None
               /\ ratioCache w'
                    (buildPriceRatioKey other (toUpperCase "aapl") timeframe)
                  = None)
        /\ (forall other timeframe,
               StockController.isValidSymbol other = true ->
               toUpperCase other <> toUpperCase "aapl" ->
               colonFree timeframe = true ->
               historyCache w' (buildStockHistoryKey other timeframe)
               = historyCache Fixtures.cachedWorld
                   (buildStockHistoryKey other timeframe)))
    /\ (isAvailable Fixtures.cachedWorld = false ->
        historyCache w' = historyCache Fixtures.cachedWorld
        /\ ratioCache w' = ratioCache Fixtures.cachedWorld).
Proof.
  exact (refreshData_invalidates Scenario.rt "aapl" Fixtures.cachedWorld
           eq_refl).
Defined.

(** The cached week is there before the refresh and gone after it; the
    sync of the refresh fails on the network and is reported in the
    result. *)
Example refreshData_cached :
  option_map (fun entry => List.length (ce_value entry))
    (historyCache Fixtures.cachedWorld (buildStockHistoryKey "AAPL" "1W"))
  = Some 5%nat
  /\ historyCache (snd (refreshData Scenario.rt "aapl" Fixtures.cachedWorld))
       (buildStockHistoryKey "AAPL" "1W") = None
  /\ match fst (refreshData Scenario.rt "aapl" Fixtures.cachedWorld) with
     | Return result => sr_errors result = [classMessage NetworkError]
     | Throw _ => False
     end.
Proof. vm_compute. repeat split. Qed.

(** The latest record of AAPL in the stored world. *)
Lemma getLatest_latest_witness :
  match
    fst (getHistoricalData Scenario.rt
           (toUpperCase
              (StockController.str (StockController.RString "aapl") ""))
           "1W" Scenario.storedWorld)
  with
  | Return [] =>
      fst (StockController.getLatest Scenario.rt
             (StockController.RString "aapl") Scenario.storedWorld)
      = Return (StockController.statusJson 404
                  (StockController.ApiFailure "No data found"))
  | Return data =>
      exists latest,
        fst (StockController.getLatest Scenario.rt
               (StockController.RString "aapl") Scenario.storedWorld)
        = Return (StockController.json (StockController.ApiSuccess latest))
        /\ In latest data
        /\ forall item, In item data -> sp_date item <= sp_date latest
  | Throw _ =>
      exists message,
        fst (StockController.getLatest Scenario.rt
               (StockController.RString "aapl") Scenario.storedWorld)
        = Return (StockController.statusJson 500
                    (StockController.ApiFailure message))
  end.
Proof.
  exact (getLatest_latest Scenario.rt (StockController.RString "aapl")
           Scenario.storedWorld eq_refl storedWorld_consistent).
Defined.

(** The answers of the handlers in the stored world: the latest record
    is the one of January 10; a symbol that is not known has an empty
    history and no latest record; a lower-case timeframe is refused; a
    failed sync is answered with 200. *)
Example controller_answers :
  match fst (StockController.getLatest Scenario.rt
               (StockController.RString "aapl") Scenario.storedWorld) with
  | Return response =>
      match StockController.res_body response with
      | StockController.ApiSuccess latest =>
          Scenario.dayText (sp_date latest) = "2024-01-10"
      | StockController.ApiFailure _ => False
      end
  | Throw _ => False
  end
  /\ option_map StockController.res_status
       match fst (StockController.getLatest Scenario.rt
                    (StockController.RString "zzzz") Scenario.storedWorld) with
       | Return response => Some response
       | Throw _ => None
       end = Some 404
  /\ fst (StockController.getHistory Scenario.rt
            (StockController.RString "zzzz") StockController.ROther
            Scenario.storedWorld)
     = Return (StockController.json (StockController.ApiSuccess []))
  /\ fst (StockController.getHistory Scenario.rt
            (StockController.RString "aapl") (StockController.RString "1w")
            Scenario.storedWorld)
     = Return (StockController.statusJson 400
                 (StockController.ApiFailure
                    StockController.invalidTimeframe))
  /\ option_map StockController.res_status
       match fst (StockController.syncStock Scenario.rt
                    (StockController.RString "aapl") Scenario.storedWorld) with
       | Return response => Some response
       | Throw _ => None
       end = Some 200.
Proof. vm_compute. repeat split. Qed.

(** Five quarters of key metrics joined with their income statements. *)
Lemma mergeFundamentals_sources_witness :
  exists records,
    mergeFundamentals Scenario.rt "AAPL" Scenario.keyMetrics Scenario.incomes
    = Return records
    /\ List.length records = 5%nat
    /\ Forall (fun r => fr_symbol r = "AAPL") records
    /\ (List.length records <= List.length Scenario.keyMetrics)%nat
    /\ Forall (fun r =>
                 exists km,
                   In km Scenario.keyMetrics
                   /\ parsedDateOf Scenario.rt (km_date km)
                      = Some (fr_date r)
                   /\ fr_peRatio r = km_peRatio km
                   /\ fr_priceToFcf r = km_priceToFreeCashFlowRatio km
                   /\ fr_roe r = km_returnOnEquity km
                   /\ fr_debtToEquity r = km_debtToEquity km)
         records.
Proof.
  eexists. split; [vm_compute; reflexivity |]. split; [reflexivity |].
  apply (mergeFundamentals_sources Scenario.rt "AAPL" Scenario.keyMetrics
           Scenario.incomes).
  vm_compute. reflexivity.
Defined.
